(** * git-changes-view: the numstat normalizer, the tree builder, the
      renderers and the JSON projection

    A shallow embedding of [diff.py], [tree.py], [output.py] and of the mode
    selection of [cli.py], followed by the properties of these functions.

    Python values are modelled as follows.
    - [str] is a sequence of Unicode code points: a character is its code
      point, a number of [N]; [len] counts code points, and [<] on strings
      is the lexicographic order of the code points.
    - [int] is unbounded: [Z].
    - [T | None] is [option T].
    - a [dict] keeps its keys in insertion order: an association list in
      which a key is looked up from the front, assigned in place when it is
      present and appended when it is not.
    - a raised exception is the [Raise] branch of [result]. *)

From Stdlib Require Import String Ascii.
From Stdlib Require Import ZArith NArith List Bool Lia.
From Stdlib Require Decimal DecimalZ DecimalPos DecimalN DecimalFacts.
From Stdlib Require Import Sorting.Sorted Sorting.Permutation.
Import ListNotations.

(* ================================================================== *)
(** ** Python strings, integers and dictionaries                       *)
(* ================================================================== *)

Module py.

Definition char := N.
Definition str := list char.

(** An ASCII literal of the source, as code points. *)
Definition lit (s : string) : str :=
  map N_of_ascii (list_ascii_of_string s).

Definition TAB : char := 9%N.
Definition NL : char := 10%N.
Definition ESC : char := 27%N.
Definition SPACE : char := 32%N.

(** [len(l)], of a string or of a list *)
Definition len {A} (l : list A) : Z := Z.of_nat (length l).

(** [a == b] *)
Fixpoint str_eqb (a b : str) : bool :=
  match a, b with
  | [], [] => true
  | x :: a', y :: b' => N.eqb x y && str_eqb a' b'
  | _, _ => false
  end.

(** [a < b] *)
Fixpoint str_ltb (a b : str) : bool :=
  match a, b with
  | _, [] => false
  | [], _ :: _ => true
  | x :: a', y :: b' => N.ltb x y || (N.eqb x y && str_ltb a' b')
  end.

(** [c.isspace()]: the characters that [str.strip()] removes. *)
Definition isspace (c : char) : bool :=
  ((9 <=? c) && (c <=? 13) || (28 <=? c) && (c <=? 32)
   || (c =? 133) || (c =? 160) || (c =? 5760)
   || (8192 <=? c) && (c <=? 8202)
   || (c =? 8232) || (c =? 8233) || (c =? 8239) || (c =? 8287)
   || (c =? 12288))%N.

Fixpoint lstrip (s : str) : str :=
  match s with
  | [] => []
  | c :: s' => if isspace c then lstrip s' else s
  end.

Definition rstrip (s : str) : str := rev (lstrip (rev s)).

(** [s.strip()] *)
Definition strip (s : str) : str := rstrip (lstrip s).

(** [s.startswith(p)] *)
Fixpoint startswith (s p : str) {struct p} : bool :=
  match p, s with
  | [], _ => true
  | _ :: _, [] => false
  | x :: p', y :: s' => N.eqb x y && startswith s' p'
  end.

(** [sub in s] *)
Fixpoint contains (sub s : str) : bool :=
  match s with
  | [] => startswith [] sub
  | _ :: s' => startswith s sub || contains sub s'
  end.

Definition cons_head (c : char) (fields : list str) : list str :=
  match fields with
  | [] => [[c]]
  | f :: fs => (c :: f) :: fs
  end.

(** [s.split(sep)] for a separator that is not empty: the text is cut at
    every occurrence of [sep], found from the left and not overlapping.
    [skip] counts the characters of a separator just matched that are
    still to be passed over. *)
Fixpoint split_from (sep : str) (skip : nat) (s : str) : list str :=
  match s with
  | [] => [[]]
  | c :: s' =>
      match skip with
      | S k => split_from sep k s'
      | O =>
          if startswith s sep
          then [] :: split_from sep (length sep - 1) s'
          else cons_head c (split_from sep 0 s')
      end
  end.

Definition split (s sep : str) : list str := split_from sep 0 s.

(** [s.replace(old, new)] for an [old] that is not empty. *)
Fixpoint replace_from (old new : str) (skip : nat) (s : str) : str :=
  match s with
  | [] => []
  | c :: s' =>
      match skip with
      | S k => replace_from old new k s'
      | O =>
          if startswith s old
          then new ++ replace_from old new (length old - 1) s'
          else c :: replace_from old new 0 s'
      end
  end.

Definition replace (s old new : str) : str := replace_from old new 0 s.

(** [s.rjust(width)]: padded with spaces on the left; a width that is not
    larger than [len(s)] leaves [s] as it is. *)
Definition rjust (s : str) (width : Z) : str :=
  repeat SPACE (Z.to_nat (width - len s)) ++ s.

(** [" " * n] *)
Definition spaces (n : Z) : str := repeat SPACE (Z.to_nat n).

(** [str(z)]: the decimal digits, after a minus sign when [z < 0]. *)
Fixpoint uint_chars (u : Decimal.uint) : str :=
  match u with
  | Decimal.Nil => []
  | Decimal.D0 u => 48%N :: uint_chars u
  | Decimal.D1 u => 49%N :: uint_chars u
  | Decimal.D2 u => 50%N :: uint_chars u
  | Decimal.D3 u => 51%N :: uint_chars u
  | Decimal.D4 u => 52%N :: uint_chars u
  | Decimal.D5 u => 53%N :: uint_chars u
  | Decimal.D6 u => 54%N :: uint_chars u
  | Decimal.D7 u => 55%N :: uint_chars u
  | Decimal.D8 u => 56%N :: uint_chars u
  | Decimal.D9 u => 57%N :: uint_chars u
  end.

Definition str_of_int (z : Z) : str :=
  match Z.to_int z with
  | Decimal.Pos u => uint_chars u
  | Decimal.Neg u => 45%N :: uint_chars u
  end.

Definition is_digit (c : char) : bool := ((48 <=? c) && (c <=? 57))%N.

(** The characters [int()] passes over at both ends of its argument: the
    ASCII white space and the white space beyond ASCII (the separators
    U+001C to U+001F are kept, and make the conversion fail). *)
Definition int_space (c : char) : bool :=
  ((9 <=? c) && (c <=? 13) || (c =? 32) || (128 <=? c) && isspace c)%N.

Fixpoint int_lstrip (s : str) : str :=
  match s with
  | [] => []
  | c :: s' => if int_space c then int_lstrip s' else s
  end.

(** The digits of a decimal literal; a single underscore may stand between
    two digits. [prev] tells that the previous character was a digit. *)
Fixpoint int_digits (prev : bool) (acc : N) (s : str) : option N :=
  match s with
  | [] => if prev then Some acc else None
  | c :: s' =>
      if is_digit c then int_digits true (10 * acc + (c - 48))%N s'
      else if (c =? 95)%N && prev then int_digits false acc s'
      else None
  end.

(** The digits of [int()], without a sign. *)
Definition int_unsigned (ds : str) : option Z :=
  option_map Z.of_N (int_digits false 0%N ds).

(** [int(s)]: [None] stands for [ValueError]. White space at both ends is
    passed over, a sign may come first, the digits follow it at once. The
    digits read are the ASCII ones, which are those git writes. This is
    [int()] on ASCII text of 640 characters at most. Beyond that the two
    differ: in a text with a character beyond ASCII Python also reads the
    decimal digits of other scripts (and passes over U+001C to U+001F),
    where this function answers [None]; and the interpreter raises
    [ValueError] on more digits than a bound that can be set (to 640 at
    least, 4300 by default), where this function reads them. *)
Definition int (s : str) : option Z :=
  let body := rev (int_lstrip (rev (int_lstrip s))) in
  match body with
  | [] => None
  | c :: ds =>
      if (c =? 45)%N then option_map Z.opp (int_unsigned ds)
      else if (c =? 43)%N then int_unsigned ds
      else int_unsigned body
  end.

(** [sum(...)] *)
Definition sum (l : list Z) : Z := fold_left Z.add l 0%Z.

(** Dictionaries. *)
Definition dict (V : Type) := list (str * V).

(** [d.get(k)]: the value of the key, [None] when [k not in d]. *)
Fixpoint dict_get {V} (k : str) (d : dict V) : option V :=
  match d with
  | [] => None
  | (k', v) :: d' => if str_eqb k k' then Some v else dict_get k d'
  end.

(** [d[k] = v] *)
Fixpoint dict_set {V} (k : str) (v : V) (d : dict V) : dict V :=
  match d with
  | [] => [(k, v)]
  | (k', v') :: d' =>
      if str_eqb k k' then (k', v) :: d' else (k', v') :: dict_set k v d'
  end.

(** [d.values()] *)
Definition dict_values {V} (d : dict V) : list V := map snd d.

(** [sorted(l, key=...)]: a stable sort, here by insertion; [lt a b] is
    [key(a) < key(b)]. An element goes in front of the first one of the
    sorted rest that is not smaller than it. *)
Fixpoint insert_sorted {A} (lt : A -> A -> bool) (x : A) (l : list A) : list A :=
  match l with
  | [] => [x]
  | y :: l' => if lt y x then y :: insert_sorted lt x l' else x :: l
  end.

Definition sorted {A} (lt : A -> A -> bool) (l : list A) : list A :=
  fold_right (insert_sorted lt) [] l.

(** [enumerate(l)] *)
Definition enumerate {A} (l : list A) : list (Z * A) :=
  combine (map Z.of_nat (seq 0 (length l))) l.

(** Exceptions. *)
Inductive exn := ValueError | IndexError.

Inductive result (A : Type) :=
| Ok (a : A)
| Raise (e : exn).
Arguments Ok {A} a.
Arguments Raise {A} e.

Definition bind {A B} (r : result A) (k : A -> result B) : result B :=
  match r with
  | Ok a => k a
  | Raise e => Raise e
  end.

(** [s[:n]]: the first [n] characters; a negative [n] counts from the
    end, and the slice is empty when it goes before the start. *)
Definition slice_to (s : str) (n : Z) : str :=
  if (0 <=? n)%Z then firstn (Z.to_nat n) s
  else firstn (Z.to_nat (len s + n)) s.

(** [s.count(sub)] for a [sub] that is not empty: the occurrences found
    from the left, not overlapping. *)
Fixpoint count_from (sub : str) (skip : nat) (s : str) : Z :=
  match s with
  | [] => 0%Z
  | c :: s' =>
      match skip with
      | S k => count_from sub k s'
      | O =>
          if startswith s sub
          then (1 + count_from sub (length sub - 1) s')%Z
          else count_from sub 0 s'
      end
  end.

Definition count (s sub : str) : Z := count_from sub 0 s.

(** [s.endswith(p)] *)
Definition endswith (s p : str) : bool := startswith (rev s) (rev p).

(** [sep.join(l)] *)
Fixpoint join (sep : str) (l : list str) : str :=
  match l with
  | [] => []
  | [x] => x
  | x :: rest => x ++ sep ++ join sep rest
  end.

(** The lines of a file opened in text mode, as the iteration over the
    file gives them: a line ends with ["\n"], with ["\r"] or with
    ["\r\n"], and the text after the last line end is a line when it is
    not empty. [file_lines_from pending after_cr s] is their number;
    [pending] tells that the current line has characters, [after_cr] that
    the previous character was a ["\r"]. *)
Fixpoint file_lines_from (pending after_cr : bool) (s : str) : Z :=
  match s with
  | [] => if pending then 1%Z else 0%Z
  | c :: s' =>
      if (c =? 10)%N then
        if after_cr then file_lines_from false false s'
        else (1 + file_lines_from false false s')%Z
      else if (c =? 13)%N then (1 + file_lines_from false true s')%Z
      else file_lines_from true false s'
  end.

(** [sum(1 for _ in f)] for a text file [f] with the decoded text [s]. *)
Definition file_line_count (s : str) : Z := file_lines_from false false s.

End py.

Import py.

Notation "x <- r ;; k" := (bind r (fun x => k))
  (at level 61, r at next level, right associativity).

(* ================================================================== *)
(** ** diff.py                                                         *)
(* ================================================================== *)

Module diff.

Record FileChange := mkFileChange {
  path : str;
  insertions : Z;
  deletions : Z;
  loc : option Z  (* None if the file is deleted or binary *)
}.

Definition net (c : FileChange) : Z := (insertions c - deletions c)%Z.
Definition total (c : FileChange) : Z := (insertions c + deletions c)%Z.

Definition ARROW : str := lit " => ".
Definition MINUS : str := lit "-".

(** [int(field) if field != "-" else 0] *)
Definition stat_field (field : str) : result Z :=
  if negb (str_eqb field MINUS)
  then match int field with
       | Some z => Ok z
       | None => Raise ValueError
       end
  else Ok 0%Z.

(** Lines 75-80: the path of a record, from the third field. *)
Definition rename_path (p : str) : result str :=
  if contains ARROW p then
    let p1 := replace (replace p (lit "{") []) (lit "}") [] in
    if contains ARROW p1 then
      match split p1 ARROW with
      | _ :: new :: _ => Ok new
      | _ => Raise IndexError
      end
    else Ok p1
  else Ok p.

(** The body of the loop of [parse_numstat] (lines 67-81): the records one
    line appends to [changes]. *)
Definition parse_numstat_line (line : str) : result (list FileChange) :=
  match line with
  | [] => Ok []
  | _ =>
      let parts := split line [TAB] in
      if (3 <=? len parts)%Z then
        match parts with
        | p0 :: p1 :: p2 :: _ =>
            ins <- stat_field p0 ;;
            dels <- stat_field p1 ;;
            p <- rename_path p2 ;;
            Ok [mkFileChange p ins dels None]  (* loc defaults to None *)
        | _ => Raise IndexError
        end
      else Ok []
  end.

Fixpoint parse_numstat_loop (lines : list str) (changes : list FileChange)
  : result (list FileChange) :=
  match lines with
  | [] => Ok changes
  | line :: rest =>
      new <- parse_numstat_line line ;;
      parse_numstat_loop rest (changes ++ new)
  end.

Definition parse_numstat (output : str) : result (list FileChange) :=
  match output, strip output with
  | [], _ | _, [] => Ok []
  | _, stripped => parse_numstat_loop (split stripped [NL]) []
  end.

(** The arguments [get_changes] gives to [repo.git.diff] for a mode;
    [base] is what [get_merge_base] returns. *)
Definition get_changes_diff_args (mode base : str) : list str :=
  if str_eqb mode (lit "uncommitted") then
    [lit "--numstat"; lit "HEAD"]
  else if str_eqb mode (lit "since-last") then
    [lit "--numstat"; lit "HEAD~1"; lit "HEAD"]
  else
    [lit "--numstat"; base; lit "HEAD"].

(** *** The repository, as [diff.py] uses it *)

(** The exceptions of this module and of its callers: those of the
    built-ins, [GitCommandError] with its text [str(e)] and its [stderr]
    (empty when there is none), and [MergeBaseNotFoundError]. *)
Inductive error :=
| BuiltinError (e : exn)
| GitCommandError (text stderr : str)
| MergeBaseNotFoundError (message : str).

Inductive outcome (A : Type) :=
| Return (a : A)
| Fail (e : error).
Arguments Return {A} a.
Arguments Fail {A} e.

Definition and_then {A B} (r : outcome A) (k : A -> outcome B) : outcome B :=
  match r with
  | Return a => k a
  | Fail e => Fail e
  end.

(** The result of a built-in, among the outcomes. *)
Definition of_result {A} (r : result A) : outcome A :=
  match r with
  | Ok a => Return a
  | Raise e => Fail (BuiltinError e)
  end.

(** A commit, as [get_commit_info] reads it; [committed] is
    [commit.committed_datetime.strftime("%Y-%m-%d %H:%M:%S")]. *)
Record Commit := mkCommit {
  hexsha : str;
  committed : str;
  commit_message : str
}.

(** What the code asks of a [Repo]:
    - [git_merge_base branch] is [repo.git.merge_base("HEAD", branch)],
      [None] when it raises [GitCommandError];
    - [git_diff args] is [repo.git.diff( *args )];
    - [working_file path] is the decoded text of the regular file
      [os.path.join(repo.working_dir, path)], [None] when there is no such
      file or when reading it raises;
    - [head_blob path] is the decoded data of [repo.head.commit.tree / path],
      [None] when the tree has no such path or when reading it raises;
    - [commit ref] is [repo.commit(ref)]. *)
Record Repo := mkRepo {
  git_merge_base : str -> option str;
  git_diff : list str -> outcome str;
  working_file : str -> option str;
  head_blob : str -> option str;
  commit : str -> outcome Commit
}.

(** The loop of [get_merge_base] (lines 45-49). *)
Fixpoint first_merge_base (repo : Repo) (candidates : list str) : option str :=
  match candidates with
  | [] => None
  | branch :: rest =>
      match git_merge_base repo branch with
      | Some out => Some (strip out)
      | None => first_merge_base repo rest
      end
  end.

Definition merge_base_candidates (target : str) : list str :=
  [target; lit "origin/" ++ target; lit "master"; lit "origin/master"].

Definition get_merge_base (repo : Repo) (target : str) : outcome str :=
  let candidates := merge_base_candidates target in
  match first_merge_base repo candidates with
  | Some base => Return base
  | None =>
      Fail (MergeBaseNotFoundError
              (lit "Could not find merge base with any of: "
                 ++ join (lit ", ") candidates))
  end.

(** Line 140: [content.count("\n") + (1 if content and not
    content.endswith("\n") else 0)]. *)
Definition head_line_count (content : str) : Z :=
  (count content [NL]
   + (if match content with [] => false | _ :: _ => true end
         && negb (endswith content [NL])
      then 1 else 0))%Z.

Definition get_file_loc (repo : Repo) (p mode : str) : option Z :=
  if str_eqb mode (lit "uncommitted") then
    match working_file repo p with
    | None => None
    | Some text => Some (file_line_count text)
    end
  else
    match head_blob repo p with
    | Some content => Some (head_line_count content)
    | None => None
    end.

Definition set_loc (change : FileChange) (l : option Z) : FileChange :=
  mkFileChange (path change) (insertions change) (deletions change) l.

Definition get_changes (repo : Repo) (mode : str) : outcome (list FileChange) :=
  and_then
    (if str_eqb mode (lit "uncommitted") then
       git_diff repo [lit "--numstat"; lit "HEAD"]
     else if str_eqb mode (lit "since-last") then
       git_diff repo [lit "--numstat"; lit "HEAD~1"; lit "HEAD"]
     else
       and_then (get_merge_base repo (lit "main"))
         (fun base => git_diff repo [lit "--numstat"; base; lit "HEAD"]))
    (fun output =>
       and_then (of_result (parse_numstat output))
         (fun changes =>
            Return (map (fun change =>
                           set_loc change (get_file_loc repo (path change) mode))
                        changes))).

Definition get_base_ref (repo : Repo) (mode : str) : option str :=
  if str_eqb mode (lit "uncommitted") then Some (lit "HEAD")
  else if str_eqb mode (lit "since-last") then Some (lit "HEAD~1")
  else match get_merge_base repo (lit "main") with
       | Return base => Some base
       | Fail (MergeBaseNotFoundError _) => None
       | Fail _ => None  (* [get_merge_base] raises nothing else *)
       end.

Record CommitInfo := mkCommitInfo {
  short_hash : str;
  message : str;
  date : str
}.

(** [CommitInfo.format(max_msg_len)] *)
Definition format_commit (ci : CommitInfo) (max_msg_len : Z) : str :=
  let msg := message ci in
  let msg :=
    if (max_msg_len <? len msg)%Z
    then slice_to msg (max_msg_len - 3) ++ lit "..."
    else msg in
  date ci ++ lit " " ++ short_hash ci ++ lit " " ++ msg.

(** Lines 183-186 of [get_commit_info], for the commit found. *)
Definition commit_info (c : Commit) : CommitInfo :=
  mkCommitInfo (slice_to (hexsha c) 6)
               (strip (hd [] (split (commit_message c) [NL])))
               (committed c).

Definition get_commit_info (repo : Repo) (ref : str) : outcome CommitInfo :=
  and_then (commit repo ref) (fun c => Return (commit_info c)).

Record ComparisonInfo := mkComparisonInfo {
  base : option CommitInfo;      (* documented as None for uncommitted *)
  head : CommitInfo + str        (* the text "uncommitted" for the working tree *)
}.

(** [ComparisonInfo.format()] *)
Definition format_comparison (ci : ComparisonInfo) : str :=
  let head_str :=
    match head ci with
    | inr text => text
    | inl info => format_commit info 50
    end in
  match base ci with
  | None => lit "Comparing: " ++ head_str
  | Some b => lit "Comparing: " ++ format_commit b 50 ++ lit " -> " ++ head_str
  end.

Definition get_comparison_info (repo : Repo) (mode : str)
  : outcome ComparisonInfo :=
  if str_eqb mode (lit "uncommitted") then
    and_then (get_commit_info repo (lit "HEAD"))
      (fun head_info =>
         Return (mkComparisonInfo (Some head_info) (inr (lit "uncommitted"))))
  else if str_eqb mode (lit "since-last") then
    and_then (get_commit_info repo (lit "HEAD~1"))
      (fun base_info =>
         and_then (get_commit_info repo (lit "HEAD"))
           (fun head_info =>
              Return (mkComparisonInfo (Some base_info) (inl head_info))))
  else
    and_then (get_merge_base repo (lit "main"))
      (fun base_ref =>
         and_then (get_commit_info repo base_ref)
           (fun base_info =>
              and_then (get_commit_info repo (lit "HEAD"))
                (fun head_info =>
                   Return (mkComparisonInfo (Some base_info) (inl head_info))))).

End diff.

(* ================================================================== *)
(** ** tree.py                                                         *)
(* ================================================================== *)

Module tree.

#[warnings="-register-all"]
Inductive TreeNode := mkTreeNode {
  name : str;
  is_file : bool;
  insertions : Z;
  deletions : Z;
  loc : option Z;
  children : dict TreeNode
}.

Definition set_children (node : TreeNode) (ch : dict TreeNode) : TreeNode :=
  mkTreeNode (name node) (is_file node) (insertions node) (deletions node)
             (loc node) ch.

(** The inner loop of [build_tree] (lines 32-43) from [node] on, over the
    parts that are left; the part is the last one when none follows it.
    The child is created when the part is not a key of [node.children],
    and the walk goes on in [node.children[part]]. *)
Fixpoint add_change (change : diff.FileChange) (parts : list str)
                    (node : TreeNode) : TreeNode :=
  match parts with
  | [] => node
  | part :: rest =>
      let is_file := match rest with [] => true | _ :: _ => false end in
      let child :=
        match dict_get part (children node) with
        | Some existing => existing
        | None =>
            mkTreeNode part is_file
              (if is_file then diff.insertions change else 0%Z)
              (if is_file then diff.deletions change else 0%Z)
              (if is_file then diff.loc change else None)
              []
        end in
      set_children node
        (dict_set part (add_change change rest child) (children node))
  end.

Definition SLASH : str := lit "/".

(** The body of the outer loop of [build_tree] (lines 28-43): one record
    is added to the tree. *)
Definition build_step (root : TreeNode) (change : diff.FileChange) : TreeNode :=
  add_change change (split (diff.path change) SLASH) root.

Definition build_tree (changes : list diff.FileChange) : TreeNode :=
  fold_left build_step changes (mkTreeNode (lit ".") false 0%Z 0%Z None []).

Definition format_stats_aligned (loc : option Z) (ins dels : Z)
    (loc_width ins_width dels_width : Z) (use_color : bool) : str :=
  let loc_str := match loc with Some n => str_of_int n | None => lit "-" end in
  let loc_padded := rjust loc_str loc_width in
  let ins_padded := rjust (str_of_int ins) ins_width in
  let dels_padded := rjust (str_of_int dels) dels_width in
  if use_color then
    let green := ESC :: lit "[32m" in
    let red := ESC :: lit "[31m" in
    let reset := ESC :: lit "[0m" in
    loc_padded ++ lit "  " ++ green ++ lit "+" ++ ins_padded ++ reset
      ++ lit " " ++ red ++ lit "-" ++ dels_padded ++ reset
  else
    loc_padded ++ lit "  +" ++ ins_padded ++ lit " -" ++ dels_padded.

Record _TreeLine := mk_TreeLine {
  text : str;
  stats : option (option Z * Z * Z)  (* (loc, insertions, deletions), None for dirs *)
}.

(** [key(a) < key(b)] for the key [(n.is_file, n.name)]. *)
Definition key_lt (a b : TreeNode) : bool :=
  match is_file a, is_file b with
  | false, true => true
  | true, false => false
  | _, _ => str_ltb (name a) (name b)
  end.

Definition CORNER : str := [9492; 9472; 9472; 32]%N.  (* U+2514 U+2500 U+2500, space *)
Definition BRANCH : str := [9500; 9472; 9472; 32]%N.  (* U+251C U+2500 U+2500, space *)
Definition VBAR : str := [9474; 32; 32; 32]%N.        (* U+2502, three spaces *)

(** The body of the loop of [_collect_lines] (lines 89-100) for the child
    at index [i] of [n] sorted children; [sub] gives the lines of the
    child's own subtree for a prefix. *)
Definition child_lines (sub : TreeNode -> str -> list _TreeLine)
    (prefix : str) (n : Z) (entry : Z * TreeNode) : list _TreeLine :=
  let '(i, child) := entry in
  let is_last := (i =? n - 1)%Z in
  let connector := if is_last then CORNER else BRANCH in
  if is_file child then
    [mk_TreeLine (prefix ++ connector ++ name child)
                 (Some (loc child, insertions child, deletions child))]
  else
    let extension := if is_last then lit "    " else VBAR in
    mk_TreeLine (prefix ++ connector ++ name child ++ lit "/") None
      :: sub child (prefix ++ extension).

(** [_collect_lines]. The recursion is on the children of the node, so
    each child is paired with the lines function of its subtree before the
    children are sorted. [_collect_lines_eq] below is the equation in the
    shape of the source. *)
Fixpoint _collect_lines (node : TreeNode) (prefix : str) : list _TreeLine :=
  let children :=
    sorted (fun a b => key_lt (fst a) (fst b))
      (map (fun kv => (snd kv, _collect_lines (snd kv))) (children node)) in
  flat_map
    (fun entry : Z * (TreeNode * (str -> list _TreeLine)) =>
       child_lines (fun _ => snd (snd entry)) prefix (len children)
                   (fst entry, fst (snd entry)))
    (enumerate children).

(** [max(len(line.text) for line in tree_lines if line.stats is not None)
     if any(line.stats for line in tree_lines) else 0] *)
Definition max_text_width (tree_lines : list _TreeLine) : Z :=
  match
    flat_map (fun line => match stats line with
                          | Some _ => [len (text line)]
                          | None => []
                          end) tree_lines
  with
  | [] => 0%Z
  | w :: ws => fold_left Z.max ws w
  end.

(** The body of the loop of lines 134-140, on the three widths
    [(max_loc_width, max_ins_width, max_dels_width)]. *)
Definition widths_step (w : Z * Z * Z) (line : _TreeLine) : Z * Z * Z :=
  let '(max_loc_width, max_ins_width, max_dels_width) := w in
  match stats line with
  | Some (loc, ins, dels) =>
      let loc_str :=
        match loc with Some n => str_of_int n | None => lit "-" end in
      (Z.max max_loc_width (len loc_str),
       Z.max max_ins_width (len (str_of_int ins)),
       Z.max max_dels_width (len (str_of_int dels)))
  | None => w
  end.

(** Lines 130-140: the widths of the three columns. *)
Definition column_widths (tree_lines : list _TreeLine) : Z * Z * Z :=
  fold_left widths_step tree_lines (1%Z, 1%Z, 1%Z).

(** [render_tree]; [prefix] is not used (the source keeps it for its
    callers). *)
Definition render_tree (node : TreeNode) (prefix : str) (use_color : bool)
  : list str :=
  let tree_lines := _collect_lines node [] in
  match tree_lines with
  | [] => []
  | _ =>
      let max_text_width := max_text_width tree_lines in
      let '(max_loc_width, max_ins_width, max_dels_width) :=
        column_widths tree_lines in
      map (fun line =>
             match stats line with
             | None => text line
             | Some (loc, ins, dels) =>
                 let text_padding := spaces (max_text_width - len (text line)) in
                 let stats :=
                   format_stats_aligned loc ins dels max_loc_width
                     max_ins_width max_dels_width use_color in
                 text line ++ text_padding ++ lit "  " ++ stats
             end)
          tree_lines
  end.

End tree.

(* ================================================================== *)
(** ** output.py                                                       *)
(* ================================================================== *)

Module output.

Definition format_stats_aligned (loc : option Z) (ins dels : Z)
    (loc_width ins_width dels_width : Z) (use_color : bool) : str :=
  let loc_str := match loc with Some n => str_of_int n | None => lit "-" end in
  let loc_padded := rjust loc_str loc_width in
  let ins_padded := rjust (str_of_int ins) ins_width in
  let dels_padded := rjust (str_of_int dels) dels_width in
  if use_color then
    let green := ESC :: lit "[32m" in
    let red := ESC :: lit "[31m" in
    let reset := ESC :: lit "[0m" in
    loc_padded ++ lit "  " ++ green ++ lit "+" ++ ins_padded ++ reset
      ++ lit " " ++ red ++ lit "-" ++ dels_padded ++ reset
  else
    loc_padded ++ lit "  +" ++ ins_padded ++ lit " -" ++ dels_padded.

(** The body of the loop of lines 55-59 of [to_flat], on the three widths
    [(max_loc_width, max_ins_width, max_dels_width)]. *)
Definition widths_step (w : Z * Z * Z) (c : diff.FileChange) : Z * Z * Z :=
  let '(max_loc_width, max_ins_width, max_dels_width) := w in
  let loc_str :=
    match diff.loc c with Some n => str_of_int n | None => lit "-" end in
  (Z.max max_loc_width (len loc_str),
   Z.max max_ins_width (len (str_of_int (diff.insertions c))),
   Z.max max_dels_width (len (str_of_int (diff.deletions c)))).

(** Lines 51-59 of [to_flat]: the widths of the three columns. *)
Definition column_widths (changes : list diff.FileChange) : Z * Z * Z :=
  fold_left widths_step changes (1%Z, 1%Z, 1%Z).

Definition to_flat (changes : list diff.FileChange) (use_color : bool)
  : list str :=
  match changes with
  | [] => []
  | c0 :: cs =>
      let max_path_len :=
        fold_left Z.max (map (fun c => len (diff.path c)) cs)
                  (len (diff.path c0)) in
      let '(max_loc_width, max_ins_width, max_dels_width) :=
        column_widths changes in
      map (fun change =>
             let path_padding :=
               spaces (max_path_len - len (diff.path change)) in
             let stats :=
               format_stats_aligned (diff.loc change) (diff.insertions change)
                 (diff.deletions change) max_loc_width max_ins_width
                 max_dels_width use_color in
             diff.path change ++ path_padding ++ lit "  " ++ stats)
          changes
  end.

(** The values of a JSON-serializable document; [VNone] is what
    [json.dumps] writes as [null]. *)
#[warnings="-register-all"]
Inductive value :=
| VNone
| VInt (z : Z)
| VStr (s : str)
| VList (l : list value)
| VDict (d : dict value).

Definition value_of_loc (loc : option Z) : value :=
  match loc with
  | Some n => VInt n
  | None => VNone
  end.

Definition file_entry (c : diff.FileChange) : value :=
  VDict [(lit "path", VStr (diff.path c));
         (lit "loc", value_of_loc (diff.loc c));
         (lit "insertions", VInt (diff.insertions c));
         (lit "deletions", VInt (diff.deletions c))].

Definition to_json (changes : list diff.FileChange) (mode : str)
                   (base_ref : option str) : dict value :=
  let total_ins := sum (map diff.insertions changes) in
  let total_dels := sum (map diff.deletions changes) in
  let result :=
    [(lit "mode", VStr mode);
     (lit "files", VList (map file_entry changes));
     (lit "summary",
      VDict [(lit "total_insertions", VInt total_ins);
             (lit "total_deletions", VInt total_dels);
             (lit "net", VInt (total_ins - total_dels));
             (lit "file_count", VInt (len changes))])] in
  match base_ref with
  | Some (c :: b) => dict_set (lit "base") (VStr (c :: b)) result
  | Some [] | None => result  (* [if base_ref:] fails on both *)
  end.

End output.

(* ================================================================== *)
(** ** cli.py                                                          *)
(* ================================================================== *)

Module cli.

(** Lines 55-60 of [main]: the mode, from the two flags. *)
Definition determine_mode (since_last uncommitted : bool) : str :=
  let mode := lit "default" in
  if since_last then lit "since-last"
  else if uncommitted then lit "uncommitted"
  else mode.

(** Line 93 of [main]: [NO_COLOR] is the value of the environment
    variable, [None] when it is not set. *)
Definition use_color (no_color as_json : bool) (NO_COLOR : option str) : bool :=
  negb no_color && negb as_json
  && match NO_COLOR with None => true | Some _ => false end.

(** Lines 21-26: the values that [click.Choice] accepts for [--sort]
    (the comparison is that of the texts, letter case included). *)
Definition sort_choices : list str := [lit "name"; lit "changes"; lit "path"].

(** The options of the command line as click reads them, before it
    checks them: a flag is true when it is given, [sort] is the text given
    to [--sort], ["name"] when the option is not given. *)
Record Flags := mkFlags {
  since_last : bool;
  uncommitted : bool;
  flat : bool;
  as_json : bool;
  sort : str;
  no_color : bool
}.

(** What [main] finds around it: [find_repo] is
    [Repo(os.getcwd(), search_parent_directories=True)], [None] when it
    raises [InvalidGitRepositoryError]; [has_commits] is false when
    [repo.head.commit] raises [ValueError]; [NO_COLOR] is
    [os.environ.get("NO_COLOR")]. *)
Record Env := mkEnv {
  find_repo : option diff.Repo;
  has_commits : bool;
  NO_COLOR : option str
}.

(** What a run leaves: the texts given to [click.echo], on the standard
    output and on the standard error, and the exit code. *)
Record Run := mkRun {
  stdout : list str;
  stderr : list str;
  exit_code : Z
}.

Section Main.

(** Four functions of the libraries are taken as they are:
    [lower] is [str.lower], [dumps] is [json.dumps(..., indent=2)],
    [exn_text] is [str(e)] for an exception of a built-in, and
    [usage_error] gives the lines that click writes on the standard error
    when it refuses a value of [--sort] (its usage text and the message
    for the value). *)
Variable lower : str -> str.
Variable dumps : dict output.value -> str.
Variable exn_text : exn -> str.
Variable usage_error : str -> list str.

(** [c.path.split("/")[-1].lower()] *)
Definition name_key (c : diff.FileChange) : str :=
  lower (last (split (diff.path c) (lit "/")) []).

(** Lines 84-90 of [main]: [changes.sort(key=...)], a stable sort. *)
Definition sort_changes (sort : str) (changes : list diff.FileChange)
  : list diff.FileChange :=
  if str_eqb sort (lit "changes") then
    sorted (fun a b => (- diff.total a <? - diff.total b)%Z) changes
  else if str_eqb sort (lit "path") then
    sorted (fun a b => str_ltb (diff.path a) (diff.path b)) changes
  else
    sorted (fun a b => str_ltb (name_key a) (name_key b)) changes.

(** Lines 116-124: the summary. *)
Definition summary_lines (changes : list diff.FileChange) : list str :=
  let total_ins := sum (map diff.insertions changes) in
  let total_dels := sum (map diff.deletions changes) in
  let net := (total_ins - total_dels)%Z in
  let sign := if (0 <=? net)%Z then lit "+" else [] in
  [ [];
    lit "Total: +" ++ str_of_int total_ins ++ lit " -" ++ str_of_int total_dels
      ++ lit " (net: " ++ sign ++ str_of_int net ++ lit ")";
    lit "Files: " ++ str_of_int (len changes) ].

(** Lines 126-135: the comparison, when there is one. *)
Definition compare_lines (comparison : option diff.ComparisonInfo) : list str :=
  match comparison with
  | None => []
  | Some ci =>
      [ []; lit "Compare:" ]
      ++ match diff.base ci with
         | Some b => [lit "    " ++ diff.format_commit b 50]
         | None => []
         end
      ++ match diff.head ci with
         | inr text => [lit "    " ++ text]
         | inl info => [lit "    " ++ diff.format_commit info 50]
         end
  end.

(** The message of lines 69-75 for a [GitCommandError]. *)
Definition git_error_lines (text err : str) : list str :=
  if contains (lit "HEAD~1") text || contains (lit "unknown revision") (lower text)
  then [lit "Error: Not enough commits for --since-last comparison.";
        lit "Tip: Repository needs at least 2 commits."]
  else [lit "Git error: "
          ++ match err with
             | _ :: _ => strip err
             | [] => text
             end].

(** The command [main]. Lines 16-27: click checks the value of [--sort]
    against the choice before it calls the function, and a value it
    refuses ends the run with the usage error and the exit code 2. Lines
    40-135 follow. *)
Definition main (env : Env) (flags : Flags) : Run :=
  if negb (existsb (str_eqb (sort flags)) sort_choices) then
    mkRun [] (usage_error (sort flags)) 2
  else
  match find_repo env with
  | None =>
      mkRun []
        [lit "Error: Not a git repository";
         lit "Run this command from within a git repository."] 1
  | Some repo =>
      if negb (has_commits env) then
        mkRun [] [lit "Error: Repository has no commits yet."] 1
      else
        let mode := determine_mode (since_last flags) (uncommitted flags) in
        match diff.get_changes repo mode with
        | diff.Fail (diff.MergeBaseNotFoundError _) =>
            mkRun []
              [lit "Error: Could not find merge base with main branch.";
               lit "Tip: Make sure 'main' or 'master' branch exists, or use --uncommitted."]
              1
        | diff.Fail (diff.GitCommandError text err) =>
            mkRun [] (git_error_lines text err) 1
        | diff.Fail (diff.BuiltinError e) =>
            mkRun [] [lit "Error: " ++ exn_text e] 1
        | diff.Return [] => mkRun [lit "No changes found."] [] 0
        | diff.Return changes =>
            let changes := sort_changes (sort flags) changes in
            let use_color :=
              use_color (no_color flags) (as_json flags) (NO_COLOR env) in
            let comparison :=
              match diff.get_comparison_info repo mode with
              | diff.Return ci => Some ci
              | diff.Fail _ => None
              end in
            if as_json flags then
              let base_ref := diff.get_base_ref repo mode in
              mkRun [dumps (output.to_json changes mode base_ref)] [] 0
            else
              mkRun
                ((if flat flags then output.to_flat changes use_color
                  else tree.render_tree (tree.build_tree changes) [] use_color)
                   ++ summary_lines changes
                   ++ compare_lines comparison)
                [] 0
        end
  end.

End Main.

End cli.

(* ================================================================== *)
(** ** Vocabulary of the properties                                    *)
(* ================================================================== *)

(** These definitions are not code of the repository: they name what the
    properties below speak of. *)

(** The text has a brace, ["{"] or ["}"]. *)
Definition has_brace (s : str) : bool :=
  existsb (fun c => (c =? 123) || (c =? 125))%N s.

(** What a count field of a numstat line stands for: [0] for the binary
    marker, and for a numeral the integer [int()] reads. *)
Definition count_of (field : str) (z : Z) : Prop :=
  (field = lit "-" /\ z = 0%Z) \/ (field <> lit "-" /\ int field = Some z).

(** [a] comes before [b] in the order of the names, or has the same name:
    not [b.name < a.name], for the order of the code points (upper case
    before lower case). *)
Definition name_le (a b : tree.TreeNode) : Prop :=
  str_ltb (tree.name b) (tree.name a) = false.

(** The lines of the tree renderer for children taken in the order [kids]:
    each child has its own line, with the corner connector when no sibling
    follows it and the branch connector otherwise; the line of a directory
    ends with a slash and is followed by the lines of its subtree. *)
Fixpoint sibling_lines (prefix : str) (kids : list tree.TreeNode)
  : list tree._TreeLine :=
  match kids with
  | [] => []
  | child :: rest =>
      let last := match rest with [] => true | _ :: _ => false end in
      let connector := if last then tree.CORNER else tree.BRANCH in
      (if tree.is_file child then
         [tree.mk_TreeLine (prefix ++ connector ++ tree.name child)
            (Some (tree.loc child, tree.insertions child, tree.deletions child))]
       else
         tree.mk_TreeLine (prefix ++ connector ++ tree.name child ++ lit "/") None
           :: tree._collect_lines child
                (prefix ++ (if last then lit "    " else tree.VBAR)))
      ++ sibling_lines prefix rest
  end.

(** The integer of the field [k] of a JSON object ([0] when there is no
    such integer). *)
Definition int_field (k : str) (v : output.value) : Z :=
  match v with
  | output.VDict d =>
      match dict_get k d with
      | Some (output.VInt z) => z
      | _ => 0%Z
      end
  | _ => 0%Z
  end.

(** The field [k] of a JSON object. *)
Definition field (k : str) (v : output.value) : option output.value :=
  match v with
  | output.VDict d => dict_get k d
  | _ => None
  end.

(** Taking the colour escape sequences out of a text: a sequence is the
    escape character, ["["], parameters of digits and [";"], and ["m"].
    [sgr_follows] tells that a complete sequence follows an escape
    character; [inside] tells that the text is in a sequence, which ends
    with its ["m"]. *)
Fixpoint sgr_params (s : str) : bool :=
  match s with
  | [] => false
  | c :: s' =>
      if (c =? 109)%N then true
      else if is_digit c || (c =? 59)%N then sgr_params s'
      else false
  end.

Definition sgr_follows (s : str) : bool :=
  match s with
  | c :: s' => (c =? 91)%N && sgr_params s'
  | [] => false
  end.

Fixpoint strip_ansi_from (inside : bool) (s : str) : str :=
  match s with
  | [] => []
  | c :: s' =>
      if inside then strip_ansi_from (negb (c =? 109)%N) s'
      else if (c =? ESC)%N && sgr_follows s' then strip_ansi_from true s'
      else c :: strip_ansi_from false s'
  end.

Definition strip_ansi (s : str) : str := strip_ansi_from false s.

(** The text has no escape character. *)
Definition no_esc (s : str) : Prop :=
  Forall (fun c => (c =? ESC)%N = false) s.

(** [str(loc) if loc is not None else "-"] *)
Definition loc_str (loc : option Z) : str :=
  match loc with
  | Some n => str_of_int n
  | None => lit "-"
  end.

(** The rows of a rendering: the stats of the lines that have stats. *)
Definition stat_rows (tree_lines : list tree._TreeLine)
  : list (option Z * Z * Z) :=
  flat_map (fun line => match tree.stats line with
                        | Some row => [row]
                        | None => []
                        end) tree_lines.

(** [w] is the maximum of the lengths [lens] with the floor [floor]: it is
    not below the floor nor below any of the lengths, and it is the floor
    or one of the lengths. *)
Definition max_with_floor (floor w : Z) (lens : list Z) : Prop :=
  (floor <= w)%Z /\ Forall (fun x => (x <= w)%Z) lens /\ (w = floor \/ In w lens).

(** The row of a record in the flat rendering. *)
Definition change_row (c : diff.FileChange) : option Z * Z * Z :=
  (diff.loc c, diff.insertions c, diff.deletions c).

(** The lengths of the three texts of a row. *)
Definition loc_len (row : option Z * Z * Z) : Z := len (loc_str (fst (fst row))).
Definition ins_len (row : option Z * Z * Z) : Z := len (str_of_int (snd (fst row))).
Definition dels_len (row : option Z * Z * Z) : Z := len (str_of_int (snd row)).

(** The widths [w] are those of the rows: each is the maximum of the
    lengths of its column, with the floor 1. *)
Definition widths_of_rows (w : Z * Z * Z) (rows : list (option Z * Z * Z))
  : Prop :=
  max_with_floor 1 (fst (fst w)) (map loc_len rows) /\
  max_with_floor 1 (snd (fst w)) (map ins_len rows) /\
  max_with_floor 1 (snd w) (map dels_len rows).

(** The node of a path in a tree: [node.children[p1]. ... .children[pn]]
    for the parts [p1 ... pn] of the path, when these keys are there. *)
Fixpoint find_node (parts : list str) (node : tree.TreeNode)
  : option tree.TreeNode :=
  match parts with
  | [] => Some node
  | part :: rest =>
      match dict_get part (tree.children node) with
      | Some child => find_node rest child
      | None => None
      end
  end.

(** The parts [a] are the first parts of [b] (or all of them). *)
Fixpoint is_prefix (a b : list str) : bool :=
  match a, b with
  | [], _ => true
  | x :: a', y :: b' => str_eqb x y && is_prefix a' b'
  | _ :: _, [] => false
  end.

(** The node [n] is a file node with the stats of the record [c]. *)
Definition file_node_of (c : diff.FileChange) (n : tree.TreeNode) : Prop :=
  tree.is_file n = true /\
  tree.insertions n = diff.insertions c /\
  tree.deletions n = diff.deletions c /\
  tree.loc n = diff.loc c.

(** Two nodes with the same fields, their children apart. *)
Definition same_stats (a b : tree.TreeNode) : Prop :=
  tree.name a = tree.name b /\
  tree.is_file a = tree.is_file b /\
  tree.insertions a = tree.insertions b /\
  tree.deletions a = tree.deletions b /\
  tree.loc a = tree.loc b.

(** A line of the numstat output with three tab-separated fields or
    more. *)
Definition has_three_fields (line : str) : bool :=
  (3 <=? len (split line [TAB]))%Z.

(** A count field that is neither the marker ["-"] nor a numeral. *)
Definition bad_count (field : str) : bool :=
  negb (str_eqb field (lit "-"))
  && match int field with Some _ => false | None => true end.

(** A line with three fields or more, one of whose counts is bad. *)
Definition bad_line (line : str) : bool :=
  match split line [TAB] with
  | f0 :: f1 :: _ :: _ => bad_count f0 || bad_count f1
  | _ => false
  end.

(** A count field as git writes them: ASCII characters only, and 640 at
    most. On such a field [int] above is [int()] of the interpreter: the
    digits of other scripts do not occur, and no setting of the bound on
    the digits of a conversion is under 640. *)
Definition ascii_count (field : str) : bool :=
  forallb (fun c => (c <? 128)%N) field && (len field <=? 640)%Z.

(** A line whose two count fields, if it has three fields or more, are
    such fields. *)
Definition ascii_counts (line : str) : bool :=
  match split line [TAB] with
  | f0 :: f1 :: _ :: _ => ascii_count f0 && ascii_count f1
  | _ => true
  end.

(** A tree in which, at every node, the keys of the children are
    distinct, every child has its key as its name, and a node that is
    not a file has no stats. *)
Fixpoint well_formed (n : tree.TreeNode) : Prop :=
  (tree.is_file n = false ->
   tree.insertions n = 0%Z /\ tree.deletions n = 0%Z /\ tree.loc n = None)
  /\ NoDup (map fst (tree.children n))
  /\ (fix all (d : dict tree.TreeNode) : Prop :=
        match d with
        | [] => True
        | kv :: d' =>
            (tree.name (snd kv) = fst kv /\ well_formed (snd kv)) /\ all d'
        end) (tree.children n).

(** No name of a node below [n] has an escape character. *)
Fixpoint names_no_esc (n : tree.TreeNode) : Prop :=
  (fix all (d : dict tree.TreeNode) : Prop :=
     match d with
     | [] => True
     | kv :: d' =>
         (no_esc (tree.name (snd kv)) /\ names_no_esc (snd kv)) /\ all d'
     end) (tree.children n).

(** The length of the uncoloured token of [format_stats_aligned] for a
    row and three widths: no field is cut, a field wider than its column
    keeps its length. *)
Definition token_len (row : option Z * Z * Z) (w : Z * Z * Z) : Z :=
  (Z.max (fst (fst w)) (loc_len row) + 3
   + Z.max (snd (fst w)) (ins_len row) + 2
   + Z.max (snd w) (dels_len row))%Z.

(** The width of the paths in [to_flat]:
    [max(len(c.path) for c in changes)], and 0 when there is no record. *)
Definition max_path_len (changes : list diff.FileChange) : Z :=
  match changes with
  | [] => 0%Z
  | c0 :: cs =>
      fold_left Z.max (map (fun c => len (diff.path c)) cs) (len (diff.path c0))
  end.

(** The row of a node: its stats, as [_collect_lines] takes them. *)
Definition node_row (n : tree.TreeNode) : option Z * Z * Z :=
  (tree.loc n, tree.insertions n, tree.deletions n).

(** The rows of the files a tree shows: the rows of the file children of
    a node and, for the children that are directories, the rows of the
    files they show (what stands under a file node is not shown). *)
Fixpoint file_rows (n : tree.TreeNode) : list (option Z * Z * Z) :=
  (fix go (d : dict tree.TreeNode) : list (option Z * Z * Z) :=
     match d with
     | [] => []
     | kv :: d' =>
         (if tree.is_file (snd kv) then [node_row (snd kv)]
          else file_rows (snd kv)) ++ go d'
     end) (tree.children n).

(** The paths of two records stand apart: neither is the other, nor a
    directory on the way to the other. *)
Definition apart (a b : diff.FileChange) : Prop :=
  is_prefix (split (diff.path a) tree.SLASH) (split (diff.path b) tree.SLASH)
  = false
  /\ is_prefix (split (diff.path b) tree.SLASH) (split (diff.path a) tree.SLASH)
     = false.

(** The parts can be added under the node as a new file: the nodes that
    are there on the way are directories, and the last one is not
    there. *)
Fixpoint addable (parts : list str) (node : tree.TreeNode) : Prop :=
  match parts with
  | [] => False
  | part :: rest =>
      match dict_get part (tree.children node) with
      | None => True
      | Some child =>
          match rest with
          | [] => False
          | _ :: _ => tree.is_file child = false /\ addable rest child
          end
      end
  end.

(* ================================================================== *)
(** ** Facts about strings                                             *)
(* ================================================================== *)

Lemma str_eqb_eq (a b : str) : str_eqb a b = true <-> a = b.
Proof.
  revert b; induction a as [|x a IH]; intros [|y b]; simpl;
    try (split; [discriminate | discriminate]); try tauto.
  rewrite andb_true_iff, N.eqb_eq, IH. split.
  - intros [-> ->]; reflexivity.
  - intros H; inversion H; auto.
Qed.

Lemma str_eqb_refl (a : str) : str_eqb a a = true.
Proof. apply str_eqb_eq; reflexivity. Qed.

Lemma str_eqb_neq (a b : str) : str_eqb a b = false <-> a <> b.
Proof.
  rewrite <- str_eqb_eq. destruct (str_eqb a b); split; congruence.
Qed.



Lemma startswith_refl_app (p s : str) : startswith (p ++ s) p = true.
Proof.
  induction p as [|x p IH]; simpl; [reflexivity|].
  rewrite N.eqb_refl; exact IH.
Qed.

Lemma startswith_app_false (x y p : str) :
  startswith x p = false -> length p <= length x ->
  startswith (x ++ y) p = false.
Proof.
  revert p; induction x as [|c x IH]; intros [|q p]; simpl; intros H L;
    try discriminate; try lia.
  destruct (N.eqb q c); simpl in *; [|reflexivity].
  apply IH; [exact H | lia].
Qed.

Lemma split_from_nonempty (sep : str) (skip : nat) (s : str) :
  split_from sep skip s <> [].
Proof.
  revert skip; induction s as [|c s IH]; intros skip; simpl; [discriminate|].
  destruct skip as [|k]; [|apply IH].
  destruct (startswith (c :: s) sep); [discriminate|].
  specialize (IH 0). destruct (split_from sep 0 s); [congruence|discriminate].
Qed.

Lemma split_from_skip (sep x r : str) :
  split_from sep (length x) (x ++ r) = split_from sep 0 r.
Proof.
  induction x as [|c x IH]; simpl; [reflexivity | exact IH].
Qed.

(** A text without the separator is a single field. *)
Lemma split_none (sep s : str) :
  contains sep s = false -> split s sep = [s].
Proof.
  unfold split. induction s as [|c s IH]; simpl; intros H; [reflexivity|].
  apply orb_false_iff in H as [H1 H2].
  simpl in H1. rewrite H1, (IH H2). reflexivity.
Qed.

(** The text is cut at the first occurrence of the separator. *)
Lemma split_first (sep l r : str) :
  sep <> [] ->
  contains sep (l ++ removelast sep) = false ->
  split (l ++ sep ++ r) sep = l :: split r sep.
Proof.
  unfold split. intros Hsep. induction l as [|c l IH]; intros H.
  - destruct sep as [|q sep]; [congruence|].
    change (([] ++ (q :: sep) ++ r)) with (q :: (sep ++ r)).
    cbn [split_from].
    pose proof (startswith_refl_app (q :: sep) r) as E.
    change ((q :: sep) ++ r) with (q :: sep ++ r) in E. rewrite E.
    replace (length (q :: sep) - 1) with (length sep) by (simpl; lia).
    rewrite split_from_skip. reflexivity.
  - cbn [app contains] in H. apply orb_false_iff in H as [H1 H2].
    change ((c :: l) ++ sep ++ r) with (c :: (l ++ sep ++ r)).
    cbn [split_from].
    assert (E : startswith (c :: l ++ sep ++ r) sep = false).
    { assert (A : sep = removelast sep ++ [last sep 0%N])
        by (apply app_removelast_last; exact Hsep).
      rewrite A at 1.
      replace (c :: l ++ (removelast sep ++ [last sep 0%N]) ++ r)
        with ((c :: l ++ removelast sep) ++ ([last sep 0%N] ++ r))
        by (simpl; rewrite <- !app_assoc; reflexivity).
      apply startswith_app_false; [exact H1|].
      simpl. rewrite length_app. rewrite A at 1. rewrite length_app. simpl. lia. }
    rewrite E, (IH H2). reflexivity.
Qed.

Lemma contains_app_sep (sep a b : str) : contains sep (a ++ sep ++ b) = true.
Proof.
  induction a as [|c a IH]; simpl.
  - destruct sep as [|q sep]; simpl; [destruct b; reflexivity|].
    rewrite N.eqb_refl, startswith_refl_app. reflexivity.
  - rewrite IH. apply orb_true_r.
Qed.

(** When the separator occurs, [split] gives at least two fields. *)
Lemma split_contains (sep s : str) :
  sep <> [] ->
  contains sep s = true ->
  exists a b rest, split s sep = a :: b :: rest.
Proof.
  unfold split. intros Hsep. induction s as [|c s IH]; simpl; intros H.
  - destruct sep; [congruence|discriminate].
  - destruct (startswith (c :: s) sep) eqn:E.
    + pose proof (split_from_nonempty sep (length sep - 1) s) as Hn.
      destruct (split_from sep (length sep - 1) s) as [|b rest]; [congruence|].
      exists [], b, rest; reflexivity.
    + simpl in H. destruct (IH H) as (a & b & rest & ->).
      exists (c :: a), b, rest; reflexivity.
Qed.

(** Replacing a character by nothing filters it out. *)
Lemma replace_char_nothing (b : char) (s : str) :
  replace s [b] [] = filter (fun c => negb (N.eqb b c)) s.
Proof.
  unfold replace. induction s as [|c s IH]; simpl; [reflexivity|].
  rewrite andb_true_r. destruct (N.eqb b c); simpl; rewrite IH; reflexivity.
Qed.

Lemma filter_absent (b : char) (s : str) :
  ~ In b s -> filter (fun c => negb (N.eqb b c)) s = s.
Proof.
  induction s as [|c s IH]; simpl; intros H; [reflexivity|].
  destruct (N.eqb_spec b c) as [->|Hne]; simpl; [tauto|].
  rewrite IH; tauto.
Qed.

(* ================================================================== *)
(** ** Facts about [str(z)] and [int(s)]                               *)
(* ================================================================== *)

Lemma uint_chars_digits (u : Decimal.uint) :
  Forall (fun c => is_digit c = true) (uint_chars u).
Proof. induction u; simpl; constructor; auto. Qed.

Lemma is_digit_not_space (c : char) : is_digit c = true -> int_space c = false.
Proof.
  unfold is_digit, int_space. intros H.
  apply andb_true_iff in H as [H1 H2].
  apply N.leb_le in H1. apply N.leb_le in H2.
  repeat (apply orb_false_iff; split);
    try (apply andb_false_iff; first [left; apply N.leb_gt; lia | right; apply N.leb_gt; lia]);
    try (apply N.eqb_neq; lia).
Qed.

Lemma int_lstrip_id (c : char) (s : str) :
  int_space c = false -> int_lstrip (c :: s) = c :: s.
Proof. intros H; simpl; rewrite H; reflexivity. Qed.

Lemma int_digits_digit (prev : bool) (acc : N) (c : char) (s : str) :
  is_digit c = true ->
  int_digits prev acc (c :: s) = int_digits true (10 * acc + (c - 48))%N s.
Proof. intros H. cbn [int_digits]. rewrite H. reflexivity. Qed.

Lemma int_digits_acc (u : Decimal.uint) (acc : positive) :
  int_digits true (Npos acc) (uint_chars u) = Some (Npos (Pos.of_uint_acc u acc)).
Proof.
  revert acc; induction u; intros acc; cbn [uint_chars Pos.of_uint_acc];
    [reflexivity | rewrite int_digits_digit by reflexivity;
                   rewrite <- IHu; f_equal; lia ..].
Qed.

Lemma int_digits_of_uint (u : Decimal.uint) (prev : bool) :
  prev = true \/ u <> Decimal.Nil ->
  int_digits prev 0%N (uint_chars u) = Some (Pos.of_uint u).
Proof.
  revert prev; induction u; intros prev H; cbn [uint_chars Pos.of_uint];
    try (rewrite int_digits_digit by reflexivity; apply (int_digits_acc u)).
  - destruct H as [-> | H]; [reflexivity | congruence].
  - rewrite int_digits_digit by reflexivity. apply IHu; left; reflexivity.
Qed.

Lemma int_unsigned_to_uint (p : positive) :
  int_unsigned (uint_chars (Pos.to_uint p)) = Some (Zpos p).
Proof.
  unfold int_unsigned. rewrite int_digits_of_uint.
  - rewrite DecimalPos.Unsigned.of_to. reflexivity.
  - right. apply DecimalPos.Unsigned.to_uint_nonnil.
Qed.

(** The characters of [str(z)]: digits, after one minus sign at most. *)
Lemma str_of_int_chars (z : Z) :
  Forall (fun c => is_digit c = true \/ c = 45%N) (str_of_int z).
Proof.
  unfold str_of_int. destruct (Z.to_int z) as [u|u].
  - eapply Forall_impl; [|apply uint_chars_digits]. simpl; auto.
  - constructor; [right; reflexivity|].
    eapply Forall_impl; [|apply uint_chars_digits]. simpl; auto.
Qed.

Lemma str_of_int_pos (p : positive) :
  exists c s, str_of_int (Zpos p) = c :: s /\ is_digit c = true
              /\ uint_chars (Pos.to_uint p) = c :: s.
Proof.
  unfold str_of_int; simpl.
  pose proof (uint_chars_digits (Pos.to_uint p)) as D.
  pose proof (DecimalPos.Unsigned.to_uint_nonnil p) as NN.
  destruct (Pos.to_uint p) eqn:E; try congruence; simpl in *;
    inversion D; subst; eauto.
Qed.

Lemma int_lstrip_digits_rev (pre s : str) :
  s <> [] -> Forall (fun c => is_digit c = true) s ->
  rev (int_lstrip (rev (pre ++ s))) = pre ++ s.
Proof.
  intros Hne D. rewrite <- (rev_involutive (pre ++ s)) at 2. f_equal.
  rewrite rev_app_distr.
  destruct (rev s) as [|c r] eqn:E.
  - apply (f_equal (@rev _)) in E. rewrite rev_involutive in E.
    simpl in E; congruence.
  - assert (Hc : is_digit c = true).
    { apply Forall_rev in D. rewrite E in D. inversion D; auto. }
    apply int_lstrip_id, is_digit_not_space, Hc.
Qed.

(** [int(str(z)) == z] *)
Lemma int_str_of_int (z : Z) : int (str_of_int z) = Some z.
Proof.
  destruct z as [|p|p].
  - reflexivity.
  - destruct (str_of_int_pos p) as (c & s & E & Hc & Eu).
    assert (B : rev (int_lstrip (rev (int_lstrip (str_of_int (Zpos p))))) = c :: s).
    { rewrite E, int_lstrip_id by (apply is_digit_not_space; exact Hc).
      pose proof (int_lstrip_digits_rev [] (c :: s)) as R.
      cbn [app] in R. apply R; [discriminate|].
      rewrite <- Eu. apply uint_chars_digits. }
    unfold int. cbv zeta. rewrite B.
    assert (A : (c =? 45)%N = false /\ (c =? 43)%N = false).
    { unfold is_digit in Hc. apply andb_true_iff in Hc as [H1 H2].
      apply N.leb_le in H1. split; apply N.eqb_neq; lia. }
    destruct A as [-> ->]. rewrite <- Eu. apply int_unsigned_to_uint.
  - destruct (str_of_int_pos p) as (c & s & _ & Hc & Eu).
    assert (B : rev (int_lstrip (rev (int_lstrip (str_of_int (Zneg p)))))
                = 45%N :: uint_chars (Pos.to_uint p)).
    { change (str_of_int (Zneg p)) with (45%N :: uint_chars (Pos.to_uint p)).
      rewrite int_lstrip_id by reflexivity.
      apply (int_lstrip_digits_rev [45%N] (uint_chars (Pos.to_uint p)));
        [rewrite Eu; discriminate | apply uint_chars_digits]. }
    unfold int. cbv zeta. rewrite B.
    rewrite N.eqb_refl, int_unsigned_to_uint. reflexivity.
Qed.

Lemma str_of_int_not_minus (z : Z) : str_of_int z <> lit "-".
Proof.
  destruct z as [|p|p]; try discriminate.
  - destruct (str_of_int_pos p) as (c & s & E & Hc & _). rewrite E.
    intros H; inversion H; subst. discriminate.
  - change (str_of_int (Zneg p)) with (45%N :: uint_chars (Pos.to_uint p)).
    pose proof (DecimalPos.Unsigned.to_uint_nonnil p).
    destruct (Pos.to_uint p); try congruence; discriminate.
Qed.

(* ================================================================== *)
(** ** Facts about [parse_numstat]                                     *)
(* ================================================================== *)

Section ParseNumstat.
Import diff.

Lemma parse_numstat_loop_acc (lines : list str) (acc : list FileChange) :
  parse_numstat_loop lines acc
  = (new <- parse_numstat_loop lines [] ;; Ok (acc ++ new)).
Proof.
  revert acc; induction lines as [|line rest IH]; intros acc; simpl.
  - rewrite app_nil_r; reflexivity.
  - destruct (parse_numstat_line line) as [new|e]; simpl; [|reflexivity].
    rewrite (IH (acc ++ new)), (IH new).
    destruct (parse_numstat_loop rest []); simpl; [|reflexivity].
    rewrite app_assoc; reflexivity.
Qed.

Lemma parse_numstat_loop_app (pre post : list str) :
  parse_numstat_loop (pre ++ post) []
  = (a <- parse_numstat_loop pre [] ;;
     b <- parse_numstat_loop post [] ;; Ok (a ++ b)).
Proof.
  induction pre as [|line pre IH]; simpl.
  - destruct (parse_numstat_loop post []); reflexivity.
  - destruct (parse_numstat_line line) as [new|e]; simpl; [|reflexivity].
    rewrite (parse_numstat_loop_acc (pre ++ post) new),
            (parse_numstat_loop_acc pre new), IH.
    destruct (parse_numstat_loop pre []); simpl; [|reflexivity].
    destruct (parse_numstat_loop post []); simpl; [|reflexivity].
    rewrite app_assoc; reflexivity.
Qed.

(** The early return of line 63 agrees with the loop: the lines of an
    output are those of the stripped output, always. *)
Lemma parse_numstat_lines (output : str) :
  parse_numstat output = parse_numstat_loop (split (strip output) [NL]) [].
Proof.
  unfold parse_numstat. destruct output as [|c o]; [reflexivity|].
  destruct (strip (c :: o)); reflexivity.
Qed.

Lemma parse_numstat_at (output : str) (pre post : list str) (line : str)
    (before new after : list FileChange) :
  split (strip output) [NL] = pre ++ line :: post ->
  parse_numstat_loop pre [] = Ok before ->
  parse_numstat_line line = Ok new ->
  parse_numstat_loop post [] = Ok after ->
  parse_numstat output = Ok (before ++ new ++ after).
Proof.
  intros Hl Hpre Hline Hpost.
  rewrite parse_numstat_lines, Hl, parse_numstat_loop_app, Hpre. simpl.
  rewrite Hline. simpl. rewrite parse_numstat_loop_acc, Hpost. reflexivity.
Qed.

Lemma parse_numstat_line_short (line : str) :
  (len (split line [TAB]) < 3)%Z -> parse_numstat_line line = Ok [].
Proof.
  intros H. unfold parse_numstat_line. destruct line; [reflexivity|].
  destruct (Z.leb_spec 3 (len (split (c :: line) [TAB]))); [lia|reflexivity].
Qed.

Lemma parse_numstat_line_fields (line f0 f1 f2 : str) (rest : list str) :
  split line [TAB] = f0 :: f1 :: f2 :: rest ->
  parse_numstat_line line
  = (ins <- stat_field f0 ;; dels <- stat_field f1 ;;
     p <- rename_path f2 ;; Ok [mkFileChange p ins dels None]).
Proof.
  intros H. unfold parse_numstat_line. destruct line as [|c line].
  - discriminate.
  - rewrite H. unfold len. simpl length.
    destruct (Z.leb_spec 3 (Z.of_nat (S (S (S (length rest)))))); [reflexivity|lia].
Qed.

Lemma ARROW_nonempty : ARROW <> [].
Proof. discriminate. Qed.

(** The index [[1]] of line 80 is always in range. *)
Lemma rename_path_total (p : str) : exists q, rename_path p = Ok q.
Proof.
  unfold rename_path. destruct (contains ARROW p); [|eauto].
  destruct (contains ARROW _) eqn:E; [|eauto].
  destruct (split_contains _ _ ARROW_nonempty E) as (a & b & rest & ->). eauto.
Qed.

Lemma strip_braces_id (s : str) :
  has_brace s = false ->
  replace (replace s (lit "{") []) (lit "}") [] = s.
Proof.
  intros H. change (lit "{") with [123%N]. change (lit "}") with [125%N].
  rewrite !replace_char_nothing.
  assert (A : forall b, (b = 123 \/ b = 125)%N -> ~ In b s).
  { intros b Hb Hin.
    assert (T : has_brace s = true); [|congruence].
    apply existsb_exists. exists b. split; [exact Hin|].
    destruct Hb as [-> | ->]; reflexivity. }
  rewrite (filter_absent 123%N s) by (apply A; left; reflexivity).
  apply filter_absent, A; right; reflexivity.
Qed.

Lemma strip_braces_app (a b : str) :
  replace (replace (a ++ b) (lit "{") []) (lit "}") []
  = replace (replace a (lit "{") []) (lit "}") []
    ++ replace (replace b (lit "{") []) (lit "}") [].
Proof.
  change (lit "{") with [123%N]. change (lit "}") with [125%N].
  rewrite !replace_char_nothing, !filter_app. reflexivity.
Qed.

Lemma has_brace_app (a b : str) :
  has_brace (a ++ b) = has_brace a || has_brace b.
Proof. apply existsb_app. Qed.

(** The rule of lines 76-80 when the stripped path has one arrow, the one
    between [l] and [r]. *)
Lemma rename_path_rule (p l r : str) :
  contains ARROW p = true ->
  replace (replace p (lit "{") []) (lit "}") [] = l ++ ARROW ++ r ->
  contains ARROW (l ++ lit " =>") = false ->
  contains ARROW r = false ->
  rename_path p = Ok r.
Proof.
  intros Hp Hs Hl Hr. unfold rename_path. rewrite Hp, Hs.
  rewrite contains_app_sep.
  rewrite (split_first ARROW l r ARROW_nonempty Hl).
  rewrite (split_none ARROW r Hr). reflexivity.
Qed.

Lemma stat_field_count_of (field : str) (z : Z) :
  count_of field z -> stat_field field = Ok z.
Proof.
  unfold stat_field. intros [[-> ->] | [Hne Hint]].
  - reflexivity.
  - apply str_eqb_neq in Hne. unfold MINUS. rewrite Hne, Hint. reflexivity.
Qed.



(** C2: a line of at least three tab-separated fields gives one record;
    its insertions and deletions are the integers of the first two fields
    where these are numerals, and 0 where a field is the marker ["-"]. The
    decimal writing of every integer is a numeral that reads back as this
    integer. *)
Theorem parse_numstat_counts :
  (forall output pre line post f0 f1 f2 rest before after ins dels,
      split (strip output) [NL] = pre ++ line :: post ->
      split line [TAB] = f0 :: f1 :: f2 :: rest ->
      parse_numstat_loop pre [] = Ok before ->
      parse_numstat_loop post [] = Ok after ->
      count_of f0 ins ->
      count_of f1 dels ->
      exists p,
        rename_path f2 = Ok p /\
        parse_numstat output
        = Ok (before ++ [mkFileChange p ins dels None] ++ after))
  /\
  (forall z, count_of (str_of_int z) z).
Proof.
  split.
  - intros output pre line post f0 f1 f2 rest before after ins dels
           Hl Hf Hpre Hpost H0 H1.
    destruct (rename_path_total f2) as [p Hp]. exists p. split; [exact Hp|].
    apply (parse_numstat_at output pre post line); try assumption.
    rewrite (parse_numstat_line_fields _ _ _ _ _ Hf).
    rewrite (stat_field_count_of _ _ H0), (stat_field_count_of _ _ H1), Hp.
    reflexivity.
  - intros z. right. split; [apply str_of_int_not_minus | apply int_str_of_int].
Qed.

Lemma parse_numstat_counts_witness :
  exists p,
    rename_path (lit "image.png") = Ok p /\
    parse_numstat (lit "10" ++ [TAB] ++ lit "5" ++ [TAB] ++ lit "src/file.py"
                   ++ [NL] ++ lit "-" ++ [TAB] ++ lit "42" ++ [TAB]
                   ++ lit "image.png")
    = Ok ([mkFileChange (lit "src/file.py") 10 5 None]
            ++ [mkFileChange p 0 42 None] ++ []).
Proof.
  apply (proj1 parse_numstat_counts _
           [lit "10" ++ [TAB] ++ lit "5" ++ [TAB] ++ lit "src/file.py"]
           (lit "-" ++ [TAB] ++ lit "42" ++ [TAB] ++ lit "image.png") []
           (lit "-") (lit "42") (lit "image.png") []).
  - reflexivity.
  - reflexivity.
  - reflexivity.
  - reflexivity.
  - left. split; reflexivity.
  - right. split; [discriminate | reflexivity].
Defined.

(** X24: the two forms of a rename that the tests and the comments of
    [parse_numstat] name. The braces are taken out first and the text
    after the arrow is kept: ["{old => new}suffix"] gives ["newsuffix"] (so
    ["{old => new}/file.txt"] gives ["new/file.txt"]), and
    ["oldfull => newfull"] gives ["newfull"]. In general the path is the
    text [r] after the arrow of the path without its braces,
    ["l => r"]. The names have no brace of their own, the arrow written is
    the first one of the path (no arrow begins inside the old name, the
    first three characters of the written arrow included) and the new side
    has no arrow. *)
Theorem parse_numstat_rename_new_side :
  forall output pre line post f0 f1 p rest before after ins dels,
    split (strip output) [NL] = pre ++ line :: post ->
    split line [TAB] = f0 :: f1 :: p :: rest ->
    parse_numstat_loop pre [] = Ok before ->
    parse_numstat_loop post [] = Ok after ->
    stat_field f0 = Ok ins ->
    stat_field f1 = Ok dels ->
    (forall l r,
        contains ARROW p = true ->
        replace (replace p (lit "{") []) (lit "}") [] = l ++ ARROW ++ r ->
        contains ARROW (l ++ lit " =>") = false ->
        contains ARROW r = false ->
        parse_numstat output
        = Ok (before ++ [mkFileChange r ins dels None] ++ after))
    /\
    (forall old new suffix,
        p = lit "{" ++ old ++ ARROW ++ new ++ lit "}" ++ suffix ->
        has_brace (old ++ new ++ suffix) = false ->
        contains ARROW (old ++ lit " =>") = false ->
        contains ARROW (new ++ suffix) = false ->
        parse_numstat output
        = Ok (before ++ [mkFileChange (new ++ suffix) ins dels None] ++ after))
    /\
    (forall oldfull newfull,
        p = oldfull ++ ARROW ++ newfull ->
        has_brace (oldfull ++ newfull) = false ->
        contains ARROW (oldfull ++ lit " =>") = false ->
        contains ARROW newfull = false ->
        parse_numstat output
        = Ok (before ++ [mkFileChange newfull ins dels None] ++ after)).
Proof.
  intros output pre line post f0 f1 p rest before after ins dels
         Hl Hf Hpre Hpost H0 H1.
  assert (K : forall q, rename_path p = Ok q ->
                parse_numstat output
                = Ok (before ++ [mkFileChange q ins dels None] ++ after)).
  { intros q Hq. apply (parse_numstat_at output pre post line); try assumption.
    rewrite (parse_numstat_line_fields _ _ _ _ _ Hf), H0, H1, Hq. reflexivity. }
  split; [|split].
  - intros l r Hp Hs Ho Hn. apply K.
    apply (rename_path_rule _ l r); assumption.
  - intros old new suffix -> Hb Ho Hn. apply K.
    rewrite !has_brace_app in Hb.
    apply orb_false_iff in Hb as [Hbo Hb]. apply orb_false_iff in Hb as [Hbn Hbs].
    apply (rename_path_rule _ old (new ++ suffix)); try assumption.
    + rewrite app_assoc. apply contains_app_sep.
    + rewrite !strip_braces_app.
      rewrite (strip_braces_id old Hbo), (strip_braces_id new Hbn),
              (strip_braces_id suffix Hbs).
      reflexivity.
  - intros oldfull newfull -> Hb Ho Hn. apply K.
    apply (rename_path_rule _ oldfull newfull); try assumption.
    + apply contains_app_sep.
    + rewrite has_brace_app in Hb. apply orb_false_iff in Hb as [Hbo Hbn].
      rewrite !strip_braces_app.
      rewrite (strip_braces_id oldfull Hbo), (strip_braces_id newfull Hbn).
      reflexivity.
Qed.

Lemma parse_numstat_rename_new_side_witness :
  parse_numstat (lit "5" ++ [TAB] ++ lit "3" ++ [TAB] ++ lit "{old => new}/file.txt")
  = Ok ([] ++ [mkFileChange (lit "new" ++ lit "/file.txt") 5 3 None] ++ [])
  /\
  parse_numstat (lit "1" ++ [TAB] ++ lit "-" ++ [TAB] ++ lit "docs/a b.md => notes/c.md")
  = Ok ([] ++ [mkFileChange (lit "notes/c.md") 1 0 None] ++ []).
Proof.
  split.
  - apply (proj1 (proj2 (parse_numstat_rename_new_side
             (lit "5" ++ [TAB] ++ lit "3" ++ [TAB] ++ lit "{old => new}/file.txt")
             []
             (lit "5" ++ [TAB] ++ lit "3" ++ [TAB] ++ lit "{old => new}/file.txt")
             [] (lit "5") (lit "3") (lit "{old => new}/file.txt") [] [] [] 5%Z 3%Z
             eq_refl eq_refl eq_refl eq_refl eq_refl eq_refl))
             (lit "old") (lit "new") (lit "/file.txt"));
      reflexivity.
  - apply (proj2 (proj2 (parse_numstat_rename_new_side
             (lit "1" ++ [TAB] ++ lit "-" ++ [TAB] ++ lit "docs/a b.md => notes/c.md")
             []
             (lit "1" ++ [TAB] ++ lit "-" ++ [TAB] ++ lit "docs/a b.md => notes/c.md")
             [] (lit "1") (lit "-") (lit "docs/a b.md => notes/c.md") [] [] []
             1%Z 0%Z eq_refl eq_refl eq_refl eq_refl eq_refl eq_refl))
             (lit "docs/a b.md") (lit "notes/c.md"));
      reflexivity.
Defined.

(** C1: the claim does not hold of the code, the path of the record is
    not always the new path. When [src/old/file.py] is renamed to [src/new/file.py]
    git writes the path field ["src/{old => new}/file.py"], and
    [parse_numstat] records ["new/file.py"]: what stands before the brace
    is lost with the old name, where the comment of the code says that it
    takes the new path (["src/new/file.py"]). When [sub/f.py] is moved to
    [f.py] git writes ["{sub => }/f.py"], and the path recorded is
    ["/f.py"]. *)
Theorem parse_numstat_rename_loses_prefix :
  parse_numstat
    (lit "5" ++ [TAB] ++ lit "3" ++ [TAB] ++ lit "src/{old => new}/file.py")
  = Ok [mkFileChange (lit "new/file.py") 5 3 None]
  /\
  parse_numstat
    (lit "5" ++ [TAB] ++ lit "3" ++ [TAB] ++ lit "src/{old => new}/file.py")
  <> Ok [mkFileChange (lit "src/new/file.py") 5 3 None]
  /\
  parse_numstat (lit "0" ++ [TAB] ++ lit "0" ++ [TAB] ++ lit "{sub => }/f.py")
  = Ok [mkFileChange (lit "/f.py") 0 0 None].
Proof.
  split; [reflexivity|]. split; [|reflexivity].
  intros H. vm_compute in H. discriminate H.
Qed.

End ParseNumstat.

(* ================================================================== *)
(** ** Facts about the order of strings and about [sorted]             *)
(* ================================================================== *)

Lemma str_ltb_irrefl (a : str) : str_ltb a a = false.
Proof.
  induction a as [|x a IH]; simpl; [reflexivity|].
  rewrite N.ltb_irrefl, N.eqb_refl, IH. reflexivity.
Qed.

Lemma str_ltb_trans (a b c : str) :
  str_ltb a b = true -> str_ltb b c = true -> str_ltb a c = true.
Proof.
  revert b c; induction a as [|x a IH]; intros [|y b] [|z c]; simpl;
    try discriminate; try reflexivity.
  intros H1 H2.
  apply orb_true_iff in H1. apply orb_true_iff in H2. apply orb_true_iff.
  destruct H1 as [H1|H1], H2 as [H2|H2];
    try apply andb_true_iff in H1 as [E1 H1];
    try apply andb_true_iff in H2 as [E2 H2];
    try apply N.eqb_eq in E1; try apply N.eqb_eq in E2;
    try apply N.ltb_lt in H1; try apply N.ltb_lt in H2; subst.
  - left; apply N.ltb_lt; lia.
  - left; apply N.ltb_lt; lia.
  - left; apply N.ltb_lt; lia.
  - right. rewrite N.eqb_refl. simpl. eapply IH; eassumption.
Qed.

Lemma str_ltb_total (a b : str) :
  str_ltb a b = false -> str_ltb b a = false -> a = b.
Proof.
  revert b; induction a as [|x a IH]; intros [|y b]; simpl;
    try discriminate; try reflexivity.
  intros H1 H2.
  apply orb_false_iff in H1 as [L1 R1]. apply orb_false_iff in H2 as [L2 R2].
  apply N.ltb_ge in L1. apply N.ltb_ge in L2.
  assert (x = y) by lia. subst y.
  rewrite N.eqb_refl in R1, R2. simpl in R1, R2.
  f_equal. apply IH; assumption.
Qed.

Lemma str_ltb_asym (a b : str) : str_ltb a b = true -> str_ltb b a = false.
Proof.
  intros H. destruct (str_ltb b a) eqn:E; [|reflexivity].
  pose proof (str_ltb_trans _ _ _ H E) as T.
  rewrite str_ltb_irrefl in T. discriminate.
Qed.

Lemma str_leb_trans (a b c : str) :
  str_ltb b a = false -> str_ltb c b = false -> str_ltb c a = false.
Proof.
  intros H1 H2. destruct (str_ltb c a) eqn:E; [|reflexivity].
  destruct (str_ltb b c) eqn:F.
  - pose proof (str_ltb_trans _ _ _ F E). congruence.
  - pose proof (str_ltb_total _ _ F H2). subst. congruence.
Qed.

Section Sorted.
Context {A : Type} (lt : A -> A -> bool).
Hypothesis lt_asym : forall a b, lt a b = true -> lt b a = false.
Hypothesis le_trans :
  forall a b c, lt b a = false -> lt c b = false -> lt c a = false.

Lemma insert_sorted_perm (x : A) (l : list A) :
  Permutation (insert_sorted lt x l) (x :: l).
Proof.
  induction l as [|y l IH]; simpl; [reflexivity|].
  destruct (lt y x); [|reflexivity].
  rewrite IH. apply perm_swap.
Qed.

Lemma sorted_perm (l : list A) : Permutation (sorted lt l) l.
Proof.
  induction l as [|x l IH]; simpl; [reflexivity|].
  rewrite insert_sorted_perm. constructor. exact IH.
Qed.

Lemma insert_sorted_sorted (x : A) (l : list A) :
  StronglySorted (fun a b => lt b a = false) l ->
  StronglySorted (fun a b => lt b a = false) (insert_sorted lt x l).
Proof.
  induction 1 as [|y l Hs IH Hy]; simpl.
  - constructor; constructor.
  - destruct (lt y x) eqn:E.
    + constructor; [exact IH|].
      apply (Permutation_Forall (Permutation_sym (insert_sorted_perm x l))).
      constructor; [|exact Hy].
      apply lt_asym. exact E.
    + constructor; [constructor; assumption|].
      constructor; [exact E|].
      eapply Forall_impl; [|exact Hy].
      intros z Hz. eapply le_trans; eassumption.
Qed.

Lemma sorted_sorted (l : list A) :
  StronglySorted (fun a b => lt b a = false) (sorted lt l).
Proof.
  induction l as [|x l IH]; simpl; [constructor|].
  apply insert_sorted_sorted; exact IH.
Qed.

End Sorted.

(** Sorting pairs by their first components sorts the first components. *)
Lemma sorted_map {A B} (g : A -> B) (ltA : A -> A -> bool)
    (ltB : B -> B -> bool) (l : list A) :
  (forall a b, ltB (g a) (g b) = ltA a b) ->
  sorted ltB (map g l) = map g (sorted ltA l).
Proof.
  intros H. induction l as [|x l IH]; simpl; [reflexivity|].
  rewrite IH. generalize (sorted ltA l) as m.
  induction m as [|y m IHm]; simpl; [reflexivity|].
  rewrite H. destruct (ltA y x); simpl; [rewrite IHm|]; reflexivity.
Qed.

Lemma enumerate_map {A B} (g : A -> B) (l : list A) :
  enumerate (map g l) = map (fun e => (fst e, g (snd e))) (enumerate l).
Proof.
  unfold enumerate. rewrite length_map.
  generalize (map Z.of_nat (seq 0 (length l))) as xs.
  induction l as [|x l IH]; intros [|i xs]; simpl; try reflexivity.
  rewrite IH. reflexivity.
Qed.

Lemma flat_map_map {A B C} (g : A -> B) (f : B -> list C) (l : list A) :
  flat_map f (map g l) = flat_map (fun a => f (g a)) l.
Proof.
  induction l as [|x l IH]; simpl; [reflexivity|]. rewrite IH; reflexivity.
Qed.

(* ================================================================== *)
(** ** Facts about [_collect_lines]                                    *)
(* ================================================================== *)

Section CollectLines.
Import tree.

Lemma key_lt_asym (a b : TreeNode) : key_lt a b = true -> key_lt b a = false.
Proof.
  unfold key_lt. destruct (is_file a), (is_file b); try congruence;
    apply str_ltb_asym.
Qed.

Lemma key_le_trans (a b c : TreeNode) :
  key_lt b a = false -> key_lt c b = false -> key_lt c a = false.
Proof.
  unfold key_lt. destruct (is_file a), (is_file b), (is_file c);
    try congruence; apply str_leb_trans.
Qed.

(** The equation of [_collect_lines], in the shape of the source: the
    children are sorted, and the loop runs over them with their indices. *)
Lemma _collect_lines_eq (node : TreeNode) (prefix : str) :
  _collect_lines node prefix
  = let children := sorted key_lt (dict_values (children node)) in
    flat_map (child_lines _collect_lines prefix (len children))
             (enumerate children).
Proof.
  destruct node as [nm isf ins dels lc ch]. cbn [_collect_lines children].
  cbv zeta. unfold dict_values.
  set (dec := fun c : TreeNode => (c, _collect_lines c)).
  assert (E : map (fun kv : str * TreeNode => (snd kv, _collect_lines (snd kv))) ch
              = map dec (map snd ch)) by (rewrite map_map; reflexivity).
  rewrite E.
  rewrite (sorted_map dec key_lt) by reflexivity.
  rewrite enumerate_map, flat_map_map.
  unfold len. rewrite length_map.
  apply flat_map_ext. intros [i child]. reflexivity.
Qed.

Lemma child_lines_siblings (prefix : str) (l : list TreeNode) (k : nat) :
  flat_map (child_lines _collect_lines prefix (Z.of_nat (k + length l)))
           (combine (map Z.of_nat (seq k (length l))) l)
  = sibling_lines prefix l.
Proof.
  revert k; induction l as [|child rest IH]; intros k; [reflexivity|].
  cbn [length seq map combine flat_map sibling_lines].
  replace (k + S (length rest)) with (S k + length rest) by lia.
  rewrite IH. f_equal.
  unfold child_lines.
  assert (L : (Z.of_nat k =? Z.of_nat (S k + length rest) - 1)%Z
              = match rest with [] => true | _ :: _ => false end).
  { destruct rest; simpl length.
    - apply Z.eqb_eq. lia.
    - apply Z.eqb_neq. lia. }
  rewrite L. reflexivity.
Qed.

(** A list sorted by [(is_file, name)] is its directories by name, then its
    files by name. *)
Lemma sorted_groups (l : list TreeNode) :
  StronglySorted (fun a b => key_lt b a = false) l ->
  exists dirs files,
    l = dirs ++ files /\
    Forall (fun c => is_file c = false) dirs /\
    Forall (fun c => is_file c = true) files /\
    StronglySorted name_le dirs /\ StronglySorted name_le files.
Proof.
  induction 1 as [|x l Hs IH Hx].
  - exists [], []. repeat split; constructor.
  - destruct IH as (dirs & files & -> & Hd & Hf & Sd & Sf).
    apply Forall_app in Hx as [Hxd Hxf].
    destruct (is_file x) eqn:Ex.
    + assert (dirs = []) as ->.
      { destruct dirs as [|d dirs]; [reflexivity|].
        inversion Hd; subst. inversion Hxd; subst.
        unfold key_lt in *. rewrite Ex in *.
        match goal with H : is_file d = false |- _ => rewrite H in * end.
        discriminate. }
      exists [], (x :: files). repeat split; try constructor; try assumption.
      rewrite Forall_forall in *. intros y Hy.
      specialize (Hxf y Hy). specialize (Hf y Hy).
      unfold key_lt in Hxf. rewrite Ex, Hf in Hxf. exact Hxf.
    + exists (x :: dirs), files. repeat split; try constructor; try assumption.
      rewrite Forall_forall in *. intros y Hy.
      specialize (Hxd y Hy). specialize (Hd y Hy).
      unfold key_lt in Hxd. rewrite Ex, Hd in Hxd. exact Hxd.
Qed.

(** C3: at every node the renderer takes the children in the order of
    [(is_file, name)]: the directories in the order of their names, then
    the files in the order of their names (code point order, so case
    matters); the line of the last child has the corner connector, the line
    of every other child has the branch connector. *)
Theorem collect_lines_order_and_connectors :
  forall (node : TreeNode) (prefix : str),
  exists dirs files,
    Permutation (dirs ++ files) (dict_values (children node)) /\
    Forall (fun c => is_file c = false) dirs /\
    Forall (fun c => is_file c = true) files /\
    StronglySorted name_le dirs /\
    StronglySorted name_le files /\
    _collect_lines node prefix = sibling_lines prefix (dirs ++ files).
Proof.
  intros node prefix.
  pose proof (sorted_sorted key_lt key_lt_asym key_le_trans
                (dict_values (children node))) as S.
  destruct (sorted_groups _ S) as (dirs & files & E & Hd & Hf & Sd & Sf).
  exists dirs, files. repeat split; try assumption.
  - rewrite <- E. apply sorted_perm.
  - rewrite _collect_lines_eq. cbv zeta. rewrite E.
    unfold enumerate, len.
    apply (child_lines_siblings prefix (dirs ++ files) 0).
Qed.

End CollectLines.

(* ================================================================== *)
(** ** Facts about [to_json]                                           *)
(* ================================================================== *)

Section ToJson.
Import output.

Lemma int_field_file_entries (changes : list diff.FileChange) :
  map (int_field (lit "insertions")) (map file_entry changes)
  = map diff.insertions changes
  /\ map (int_field (lit "deletions")) (map file_entry changes)
     = map diff.deletions changes.
Proof.
  split; rewrite map_map; apply map_ext; intros c; reflexivity.
Qed.

(** C5: in the document [to_json] returns, the fields of [summary] are the
    sum of the insertions, the sum of the deletions, their difference and
    the number of the entries of the list [files] of this same document;
    [files] has one entry for each record, in order, and the [loc] of an
    entry is the null value exactly when the record has none. *)
Theorem to_json_summary_of_files :
  forall (changes : list diff.FileChange) (mode : str) (base_ref : option str),
  exists files summary,
    dict_get (lit "files") (to_json changes mode base_ref) = Some (VList files) /\
    dict_get (lit "summary") (to_json changes mode base_ref) = Some (VDict summary) /\
    dict_get (lit "total_insertions") summary
    = Some (VInt (sum (map (int_field (lit "insertions")) files))) /\
    dict_get (lit "total_deletions") summary
    = Some (VInt (sum (map (int_field (lit "deletions")) files))) /\
    dict_get (lit "net") summary
    = Some (VInt (sum (map (int_field (lit "insertions")) files)
                  - sum (map (int_field (lit "deletions")) files))) /\
    dict_get (lit "file_count") summary = Some (VInt (len files)) /\
    files = map file_entry changes /\
    (forall c, field (lit "loc") (file_entry c) = Some VNone <-> diff.loc c = None) /\
    (forall c n, field (lit "loc") (file_entry c) = Some (VInt n) <-> diff.loc c = Some n).
Proof.
  intros changes mode base_ref.
  destruct (int_field_file_entries changes) as [Ei Ed].
  exists (map file_entry changes).
  eexists.
  split; [destruct base_ref as [[|c b]|]; reflexivity|].
  split; [destruct base_ref as [[|c b]|]; reflexivity|].
  rewrite Ei, Ed. unfold len. rewrite length_map.
  repeat split; try reflexivity.
  - unfold file_entry, field. simpl.
    destruct (diff.loc c); simpl; [discriminate | reflexivity].
  - intros H. unfold file_entry, field. simpl. rewrite H. reflexivity.
  - unfold file_entry, field. simpl.
    destruct (diff.loc c); simpl; congruence.
  - intros H. unfold file_entry, field. simpl. rewrite H. reflexivity.
Qed.

(** C8, as stated, fails: with the empty string as the base reference the
    document has no field [base], although a base reference was given. *)
Lemma to_json_empty_base_has_no_base_field :
  ~ (dict_get (lit "base") (to_json [] (lit "default") (Some [])) <> None
     <-> Some (@nil char) <> None).
Proof.
  intros [_ H]. apply H; [discriminate | reflexivity].
Qed.

(** C8, amended: the document has the field [base] exactly when the base
    reference is a string that is not empty, and the field holds this
    string; it has no such field when the base reference is absent or is
    the empty string. *)
Theorem to_json_base_field :
  forall (changes : list diff.FileChange) (mode : str) (base_ref : option str),
    dict_get (lit "base") (to_json changes mode base_ref)
    = match base_ref with
      | Some (c :: b) => Some (VStr (c :: b))
      | Some [] | None => None
      end.
Proof.
  intros changes mode [[|c b]|]; reflexivity.
Qed.

End ToJson.

(* ================================================================== *)
(** ** Facts about the mode of [main]                                  *)
(* ================================================================== *)

(** C9, as stated, fails: with both flags the mode is not the uncommitted
    one, and the comparison asked of git is that of [HEAD~1] with
    [HEAD]. *)
Lemma determine_mode_both_flags_not_uncommitted :
  cli.determine_mode true true <> lit "uncommitted"
  /\ diff.get_changes_diff_args (cli.determine_mode true true) (lit "abc123")
     = [lit "--numstat"; lit "HEAD~1"; lit "HEAD"].
Proof.
  split; [discriminate | reflexivity].
Qed.

(** C9, amended: [--since-last] wins. When it is given the mode is
    since-last, whatever [--uncommitted] is, and git compares [HEAD~1] with
    [HEAD]; the mode is uncommitted, and git compares the working tree with
    [HEAD], when [--uncommitted] is given without [--since-last]. *)
Theorem determine_mode_since_last_wins :
  forall (uncommitted : bool) (base : str),
    cli.determine_mode true uncommitted = lit "since-last" /\
    diff.get_changes_diff_args (cli.determine_mode true uncommitted) base
    = [lit "--numstat"; lit "HEAD~1"; lit "HEAD"] /\
    cli.determine_mode false true = lit "uncommitted" /\
    diff.get_changes_diff_args (cli.determine_mode false true) base
    = [lit "--numstat"; lit "HEAD"].
Proof.
  intros uncommitted base. repeat split; reflexivity.
Qed.

(* ================================================================== *)
(** ** Facts about [format_stats_aligned]                              *)
(* ================================================================== *)

Lemma tree_output_format_stats_aligned loc ins dels lw iw dw color :
  output.format_stats_aligned loc ins dels lw iw dw color
  = tree.format_stats_aligned loc ins dels lw iw dw color.
Proof. reflexivity. Qed.

Lemma strip_ansi_no_esc (s t : str) :
  no_esc s ->
  strip_ansi_from false (s ++ t) = s ++ strip_ansi_from false t.
Proof.
  induction 1 as [|c s Hc _ IH]; [reflexivity|].
  cbn [app strip_ansi_from]. rewrite Hc. cbn [andb]. rewrite IH. reflexivity.
Qed.

Lemma no_esc_app (a b : str) : no_esc a -> no_esc b -> no_esc (a ++ b).
Proof. intros; apply Forall_app; split; assumption. Qed.

Lemma no_esc_str_of_int (z : Z) : no_esc (str_of_int z).
Proof.
  eapply Forall_impl; [|apply str_of_int_chars].
  intros c [H | ->]; [|reflexivity].
  unfold is_digit in H. apply andb_true_iff in H as [H _].
  apply N.leb_le in H. apply N.eqb_neq. unfold ESC. lia.
Qed.

Lemma no_esc_rjust (s : str) (w : Z) : no_esc s -> no_esc (rjust s w).
Proof.
  intros H. unfold rjust. apply no_esc_app; [|exact H].
  induction (Z.to_nat (w - len s)); simpl; constructor; auto.
Qed.

Lemma no_esc_loc_str (loc : option Z) : no_esc (loc_str loc).
Proof.
  destruct loc; simpl; [apply no_esc_str_of_int | repeat constructor].
Qed.

(** C6: the coloured token of [format_stats_aligned], with its escape
    sequences taken out, is the plain token of the same arguments; this
    holds for the function of [tree.py] and for that of [output.py]. *)
Theorem format_stats_aligned_strip_color :
  forall (loc : option Z) (ins dels loc_width ins_width dels_width : Z),
    strip_ansi (tree.format_stats_aligned loc ins dels loc_width ins_width
                  dels_width true)
    = tree.format_stats_aligned loc ins dels loc_width ins_width dels_width false
    /\
    strip_ansi (output.format_stats_aligned loc ins dels loc_width ins_width
                  dels_width true)
    = output.format_stats_aligned loc ins dels loc_width ins_width dels_width
        false.
Proof.
  intros loc ins dels lw iw dw.
  assert (G : strip_ansi (tree.format_stats_aligned loc ins dels lw iw dw true)
              = tree.format_stats_aligned loc ins dels lw iw dw false);
    [|split; exact G].
  unfold tree.format_stats_aligned, strip_ansi. cbv zeta.
  fold (loc_str loc).
  pose proof (no_esc_rjust _ lw (no_esc_loc_str loc)) as Hl.
  pose proof (no_esc_rjust _ iw (no_esc_str_of_int ins)) as Hi.
  pose proof (no_esc_rjust _ dw (no_esc_str_of_int dels)) as Hd.
  set (L := rjust (loc_str loc) lw) in *.
  set (I := rjust (str_of_int ins) iw) in *.
  set (D := rjust (str_of_int dels) dw) in *.
  rewrite (strip_ansi_no_esc L _ Hl). f_equal.
  change (strip_ansi_from false
            (lit "  " ++ (ESC :: lit "[32m") ++ lit "+" ++ I ++ (ESC :: lit "[0m")
               ++ lit " " ++ (ESC :: lit "[31m") ++ lit "-" ++ D
               ++ ESC :: lit "[0m"))
    with (lit "  +" ++ strip_ansi_from false
            (I ++ (ESC :: lit "[0m") ++ lit " " ++ (ESC :: lit "[31m")
               ++ lit "-" ++ D ++ ESC :: lit "[0m")).
  rewrite (strip_ansi_no_esc I _ Hi).
  change (strip_ansi_from false
            ((ESC :: lit "[0m") ++ lit " " ++ (ESC :: lit "[31m") ++ lit "-"
               ++ D ++ ESC :: lit "[0m"))
    with (lit " -" ++ strip_ansi_from false (D ++ ESC :: lit "[0m")).
  rewrite (strip_ansi_no_esc D _ Hd).
  change (strip_ansi_from false (ESC :: lit "[0m")) with (@nil char).
  rewrite app_nil_r. reflexivity.
Qed.

(* ================================================================== *)
(** ** Facts about the widths of the columns                           *)
(* ================================================================== *)

Lemma fold_max_spec {A} (f : A -> Z) (l : list A) (a : Z) :
  max_with_floor a (fold_left (fun w x => Z.max w (f x)) l a) (map f l).
Proof.
  revert a; induction l as [|x l IH]; intros a; simpl.
  - repeat split; [lia | constructor | left; reflexivity].
  - destruct (IH (Z.max a (f x))) as (H1 & H2 & H3).
    set (w := fold_left _ l (Z.max a (f x))) in *.
    repeat split.
    + lia.
    + constructor; [lia | exact H2].
    + destruct H3 as [H3 | H3]; [|right; right; exact H3].
      destruct (Z.max_spec a (f x)) as [[_ E] | [_ E]].
      * right; left; lia.
      * left; lia.
Qed.

Lemma tree_widths_fold (tree_lines : list tree._TreeLine) (a b c : Z) :
  fold_left tree.widths_step tree_lines (a, b, c)
  = (fold_left (fun w r => Z.max w (loc_len r)) (stat_rows tree_lines) a,
     fold_left (fun w r => Z.max w (ins_len r)) (stat_rows tree_lines) b,
     fold_left (fun w r => Z.max w (dels_len r)) (stat_rows tree_lines) c).
Proof.
  revert a b c; induction tree_lines as [|line tl IH]; intros a b c;
    [reflexivity|].
  destruct line as [t [[[loc ins] dels]|]]; cbn [fold_left]; unfold stat_rows;
    cbn [flat_map tree.stats tree.widths_step app]; [|apply IH].
  rewrite IH. reflexivity.
Qed.

Lemma output_widths_fold (changes : list diff.FileChange) (a b c : Z) :
  fold_left output.widths_step changes (a, b, c)
  = (fold_left (fun w r => Z.max w (loc_len r)) (map change_row changes) a,
     fold_left (fun w r => Z.max w (ins_len r)) (map change_row changes) b,
     fold_left (fun w r => Z.max w (dels_len r)) (map change_row changes) c).
Proof.
  revert a b c; induction changes as [|ch l IH]; intros a b c; [reflexivity|].
  cbn [fold_left map output.widths_step]. rewrite IH. reflexivity.
Qed.

Lemma len_rjust (s : str) (w : Z) : (len s <= w)%Z -> len (rjust s w) = w.
Proof.
  intros H. unfold rjust, len in *. rewrite length_app, repeat_length. lia.
Qed.

Lemma widths_of_rows_fold (rows : list (option Z * Z * Z)) :
  widths_of_rows
    (fold_left (fun w r => Z.max w (loc_len r)) rows 1%Z,
     fold_left (fun w r => Z.max w (ins_len r)) rows 1%Z,
     fold_left (fun w r => Z.max w (dels_len r)) rows 1%Z)
    rows.
Proof. repeat split; apply fold_max_spec. Qed.

Lemma tree_column_widths_of_rows (tree_lines : list tree._TreeLine) :
  widths_of_rows (tree.column_widths tree_lines) (stat_rows tree_lines).
Proof.
  unfold tree.column_widths. rewrite tree_widths_fold.
  apply widths_of_rows_fold.
Qed.

(** C4: the three widths of a rendering are, each, the maximum of the
    lengths of the texts of its column over all the rows rendered together
    (["-"] being the text of an absent loc), with the floor 1; every row is
    rendered with these widths, so that each of its three fields has
    exactly the width of its column. This holds for the tree and for the
    flat list. With the loc values [None], [7] and [123] the loc column is
    3 wide and the row without loc begins with ["  -"]. *)
Theorem render_column_widths :
  (forall tree_lines : list tree._TreeLine,
      let w := tree.column_widths tree_lines in
      widths_of_rows w (stat_rows tree_lines) /\
      Forall (fun row =>
                len (rjust (loc_str (fst (fst row))) (fst (fst w))) = fst (fst w) /\
                len (rjust (str_of_int (snd (fst row))) (snd (fst w))) = snd (fst w) /\
                len (rjust (str_of_int (snd row)) (snd w)) = snd w)
             (stat_rows tree_lines))
  /\
  (forall (node : tree.TreeNode) (prefix : str) (use_color : bool),
      let tree_lines := tree._collect_lines node [] in
      let w := tree.column_widths tree_lines in
      tree.render_tree node prefix use_color
      = map (fun line =>
               match tree.stats line with
               | None => tree.text line
               | Some (loc, ins, dels) =>
                   tree.text line
                   ++ spaces (tree.max_text_width tree_lines - len (tree.text line))
                   ++ lit "  "
                   ++ tree.format_stats_aligned loc ins dels (fst (fst w))
                        (snd (fst w)) (snd w) use_color
               end) tree_lines)
  /\
  (forall changes : list diff.FileChange,
      widths_of_rows (output.column_widths changes) (map change_row changes))
  /\
  (forall (t1 t2 t3 : str) (i1 d1 i2 d2 i3 d3 : Z),
      fst (fst (tree.column_widths
                  [tree.mk_TreeLine t1 (Some (None, i1, d1));
                   tree.mk_TreeLine t2 (Some (Some 7%Z, i2, d2));
                   tree.mk_TreeLine t3 (Some (Some 123%Z, i3, d3))])) = 3%Z
      /\
      forall ins_width dels_width : Z,
        tree.format_stats_aligned None i1 d1 3 ins_width dels_width false
        = lit "  -" ++ lit "  +" ++ rjust (str_of_int i1) ins_width
            ++ lit " -" ++ rjust (str_of_int d1) dels_width)
  /\
  tree.render_tree
    (tree.build_tree
       [diff.mkFileChange (lit "a.py") 1 2 None;
        diff.mkFileChange (lit "b.py") 30 4 (Some 7%Z);
        diff.mkFileChange (lit "c.py") 5 600 (Some 123%Z)])
    [] false
  = [tree.BRANCH ++ lit "a.py    -  + 1 -  2";
     tree.BRANCH ++ lit "b.py    7  +30 -  4";
     tree.CORNER ++ lit "c.py  123  + 5 -600"].
Proof.
  split; [|split; [|split; [|split]]].
  - intros tree_lines w.
    pose proof (tree_column_widths_of_rows tree_lines) as W. fold w in W.
    split; [exact W|].
    destruct W as ((_ & L & _) & (_ & I & _) & (_ & D & _)).
    rewrite Forall_map in L, I, D.
    rewrite Forall_forall in *. intros row Hrow.
    repeat split; apply len_rjust.
    + apply (L row Hrow).
    + apply (I row Hrow).
    + apply (D row Hrow).
  - intros node prefix use_color tree_lines w. unfold tree.render_tree.
    fold tree_lines. fold w.
    destruct w as [[lw iw] dw]. destruct tree_lines; reflexivity.
  - intros changes. unfold output.column_widths. rewrite output_widths_fold.
    apply widths_of_rows_fold.
  - intros. split; [reflexivity|]. intros; reflexivity.
  - reflexivity.
Qed.

(* ================================================================== *)
(** ** Facts about [build_tree]                                        *)
(* ================================================================== *)

Section BuildTree.
Import tree.

Lemma dict_get_set_eq {V} (k : str) (v : V) (d : dict V) :
  dict_get k (dict_set k v d) = Some v.
Proof.
  induction d as [|[k' v'] d IH]; simpl.
  - rewrite str_eqb_refl; reflexivity.
  - destruct (str_eqb k k') eqn:E; simpl; rewrite E; [reflexivity | exact IH].
Qed.

Lemma dict_get_set_ne {V} (k k' : str) (v : V) (d : dict V) :
  str_eqb k' k = false ->
  dict_get k' (dict_set k v d) = dict_get k' d.
Proof.
  intros Hne. induction d as [|[k0 v0] d IH]; simpl.
  - rewrite Hne; reflexivity.
  - destruct (str_eqb k k0) eqn:E; simpl.
    + apply str_eqb_eq in E; subst k0. rewrite Hne. reflexivity.
    + rewrite IH. reflexivity.
Qed.

Lemma dict_set_same {V} (k : str) (v : V) (d : dict V) :
  dict_get k d = Some v -> dict_set k v d = d.
Proof.
  induction d as [|[k' v'] d IH]; simpl; [discriminate|].
  destruct (str_eqb k k') eqn:E.
  - intros H; inversion H; reflexivity.
  - intros H; rewrite (IH H); reflexivity.
Qed.

Lemma set_children_id (node : TreeNode) : set_children node (children node) = node.
Proof. destruct node; reflexivity. Qed.

Lemma same_stats_refl (n : TreeNode) : same_stats n n.
Proof. repeat split. Qed.

Lemma same_stats_trans (a b c : TreeNode) :
  same_stats a b -> same_stats b c -> same_stats a c.
Proof.
  intros (A1 & A2 & A3 & A4 & A5) (B1 & B2 & B3 & B4 & B5).
  repeat split; congruence.
Qed.

Lemma same_stats_add_change (c : diff.FileChange) (q : list str) (node : TreeNode) :
  same_stats node (add_change c q node).
Proof. destruct q; simpl; repeat split. Qed.

(** A path whose nodes are all there changes nothing. *)
Lemma add_change_present (c : diff.FileChange) (parts : list str) (node : TreeNode) :
  find_node parts node <> None -> add_change c parts node = node.
Proof.
  revert node; induction parts as [|part rest IH]; intros node H;
    [reflexivity|].
  cbn [find_node] in H. cbn [add_change].
  destruct (dict_get part (children node)) as [child|] eqn:E; [|congruence].
  rewrite (IH child H), (dict_set_same _ _ _ E). apply set_children_id.
Qed.

(** After a record is added, the nodes of its path are there. *)
Lemma find_node_add_change (c : diff.FileChange) (parts : list str) (node : TreeNode) :
  find_node parts (add_change c parts node) <> None.
Proof.
  revert node; induction parts as [|part rest IH]; intros node;
    [discriminate|].
  cbn [add_change find_node]. unfold set_children; cbn [children].
  rewrite dict_get_set_eq. apply IH.
Qed.

(** Adding a record keeps the nodes that are there, and their stats. *)
Lemma find_node_kept (c : diff.FileChange) (q parts : list str)
    (node n : TreeNode) :
  find_node parts node = Some n ->
  exists n', find_node parts (add_change c q node) = Some n' /\ same_stats n n'.
Proof.
  revert q node; induction parts as [|part rest IH]; intros q node H.
  - inversion H; subst. eexists; split; [reflexivity|].
    apply same_stats_add_change.
  - destruct q as [|qp qrest].
    + exists n; split; [exact H | apply same_stats_refl].
    + cbn [find_node] in H.
      destruct (dict_get part (children node)) as [child|] eqn:E; [|discriminate].
      cbn [add_change find_node]. unfold set_children; cbn [children].
      destruct (str_eqb part qp) eqn:Eq.
      * apply str_eqb_eq in Eq; subst qp.
        rewrite dict_get_set_eq, E. apply IH; exact H.
      * rewrite (dict_get_set_ne _ _ _ _ Eq), E.
        exists n; split; [exact H | apply same_stats_refl].
Qed.

(** A node that is not there is not made by a record whose path does not
    go through it. *)
Lemma find_node_absent (c : diff.FileChange) (q parts : list str) (node : TreeNode) :
  find_node parts node = None ->
  is_prefix parts q = false ->
  find_node parts (add_change c q node) = None.
Proof.
  revert q node; induction parts as [|part rest IH]; intros q node H P;
    [discriminate|].
  destruct q as [|qp qrest]; [exact H|].
  cbn [is_prefix] in P. cbn [find_node] in H.
  cbn [add_change find_node]. unfold set_children; cbn [children].
  destruct (str_eqb part qp) eqn:Eq.
  - apply str_eqb_eq in Eq; subst qp. cbn [andb] in P.
    rewrite dict_get_set_eq.
    destruct (dict_get part (children node)) as [child|] eqn:E.
    + apply IH; assumption.
    + apply IH; [|exact P].
      destruct rest; [discriminate | reflexivity].
  - rewrite (dict_get_set_ne _ _ _ _ Eq). exact H.
Qed.

(** A record whose node is not there makes it, as a file node with its
    stats. *)
Lemma find_node_created (c : diff.FileChange) (parts : list str) (node : TreeNode) :
  parts <> [] ->
  find_node parts node = None ->
  exists n, find_node parts (add_change c parts node) = Some n /\ file_node_of c n.
Proof.
  revert node; induction parts as [|part rest IH]; intros node Hne H;
    [congruence|].
  cbn [find_node] in H.
  cbn [add_change find_node]. unfold set_children; cbn [children].
  rewrite dict_get_set_eq.
  destruct rest as [|r rest'].
  - destruct (dict_get part (children node)) as [child|]; [discriminate|].
    eexists; split; [reflexivity|]. repeat split.
  - destruct (dict_get part (children node)) as [child|].
    + apply IH; [discriminate | exact H].
    + apply IH; [discriminate | reflexivity].
Qed.

Lemma fold_kept (l : list diff.FileChange) (parts : list str) (node n : TreeNode) :
  find_node parts node = Some n ->
  exists n', find_node parts (fold_left build_step l node) = Some n'
             /\ same_stats n n'.
Proof.
  revert node n; induction l as [|c l IH]; intros node n H; simpl.
  - exists n; split; [exact H | apply same_stats_refl].
  - destruct (find_node_kept c (split (diff.path c) SLASH) parts node n H)
      as (n1 & H1 & S1).
    destruct (IH _ _ H1) as (n2 & H2 & S2).
    exists n2; split; [exact H2 | eapply same_stats_trans; eassumption].
Qed.

Lemma fold_absent (l : list diff.FileChange) (parts : list str) (node : TreeNode) :
  find_node parts node = None ->
  (forall c0, In c0 l -> is_prefix parts (split (diff.path c0) SLASH) = false) ->
  find_node parts (fold_left build_step l node) = None.
Proof.
  revert node; induction l as [|c l IH]; intros node H P; simpl; [exact H|].
  apply IH.
  - apply find_node_absent; [exact H | apply P; left; reflexivity].
  - intros c0 Hc0. apply P; right; exact Hc0.
Qed.

Lemma split_parts_nonempty (p : str) : split p SLASH <> [].
Proof. apply split_from_nonempty. Qed.

(** A later record with the path of an earlier one changes nothing. *)
Lemma fold_duplicate (l2 l3 : list diff.FileChange) (c c' : diff.FileChange)
    (node : TreeNode) :
  diff.path c' = diff.path c ->
  fold_left build_step (c :: l2 ++ c' :: l3) node
  = fold_left build_step (c :: l2 ++ l3) node.
Proof.
  intros Hp. cbn [fold_left]. rewrite !fold_left_app. cbn [fold_left].
  f_equal.
  set (parts := split (diff.path c) SLASH).
  pose proof (find_node_add_change c parts node) as H1. fold parts in H1.
  destruct (find_node parts (build_step node c)) as [n|] eqn:E;
    [|unfold build_step in E; fold parts in E; congruence].
  destruct (fold_kept l2 parts _ n E) as (n' & H2 & _).
  unfold build_step at 1. rewrite Hp. fold parts.
  apply add_change_present. rewrite H2. discriminate.
Qed.

(** C10, as stated, fails: the records ["a/b"], ["a"], ["a"] give a tree in
    which the node of the path ["a"] is the directory made for ["a/b"],
    with no stats; the tree has no file node for ["a"] with the stats of
    the first record of this path. *)
Lemma build_tree_file_under_directory_path :
  (exists n,
      find_node (split (lit "a") SLASH)
        (build_tree [diff.mkFileChange (lit "a/b") 1 1 None;
                     diff.mkFileChange (lit "a") 2 2 (Some 5%Z);
                     diff.mkFileChange (lit "a") 3 3 (Some 5%Z)])
      = Some n
      /\ is_file n = false /\ insertions n = 0%Z /\ deletions n = 0%Z
      /\ loc n = None)
  /\
  ~ (exists n,
        find_node (split (lit "a") SLASH)
          (build_tree [diff.mkFileChange (lit "a/b") 1 1 None;
                       diff.mkFileChange (lit "a") 2 2 (Some 5%Z);
                       diff.mkFileChange (lit "a") 3 3 (Some 5%Z)])
        = Some n
        /\ file_node_of (diff.mkFileChange (lit "a") 2 2 (Some 5%Z)) n).
Proof.
  split.
  - eexists. split; [reflexivity|]. repeat split.
  - intros (n & H & F & _). vm_compute in H. inversion H; subst n.
    discriminate F.
Qed.

(** C10, amended: when no record before [c] has a path that goes through
    the path of [c] (the same path, or a path of which it is a directory),
    the tree has for this path a file node with the insertions, deletions
    and loc of [c], whatever records follow; and a later record with the
    path of an earlier one is ignored: the tree is the tree of the list
    without it. *)
Theorem build_tree_first_record_wins :
  (forall (l1 : list diff.FileChange) (c : diff.FileChange)
          (l2 : list diff.FileChange),
      (forall c0, In c0 l1 ->
         is_prefix (split (diff.path c) SLASH) (split (diff.path c0) SLASH)
         = false) ->
      exists n,
        find_node (split (diff.path c) SLASH) (build_tree (l1 ++ c :: l2)) = Some n
        /\ file_node_of c n)
  /\
  (forall (l1 : list diff.FileChange) (c : diff.FileChange)
          (l2 : list diff.FileChange) (c' : diff.FileChange)
          (l3 : list diff.FileChange),
      diff.path c' = diff.path c ->
      build_tree (l1 ++ c :: l2 ++ c' :: l3) = build_tree (l1 ++ c :: l2 ++ l3)).
Proof.
  split.
  - intros l1 c l2 P. unfold build_tree. rewrite fold_left_app. cbn [fold_left].
    set (root := mkTreeNode (lit ".") false 0%Z 0%Z None []).
    set (parts := split (diff.path c) SLASH) in *.
    assert (A : find_node parts (fold_left build_step l1 root) = None).
    { apply fold_absent; [|exact P].
      pose proof (split_parts_nonempty (diff.path c)) as Hne. fold parts in Hne.
      destruct parts; [congruence | reflexivity]. }
    destruct (find_node_created c parts _ (split_parts_nonempty _) A)
      as (n & Hn & Fn).
    destruct (fold_kept l2 parts (build_step (fold_left build_step l1 root) c) n Hn)
      as (n' & Hn' & (_ & S2 & S3 & S4 & S5)).
    exists n'. split; [exact Hn'|].
    destruct Fn as (F1 & F2 & F3 & F4). repeat split; congruence.
  - intros l1 c l2 c' l3 Hp. unfold build_tree. rewrite !fold_left_app.
    apply fold_duplicate. exact Hp.
Qed.

Lemma build_tree_first_record_wins_witness :
  (exists n,
      find_node (split (lit "src/a.py") SLASH)
        (build_tree ([diff.mkFileChange (lit "src/b.py") 1 1 None]
                       ++ diff.mkFileChange (lit "src/a.py") 2 3 (Some 9%Z)
                       :: [diff.mkFileChange (lit "src/a.py") 7 7 None]))
      = Some n
      /\ file_node_of (diff.mkFileChange (lit "src/a.py") 2 3 (Some 9%Z)) n)
  /\
  build_tree ([diff.mkFileChange (lit "src/b.py") 1 1 None]
                ++ diff.mkFileChange (lit "src/a.py") 2 3 (Some 9%Z)
                :: [] ++ diff.mkFileChange (lit "src/a.py") 7 7 None :: [])
  = build_tree ([diff.mkFileChange (lit "src/b.py") 1 1 None]
                  ++ diff.mkFileChange (lit "src/a.py") 2 3 (Some 9%Z)
                  :: [] ++ []).
Proof.
  split.
  - apply (proj1 build_tree_first_record_wins
             [diff.mkFileChange (lit "src/b.py") 1 1 None]
             (diff.mkFileChange (lit "src/a.py") 2 3 (Some 9%Z))
             [diff.mkFileChange (lit "src/a.py") 7 7 None]).
    intros c0 [<- | []]. reflexivity.
  - apply (proj2 build_tree_first_record_wins
             [diff.mkFileChange (lit "src/b.py") 1 1 None]
             (diff.mkFileChange (lit "src/a.py") 2 3 (Some 9%Z)) []
             (diff.mkFileChange (lit "src/a.py") 7 7 None) []).
    reflexivity.
Defined.

End BuildTree.

(* ================================================================== *)
(** ** The tests of [tests/test_diff.py], on the model                 *)
(* ================================================================== *)

Example test_net_positive :
  diff.net (diff.mkFileChange (lit "test.py") 10 3 None) = 7%Z.
Proof. reflexivity. Qed.

Example test_net_negative :
  diff.net (diff.mkFileChange (lit "test.py") 3 10 None) = (-7)%Z.
Proof. reflexivity. Qed.

Example test_net_zero :
  diff.net (diff.mkFileChange (lit "test.py") 5 5 None) = 0%Z.
Proof. reflexivity. Qed.

Example test_total :
  diff.total (diff.mkFileChange (lit "test.py") 10 3 None) = 13%Z.
Proof. reflexivity. Qed.

Example test_single_file :
  diff.parse_numstat (lit "10" ++ [TAB] ++ lit "5" ++ [TAB] ++ lit "src/file.py")
  = Ok [diff.mkFileChange (lit "src/file.py") 10 5 None].
Proof. reflexivity. Qed.

Example test_multiple_files :
  diff.parse_numstat
    (lit "10" ++ [TAB] ++ lit "5" ++ [TAB] ++ lit "src/file1.py" ++ [NL]
       ++ lit "3" ++ [TAB] ++ lit "0" ++ [TAB] ++ lit "src/file2.py")
  = Ok [diff.mkFileChange (lit "src/file1.py") 10 5 None;
        diff.mkFileChange (lit "src/file2.py") 3 0 None].
Proof. reflexivity. Qed.

Example test_empty_output : diff.parse_numstat [] = Ok [].
Proof. reflexivity. Qed.

Example test_whitespace_output :
  diff.parse_numstat (lit "   " ++ [NL] ++ lit "  ") = Ok [].
Proof. reflexivity. Qed.

Example test_binary_file :
  diff.parse_numstat (lit "-" ++ [TAB] ++ lit "-" ++ [TAB] ++ lit "image.png")
  = Ok [diff.mkFileChange (lit "image.png") 0 0 None].
Proof. reflexivity. Qed.

Example test_renamed_file :
  diff.parse_numstat
    (lit "5" ++ [TAB] ++ lit "3" ++ [TAB] ++ lit "{old => new}/file.py")
  = Ok [diff.mkFileChange (lit "new/file.py") 5 3 None].
Proof. reflexivity. Qed.

(** A count that is neither a numeral nor the marker raises [ValueError]. *)
Example parse_numstat_bad_count :
  diff.parse_numstat (lit "x" ++ [TAB] ++ lit "3" ++ [TAB] ++ lit "f")
  = Raise ValueError.
Proof. reflexivity. Qed.

(** The tree of three paths, two of them in one directory. *)
Example build_tree_three_paths :
  tree.build_tree [diff.mkFileChange (lit "a/b.py") 1 0 None;
                   diff.mkFileChange (lit "a/c.py") 2 0 None;
                   diff.mkFileChange (lit "d.py") 3 0 None]
  = tree.mkTreeNode (lit ".") false 0 0 None
      [(lit "a",
        tree.mkTreeNode (lit "a") false 0 0 None
          [(lit "b.py", tree.mkTreeNode (lit "b.py") true 1 0 None []);
           (lit "c.py", tree.mkTreeNode (lit "c.py") true 2 0 None [])]);
       (lit "d.py", tree.mkTreeNode (lit "d.py") true 3 0 None [])].
Proof. reflexivity. Qed.

(* ================================================================== *)
(** ** More about [parse_numstat]: records, errors, paths               *)
(* ================================================================== *)

Section ParseNumstatMore.
Import diff.

Lemma stat_field_cases (field : str) :
  (bad_count field = true /\ stat_field field = Raise ValueError)
  \/ (bad_count field = false /\ exists z, stat_field field = Ok z).
Proof.
  unfold bad_count, stat_field, MINUS.
  destruct (str_eqb field (lit "-")); simpl; [right; eauto|].
  destruct (int field); [right; eauto | left; auto].
Qed.

Lemma parse_numstat_line_cases (line : str) :
  (bad_line line = true /\ parse_numstat_line line = Raise ValueError)
  \/ (bad_line line = false /\
      exists new, parse_numstat_line line = Ok new /\
                  length new = (if has_three_fields line then 1 else 0) /\
                  Forall (fun c => loc c = None) new).
Proof.
  unfold bad_line, has_three_fields.
  destruct (split line [TAB]) as [|f0 [|f1 [|f2 rest]]] eqn:E.
  - right. split; [reflexivity|]. exists [].
    rewrite parse_numstat_line_short by (rewrite E; reflexivity).
    repeat split; constructor.
  - right. split; [reflexivity|]. exists [].
    rewrite parse_numstat_line_short by (rewrite E; reflexivity).
    repeat split; constructor.
  - right. split; [reflexivity|]. exists [].
    rewrite parse_numstat_line_short by (rewrite E; reflexivity).
    repeat split; constructor.
  - rewrite (parse_numstat_line_fields _ _ _ _ _ E).
    assert (L : (3 <=? len (f0 :: f1 :: f2 :: rest))%Z = true).
    { apply Z.leb_le. unfold len. simpl length. lia. }
    rewrite L.
    destruct (stat_field_cases f0) as [[B0 S0] | [B0 [i S0]]]; rewrite B0, S0.
    + left. split; reflexivity.
    + destruct (stat_field_cases f1) as [[B1 S1] | [B1 [d S1]]]; rewrite B1, S1.
      * left. split; reflexivity.
      * right. split; [reflexivity|].
        destruct (rename_path_total f2) as [q Hq]. rewrite Hq. simpl.
        eexists. split; [reflexivity|]. split; [reflexivity|].
        constructor; [reflexivity | constructor].
Qed.

Lemma parse_numstat_loop_cons (line : str) (rest : list str) :
  parse_numstat_loop (line :: rest) []
  = (new <- parse_numstat_line line ;;
     more <- parse_numstat_loop rest [] ;; Ok (new ++ more)).
Proof.
  simpl. destruct (parse_numstat_line line) as [new|e]; simpl; [|reflexivity].
  apply parse_numstat_loop_acc.
Qed.

Lemma parse_numstat_loop_cases (lines : list str) :
  (existsb bad_line lines = true /\ parse_numstat_loop lines [] = Raise ValueError)
  \/ (existsb bad_line lines = false /\
      exists recs,
        Forall2 (fun line new => parse_numstat_line line = Ok new) lines recs /\
        parse_numstat_loop lines [] = Ok (concat recs) /\
        length (concat recs) = length (filter has_three_fields lines) /\
        Forall (fun c => loc c = None) (concat recs)).
Proof.
  induction lines as [|line rest IH].
  - right. split; [reflexivity|]. exists []. repeat split; constructor.
  - rewrite parse_numstat_loop_cons. cbn [existsb].
    destruct (parse_numstat_line_cases line)
      as [[B E] | [B (new & E & Ln & Fn)]]; rewrite B, E.
    + left. split; reflexivity.
    + destruct IH as [[Br Er] | [Br (recs & F2 & Er & Lr & Fr)]]; rewrite Br, Er.
      * left. split; reflexivity.
      * right. split; [reflexivity|]. exists (new :: recs).
        split; [constructor; assumption|].
        split; [reflexivity|].
        split.
        -- cbn [concat filter]. rewrite length_app, Ln, Lr.
           destruct (has_three_fields line); reflexivity.
        -- cbn [concat]. apply Forall_app; split; assumption.
Qed.

(** X1: when [parse_numstat] returns, its records are those of the lines
    of the stripped output, line after line; there is one record for each
    line with three fields or more, and none has a loc. *)
Theorem parse_numstat_records_of_lines :
  forall (output : str) (records : list FileChange),
    parse_numstat output = Ok records ->
    (exists recs,
        Forall2 (fun line new => parse_numstat_line line = Ok new)
                (split (strip output) [NL]) recs /\
        records = concat recs) /\
    len records = len (filter has_three_fields (split (strip output) [NL])) /\
    Forall (fun c => loc c = None) records.
Proof.
  intros output records H. rewrite parse_numstat_lines in H.
  destruct (parse_numstat_loop_cases (split (strip output) [NL]))
    as [[_ E] | [_ (recs & F2 & E & L & F)]]; rewrite E in H; [discriminate|].
  inversion H; subst records.
  split; [exists recs; split; [exact F2 | reflexivity]|].
  split; [unfold len; rewrite L; reflexivity | exact F].
Qed.

Lemma parse_numstat_records_of_lines_witness :
  len [mkFileChange (lit "a.py") 10 5 None; mkFileChange (lit "b.py") 0 0 None]
  = len (filter has_three_fields
           (split (strip (lit "10" ++ [TAB] ++ lit "5" ++ [TAB] ++ lit "a.py"
                            ++ [NL] ++ lit "junk" ++ [NL] ++ [NL]
                            ++ lit "-" ++ [TAB] ++ lit "-" ++ [TAB] ++ lit "b.py"))
                  [NL])).
Proof.
  apply (parse_numstat_records_of_lines
           (lit "10" ++ [TAB] ++ lit "5" ++ [TAB] ++ lit "a.py"
              ++ [NL] ++ lit "junk" ++ [NL] ++ [NL]
              ++ lit "-" ++ [TAB] ++ lit "-" ++ [TAB] ++ lit "b.py")
           [mkFileChange (lit "a.py") 10 5 None;
            mkFileChange (lit "b.py") 0 0 None]).
  reflexivity.
Defined.

(** X2: [parse_numstat] never raises [IndexError]. On an output whose
    count fields are ASCII and of 640 characters at most (the lines with
    three fields or more of the stripped output), it raises [ValueError]
    exactly when one of these lines has a count that is neither ["-"] nor
    a numeral, and it returns otherwise. *)
Theorem parse_numstat_errors :
  forall output : str,
    parse_numstat output <> Raise IndexError
    /\ (forallb ascii_counts (split (strip output) [NL]) = true ->
        (parse_numstat output = Raise ValueError
         <-> existsb bad_line (split (strip output) [NL]) = true)
        /\ ((exists records, parse_numstat output = Ok records)
            <-> existsb bad_line (split (strip output) [NL]) = false)).
Proof.
  intros output. rewrite parse_numstat_lines.
  destruct (parse_numstat_loop_cases (split (strip output) [NL]))
    as [[B E] | [B (recs & _ & E & _)]]; rewrite B, E.
  - split; [discriminate|]. intros _.
    repeat split; try congruence; try discriminate.
    intros [records H]; discriminate.
  - split; [discriminate|]. intros _.
    repeat split; try congruence; try discriminate. eauto.
Qed.

Lemma parse_numstat_errors_witness :
  (parse_numstat (lit "1" ++ [TAB] ++ lit "x2" ++ [TAB] ++ lit "a.py" ++ [NL]
                    ++ lit "3" ++ [TAB] ++ lit "4" ++ [TAB] ++ lit "b.py")
   = Raise ValueError
   <-> existsb bad_line
         (split (strip (lit "1" ++ [TAB] ++ lit "x2" ++ [TAB] ++ lit "a.py" ++ [NL]
                          ++ lit "3" ++ [TAB] ++ lit "4" ++ [TAB] ++ lit "b.py"))
                [NL]) = true)
  /\ ((exists records,
         parse_numstat (lit "1" ++ [TAB] ++ lit "x2" ++ [TAB] ++ lit "a.py" ++ [NL]
                          ++ lit "3" ++ [TAB] ++ lit "4" ++ [TAB] ++ lit "b.py")
         = Ok records)
      <-> existsb bad_line
            (split (strip (lit "1" ++ [TAB] ++ lit "x2" ++ [TAB] ++ lit "a.py"
                             ++ [NL] ++ lit "3" ++ [TAB] ++ lit "4" ++ [TAB]
                             ++ lit "b.py"))
                   [NL]) = false).
Proof.
  apply (proj2 (parse_numstat_errors
                  (lit "1" ++ [TAB] ++ lit "x2" ++ [TAB] ++ lit "a.py" ++ [NL]
                     ++ lit "3" ++ [TAB] ++ lit "4" ++ [TAB] ++ lit "b.py"))).
  reflexivity.
Defined.

(** X3: a path field without arrow is the path of the record as it is; a
    path field ["prefix{old => new}suffix"] gives ["newsuffix"]: what
    stands before the brace is not kept. *)
Theorem rename_path_plain_and_prefixed :
  (forall p : str, contains ARROW p = false -> rename_path p = Ok p)
  /\
  (forall prefix old new suffix : str,
      has_brace (prefix ++ old ++ new ++ suffix) = false ->
      contains ARROW ((prefix ++ old) ++ lit " =>") = false ->
      contains ARROW (new ++ suffix) = false ->
      rename_path (prefix ++ lit "{" ++ old ++ ARROW ++ new ++ lit "}" ++ suffix)
      = Ok (new ++ suffix)).
Proof.
  split.
  - intros p H. unfold rename_path. rewrite H. reflexivity.
  - intros prefix old new suffix Hb Ho Hn.
    rewrite !has_brace_app in Hb.
    apply orb_false_iff in Hb as [Hbp Hb]. apply orb_false_iff in Hb as [Hbo Hb].
    apply orb_false_iff in Hb as [Hbn Hbs].
    apply (rename_path_rule _ (prefix ++ old) (new ++ suffix)); try assumption.
    + replace (prefix ++ lit "{" ++ old ++ ARROW ++ new ++ lit "}" ++ suffix)
        with ((prefix ++ lit "{" ++ old) ++ ARROW ++ (new ++ lit "}" ++ suffix))
        by (rewrite <- !app_assoc; reflexivity).
      apply contains_app_sep.
    + rewrite !strip_braces_app.
      rewrite (strip_braces_id prefix Hbp), (strip_braces_id old Hbo),
              (strip_braces_id new Hbn), (strip_braces_id suffix Hbs).
      rewrite <- !app_assoc. reflexivity.
Qed.

Lemma rename_path_plain_and_prefixed_witness :
  rename_path (lit "src/main.py") = Ok (lit "src/main.py")
  /\ rename_path (lit "src/" ++ lit "{" ++ lit "old" ++ ARROW ++ lit "new"
                    ++ lit "}" ++ lit "/file.py")
     = Ok (lit "new" ++ lit "/file.py").
Proof.
  split.
  - apply (proj1 rename_path_plain_and_prefixed). reflexivity.
  - apply (proj2 rename_path_plain_and_prefixed
             (lit "src/") (lit "old") (lit "new") (lit "/file.py"));
      reflexivity.
Defined.

End ParseNumstatMore.

(* ================================================================== *)
(** ** More about [build_tree]: the shape of the tree                  *)
(* ================================================================== *)

Section BuildTreeMore.
Import tree.

Lemma well_formed_eq (n : TreeNode) :
  well_formed n <->
  (is_file n = false -> insertions n = 0%Z /\ deletions n = 0%Z /\ loc n = None)
  /\ NoDup (map fst (children n))
  /\ Forall (fun kv => name (snd kv) = fst kv /\ well_formed (snd kv))
            (children n).
Proof.
  destruct n as [nm isf ins dels lc ch]. cbn [well_formed children].
  assert (E : (fix all (d : dict TreeNode) : Prop :=
                 match d with
                 | [] => True
                 | kv :: d' =>
                     (name (snd kv) = fst kv /\ well_formed (snd kv)) /\ all d'
                 end) ch
              <-> Forall (fun kv => name (snd kv) = fst kv /\ well_formed (snd kv)) ch).
  { induction ch as [|kv ch IH].
    - split; [constructor | trivial].
    - split.
      + intros [H1 H2]. constructor; [exact H1 | apply IH; exact H2].
      + intros H. inversion H; subst. split; [assumption | apply IH; assumption]. }
  rewrite E. reflexivity.
Qed.

Lemma dict_get_In {V} (k : str) (v : V) (d : dict V) :
  dict_get k d = Some v -> In (k, v) d.
Proof.
  induction d as [|[k' v'] d IH]; simpl; [discriminate|].
  destruct (str_eqb k k') eqn:E.
  - apply str_eqb_eq in E; subst k'. intros H; inversion H; auto.
  - auto.
Qed.

Lemma dict_get_None_keys {V} (k : str) (d : dict V) :
  dict_get k d = None -> ~ In k (map fst d).
Proof.
  induction d as [|[k' v'] d IH]; simpl; [tauto|].
  destruct (str_eqb k k') eqn:E; [discriminate|].
  apply str_eqb_neq in E. intros H [H1 | H1]; [congruence | exact (IH H H1)].
Qed.

Lemma dict_set_absent {V} (k : str) (v : V) (d : dict V) :
  dict_get k d = None -> dict_set k v d = d ++ [(k, v)].
Proof.
  induction d as [|[k' v'] d IH]; simpl; [reflexivity|].
  destruct (str_eqb k k'); [discriminate|].
  intros H; rewrite (IH H); reflexivity.
Qed.

Lemma dict_set_keys {V} (k : str) (v v0 : V) (d : dict V) :
  dict_get k d = Some v0 -> map fst (dict_set k v d) = map fst d.
Proof.
  induction d as [|[k' v'] d IH]; simpl; [discriminate|].
  destruct (str_eqb k k'); [reflexivity|].
  intros H; simpl; rewrite (IH H); reflexivity.
Qed.

Lemma dict_set_Forall {V} (P : str * V -> Prop) (k : str) (v : V) (d : dict V) :
  Forall P d -> P (k, v) -> Forall P (dict_set k v d).
Proof.
  intros Hd Hv. induction Hd as [|[k' v'] d Hkv Hd IH]; simpl.
  - constructor; [exact Hv | constructor].
  - destruct (str_eqb k k') eqn:E.
    + apply str_eqb_eq in E; subst k'. constructor; assumption.
    + constructor; assumption.
Qed.

Lemma NoDup_snoc {A} (l : list A) (x : A) :
  NoDup l -> ~ In x l -> NoDup (l ++ [x]).
Proof.
  induction 1 as [|y l Hy Hl IH]; simpl; intros Hx.
  - constructor; [tauto | constructor].
  - constructor.
    + rewrite in_app_iff. simpl. intros [H | [H | []]]; [tauto | subst; tauto].
    + apply IH. tauto.
Qed.

Lemma add_change_well_formed (c : diff.FileChange) (parts : list str)
    (node : TreeNode) :
  well_formed node -> well_formed (add_change c parts node).
Proof.
  revert node; induction parts as [|part rest IH]; intros node W; [exact W|].
  cbn [add_change].
  set (fresh := mkTreeNode part _ _ _ _ []).
  set (child := match dict_get part (children node) with
                | Some existing => existing
                | None => fresh
                end).
  apply well_formed_eq in W. destruct W as (Ws & Wk & Wc).
  assert (Hchild : name child = part /\ well_formed child).
  { unfold child. destruct (dict_get part (children node)) as [existing|] eqn:E.
    - apply dict_get_In in E. rewrite Forall_forall in Wc.
      apply (Wc _ E).
    - split; [reflexivity|]. apply well_formed_eq. unfold fresh.
      cbn [is_file insertions deletions loc children map].
      destruct rest; repeat split; try discriminate; constructor. }
  destruct Hchild as [Hn Hw].
  apply well_formed_eq. unfold set_children.
  cbn [is_file insertions deletions loc children].
  split; [exact Ws|]. split.
  - destruct (dict_get part (children node)) as [existing|] eqn:E.
    + rewrite (dict_set_keys _ _ _ _ E). exact Wk.
    + rewrite (dict_set_absent _ _ _ E), map_app. cbn [map fst].
      apply NoDup_snoc; [exact Wk | apply dict_get_None_keys; exact E].
  - apply dict_set_Forall; [exact Wc|]. cbn [fst snd]. split.
    + destruct (same_stats_add_change c rest child) as [<- _]. exact Hn.
    + apply IH. exact Hw.
Qed.

Lemma fold_well_formed (l : list diff.FileChange) (node : TreeNode) :
  well_formed node -> well_formed (fold_left build_step l node).
Proof.
  revert node; induction l as [|c l IH]; intros node W; [exact W|].
  simpl. apply IH. apply add_change_well_formed. exact W.
Qed.

Lemma find_node_name (parts : list str) (node n : TreeNode) :
  well_formed node -> parts <> [] ->
  find_node parts node = Some n ->
  name n = last parts [] /\ well_formed n.
Proof.
  revert node; induction parts as [|part rest IH]; intros node W Hne H;
    [congruence|].
  cbn [find_node] in H.
  destruct (dict_get part (children node)) as [child|] eqn:E; [|discriminate].
  apply well_formed_eq in W. destruct W as (_ & _ & Wc).
  rewrite Forall_forall in Wc. destruct (Wc _ (dict_get_In _ _ _ E)) as [Hn Hw].
  destruct rest as [|r rest'].
  - inversion H; subst n. split; [exact Hn | exact Hw].
  - apply (IH child Hw); [discriminate | exact H].
Qed.

(** X4: the tree of [build_tree] is well formed, whatever the records:
    at every node the keys of the children are distinct, every child is
    named by its key, and a node that is not a file has no stats; the root
    is the directory ["."]. *)
Theorem build_tree_well_formed :
  forall changes : list diff.FileChange,
    well_formed (build_tree changes)
    /\ name (build_tree changes) = lit "."
    /\ is_file (build_tree changes) = false.
Proof.
  intros changes. unfold build_tree.
  set (root := mkTreeNode (lit ".") false 0%Z 0%Z None []).
  assert (W : well_formed root).
  { apply well_formed_eq. repeat split; constructor. }
  split; [apply fold_well_formed; exact W|].
  assert (S : same_stats root (fold_left build_step changes root)).
  { generalize root. induction changes as [|c l IH]; intros r; simpl.
    - apply same_stats_refl.
    - eapply same_stats_trans; [|apply IH].
      unfold build_step. apply same_stats_add_change. }
  destruct S as (S1 & S2 & _). rewrite <- S1, <- S2. split; reflexivity.
Qed.

(** X5: every record of the list has the nodes of its path in the tree:
    the walk from the root along the parts of the path ends in a node,
    whose name is the last part. *)
Theorem build_tree_has_every_path :
  forall (changes : list diff.FileChange) (c : diff.FileChange),
    In c changes ->
    exists n,
      find_node (split (diff.path c) SLASH) (build_tree changes) = Some n
      /\ name n = last (split (diff.path c) SLASH) [].
Proof.
  intros changes c Hin.
  destruct (in_split _ _ Hin) as (l1 & l2 & ->).
  set (parts := split (diff.path c) SLASH).
  assert (H : exists n, find_node parts (build_tree (l1 ++ c :: l2)) = Some n).
  { unfold build_tree. rewrite fold_left_app. cbn [fold_left].
    set (t := fold_left build_step l1 _).
    pose proof (find_node_add_change c parts t) as H1.
    destruct (find_node parts (build_step t c)) as [n|] eqn:E;
      [|unfold build_step in E; fold parts in E; congruence].
    destruct (fold_kept l2 parts _ n E) as (n' & H2 & _). eauto. }
  destruct H as [n Hn]. exists n. split; [exact Hn|].
  destruct (build_tree_well_formed (l1 ++ c :: l2)) as (W & _).
  apply (find_node_name parts _ n W); [apply split_parts_nonempty | exact Hn].
Qed.

Lemma build_tree_has_every_path_witness :
  exists n,
    find_node (split (lit "src/a.py") SLASH)
      (build_tree [diff.mkFileChange (lit "src/a.py") 1 2 None;
                   diff.mkFileChange (lit "b.py") 3 4 None])
    = Some n
    /\ name n = last (split (lit "src/a.py") SLASH) [].
Proof.
  apply (build_tree_has_every_path
           [diff.mkFileChange (lit "src/a.py") 1 2 None;
            diff.mkFileChange (lit "b.py") 3 4 None]
           (diff.mkFileChange (lit "src/a.py") 1 2 None)).
  left. reflexivity.
Defined.

End BuildTreeMore.

(* ================================================================== *)
(** ** More about the renderers: lengths, alignment, colours           *)
(* ================================================================== *)

Section Renderers.

Lemma len_app {A} (a b : list A) : len (a ++ b) = (len a + len b)%Z.
Proof. unfold len. rewrite length_app. lia. Qed.

Lemma len_rjust_max (s : str) (w : Z) : len (rjust s w) = Z.max w (len s).
Proof. unfold rjust, len. rewrite length_app, repeat_length. lia. Qed.

Lemma len_spaces (n : Z) : len (spaces n) = Z.max 0 n.
Proof. unfold spaces, len. rewrite repeat_length. lia. Qed.

Lemma plain_token_len (loc : option Z) (ins dels lw iw dw : Z) :
  len (tree.format_stats_aligned loc ins dels lw iw dw false)
  = token_len (loc, ins, dels) (lw, iw, dw).
Proof.
  unfold tree.format_stats_aligned, token_len, loc_len, ins_len, dels_len.
  cbv zeta. fold (loc_str loc). cbn [fst snd].
  rewrite !len_app, !len_rjust_max.
  change (len (lit "  +")) with 3%Z. change (len (lit " -")) with 2%Z. lia.
Qed.

Lemma color_token_len (loc : option Z) (ins dels lw iw dw : Z) :
  len (tree.format_stats_aligned loc ins dels lw iw dw true)
  = (token_len (loc, ins, dels) (lw, iw, dw) + 18)%Z.
Proof.
  unfold tree.format_stats_aligned, token_len, loc_len, ins_len, dels_len.
  cbv zeta. fold (loc_str loc). cbn [fst snd].
  rewrite !len_app, !len_rjust_max.
  change (len (lit "  ")) with 2%Z. change (len (lit "+")) with 1%Z.
  change (len (lit " ")) with 1%Z. change (len (lit "-")) with 1%Z.
  change (len (ESC :: lit "[32m")) with 5%Z.
  change (len (ESC :: lit "[31m")) with 5%Z.
  change (len (ESC :: lit "[0m")) with 4%Z. lia.
Qed.

(** X6: no field of the token is ever cut. The uncoloured token of
    [format_stats_aligned] is as long as its three fields, each of the
    width of its column or of its own text when this is longer, and the
    five characters between them; the coloured token has the 18
    characters of its four escape sequences more. The function of
    [output.py] is that of [tree.py]. *)
Theorem format_stats_aligned_length :
  forall (loc : option Z) (ins dels loc_width ins_width dels_width : Z),
    len (tree.format_stats_aligned loc ins dels loc_width ins_width dels_width
           false)
    = token_len (loc, ins, dels) (loc_width, ins_width, dels_width)
    /\
    len (tree.format_stats_aligned loc ins dels loc_width ins_width dels_width
           true)
    = (token_len (loc, ins, dels) (loc_width, ins_width, dels_width) + 18)%Z
    /\
    forall color,
      output.format_stats_aligned loc ins dels loc_width ins_width dels_width
        color
      = tree.format_stats_aligned loc ins dels loc_width ins_width dels_width
          color.
Proof.
  intros. split; [apply plain_token_len|].
  split; [apply color_token_len | reflexivity].
Qed.

Lemma fold_left_max_ge (l : list Z) (a : Z) :
  (a <= fold_left Z.max l a)%Z
  /\ forall x, In x l -> (x <= fold_left Z.max l a)%Z.
Proof.
  revert a; induction l as [|y l IH]; intros a; simpl.
  - split; [lia | tauto].
  - destruct (IH (Z.max a y)) as [H1 H2]. split; [lia|].
    intros x [-> | Hx]; [lia | apply H2; exact Hx].
Qed.

Lemma aligned_token_len (row : option Z * Z * Z) (w : Z * Z * Z)
    (rows : list (option Z * Z * Z)) :
  widths_of_rows w rows -> In row rows ->
  token_len row w = (fst (fst w) + 3 + snd (fst w) + 2 + snd w)%Z.
Proof.
  intros ((_ & L & _) & (_ & I & _) & (_ & D & _)) Hin.
  rewrite Forall_map, Forall_forall in L, I, D.
  specialize (L row Hin). specialize (I row Hin). specialize (D row Hin).
  unfold token_len. lia.
Qed.

Lemma output_column_widths_of_rows (changes : list diff.FileChange) :
  widths_of_rows (output.column_widths changes) (map change_row changes).
Proof.
  unfold output.column_widths. rewrite output_widths_fold.
  apply widths_of_rows_fold.
Qed.

Lemma Forall2_map_same {A B} (P : A -> B -> Prop) (f : A -> B) (l : list A) :
  (forall a, In a l -> P a (f a)) -> Forall2 P l (map f l).
Proof.
  induction l as [|a l IH]; intros H; simpl; constructor.
  - apply H; left; reflexivity.
  - apply IH. intros b Hb. apply H; right; exact Hb.
Qed.

Lemma max_path_len_ge (changes : list diff.FileChange) (c : diff.FileChange) :
  In c changes -> (len (diff.path c) <= max_path_len changes)%Z.
Proof.
  destruct changes as [|c0 cs]; [intros []|]. unfold max_path_len.
  destruct (fold_left_max_ge (map (fun c => len (diff.path c)) cs)
              (len (diff.path c0))) as [H1 H2].
  intros [<- | Hc]; [exact H1|].
  apply H2. apply in_map_iff. exists c. split; [reflexivity | exact Hc].
Qed.

(** The lines of [to_flat]: one for each record. *)
Lemma to_flat_eq (changes : list diff.FileChange) (use_color : bool) :
  output.to_flat changes use_color
  = map (fun change =>
           diff.path change
           ++ spaces (max_path_len changes - len (diff.path change))
           ++ lit "  "
           ++ tree.format_stats_aligned (diff.loc change)
                (diff.insertions change) (diff.deletions change)
                (fst (fst (output.column_widths changes)))
                (snd (fst (output.column_widths changes)))
                (snd (output.column_widths changes)) use_color)
        changes.
Proof.
  destruct changes as [|c0 cs]; [reflexivity|].
  unfold output.to_flat, max_path_len.
  destruct (output.column_widths (c0 :: cs)) as [[lw iw] dw].
  reflexivity.
Qed.

(** X7: [to_flat] gives one line for each record, in the order of the
    records, and the line of a record begins with its path; without
    colours all the lines have the same length, so that the columns stand
    under one another. *)
Theorem to_flat_lines_aligned :
  forall (changes : list diff.FileChange),
    (forall use_color,
        Forall2 (fun c line => startswith line (diff.path c) = true)
                changes (output.to_flat changes use_color))
    /\
    exists w : Z,
      Forall (fun line => len line = w) (output.to_flat changes false).
Proof.
  intros changes. split.
  - intros use_color. rewrite to_flat_eq.
    apply Forall2_map_same. intros c _. apply startswith_refl_app.
  - rewrite to_flat_eq.
    pose proof (max_path_len_ge changes) as HM.
    set (M := max_path_len changes) in *.
    pose proof (output_column_widths_of_rows changes) as W.
    destruct (output.column_widths changes) as [[lw iw] dw].
    cbn [fst snd].
    exists (M + 2 + (lw + 3 + iw + 2 + dw))%Z.
    apply Forall_map, Forall_forall. intros c Hc.
    rewrite !len_app, len_spaces, plain_token_len.
    change (len (lit "  ")) with 2%Z.
    rewrite (aligned_token_len (diff.loc c, diff.insertions c, diff.deletions c)
               (lw, iw, dw) (map change_row changes) W)
      by (apply in_map_iff; exists c; split; [reflexivity | exact Hc]).
    cbn [fst snd]. specialize (HM c Hc). lia.
Qed.

Lemma max_text_width_ge (tree_lines : list tree._TreeLine) (line : tree._TreeLine) :
  In line tree_lines -> tree.stats line <> None ->
  (len (tree.text line) <= tree.max_text_width tree_lines)%Z.
Proof.
  intros Hin Hs. unfold tree.max_text_width.
  set (f := fun l : tree._TreeLine =>
              match tree.stats l with
              | Some _ => [len (tree.text l)]
              | None => []
              end).
  assert (Hx : In (len (tree.text line)) (flat_map f tree_lines)).
  { apply in_flat_map. exists line. split; [exact Hin|].
    unfold f. destruct (tree.stats line); [left; reflexivity | congruence]. }
  destruct (flat_map f tree_lines) as [|w ws]; [destruct Hx|].
  destruct (fold_left_max_ge ws w) as [H1 H2].
  destruct Hx as [<- | Hx]; [exact H1 | apply H2; exact Hx].
Qed.

Lemma in_stat_rows (tree_lines : list tree._TreeLine) (line : tree._TreeLine)
    (row : option Z * Z * Z) :
  In line tree_lines -> tree.stats line = Some row -> In row (stat_rows tree_lines).
Proof.
  intros Hin Hs. unfold stat_rows. apply in_flat_map. exists line.
  split; [exact Hin|]. rewrite Hs. left; reflexivity.
Qed.

Lemma render_tree_eq (node : tree.TreeNode) (prefix : str) (use_color : bool) :
  tree.render_tree node prefix use_color
  = map (fun line =>
           match tree.stats line with
           | None => tree.text line
           | Some (loc, ins, dels) =>
               tree.text line
               ++ spaces (tree.max_text_width (tree._collect_lines node [])
                          - len (tree.text line))
               ++ lit "  "
               ++ tree.format_stats_aligned loc ins dels
                    (fst (fst (tree.column_widths (tree._collect_lines node []))))
                    (snd (fst (tree.column_widths (tree._collect_lines node []))))
                    (snd (tree.column_widths (tree._collect_lines node [])))
                    use_color
           end) (tree._collect_lines node []).
Proof.
  unfold tree.render_tree.
  destruct (tree.column_widths (tree._collect_lines node [])) as [[lw iw] dw].
  destruct (tree._collect_lines node []); reflexivity.
Qed.

(** X8: [render_tree] gives one line for each line of the tree, in
    order; the line of a directory is its text, the line of a file begins
    with its text, and without colours all the lines of files have the
    same length, whatever their depth in the tree. *)
Theorem render_tree_lines_aligned :
  forall (node : tree.TreeNode) (prefix : str),
    (forall use_color,
        Forall2 (fun line out =>
                   match tree.stats line with
                   | None => out = tree.text line
                   | Some _ => startswith out (tree.text line) = true
                   end)
                (tree._collect_lines node [])
                (tree.render_tree node prefix use_color))
    /\
    exists w : Z,
      Forall2 (fun line out =>
                 match tree.stats line with
                 | None => True
                 | Some _ => len out = w
                 end)
              (tree._collect_lines node [])
              (tree.render_tree node prefix false).
Proof.
  intros node prefix. split.
  - intros use_color. rewrite render_tree_eq.
    apply Forall2_map_same. intros line _.
    destruct (tree.stats line) as [[[loc ins] dels]|];
      [apply startswith_refl_app | reflexivity].
  - rewrite render_tree_eq.
    pose proof (tree_column_widths_of_rows (tree._collect_lines node [])) as W.
    set (tl := tree._collect_lines node []) in *.
    destruct (tree.column_widths tl) as [[lw iw] dw].
    cbn [fst snd].
    exists (tree.max_text_width tl + 2 + (lw + 3 + iw + 2 + dw))%Z.
    apply Forall2_map_same. intros line Hin.
    destruct (tree.stats line) as [[[loc ins] dels]|] eqn:E; [|exact I].
    rewrite !len_app, len_spaces, plain_token_len.
    change (len (lit "  ")) with 2%Z.
    rewrite (aligned_token_len (loc, ins, dels) (lw, iw, dw) (stat_rows tl) W)
      by (apply (in_stat_rows tl line); assumption).
    cbn [fst snd].
    pose proof (max_text_width_ge tl line Hin) as Hm.
    rewrite E in Hm. specialize (Hm ltac:(discriminate)). lia.
Qed.

Lemma sgr_params_space (a b : str) :
  sgr_params (a ++ SPACE :: b) = sgr_params a.
Proof.
  induction a as [|c a IH]; [reflexivity|].
  cbn [app sgr_params]. rewrite IH. reflexivity.
Qed.

Lemma sgr_follows_space (a b : str) :
  sgr_follows (a ++ SPACE :: b) = sgr_follows a.
Proof.
  destruct a as [|c a]; [reflexivity|].
  cbn [app sgr_follows]. rewrite sgr_params_space. reflexivity.
Qed.

Lemma sgr_params_has_m (a : str) : sgr_params a = true -> In 109%N a.
Proof.
  induction a as [|c a IH]; cbn [sgr_params]; [discriminate|].
  destruct (N.eqb_spec c 109) as [->|_]; [left; reflexivity|].
  destruct (is_digit c || (c =? 59)%N); [|discriminate].
  intros H; right; apply IH; exact H.
Qed.

(** A space is never part of an escape sequence: the text is stripped on
    both sides of it. *)
Lemma strip_ansi_space (a b : str) (inside : bool) :
  (inside = true -> In 109%N a) ->
  strip_ansi_from inside (a ++ SPACE :: b)
  = strip_ansi_from inside a ++ SPACE :: strip_ansi_from false b.
Proof.
  revert inside; induction a as [|c a IH]; intros inside H.
  - destruct inside; [destruct (H eq_refl)|]. reflexivity.
  - cbn [app strip_ansi_from]. destruct inside.
    + apply IH. intros Hn. destruct (H eq_refl) as [E | Hin]; [|exact Hin].
      subst c. discriminate Hn.
    + rewrite sgr_follows_space.
      destruct ((c =? ESC)%N && sgr_follows a) eqn:E.
      * apply IH. intros _. apply andb_true_iff in E as [_ E].
        destruct a as [|d a]; [discriminate|].
        cbn [sgr_follows] in E. apply andb_true_iff in E as [_ E].
        right. apply sgr_params_has_m. exact E.
      * cbn [app]. f_equal. apply IH. discriminate.
Qed.

Lemma strip_ansi_id (s : str) : no_esc s -> strip_ansi s = s.
Proof.
  intros H. unfold strip_ansi.
  rewrite <- (app_nil_r s) at 1. rewrite (strip_ansi_no_esc s [] H).
  apply app_nil_r.
Qed.

Lemma no_esc_plain_token (loc : option Z) (ins dels lw iw dw : Z) :
  no_esc (tree.format_stats_aligned loc ins dels lw iw dw false).
Proof.
  unfold tree.format_stats_aligned. cbv zeta. fold (loc_str loc).
  apply no_esc_app; [apply no_esc_rjust, no_esc_loc_str|].
  apply no_esc_app; [repeat constructor|].
  apply no_esc_app; [apply no_esc_rjust, no_esc_str_of_int|].
  apply no_esc_app; [repeat constructor|].
  apply no_esc_rjust, no_esc_str_of_int.
Qed.

(** The coloured token without its escape sequences is the plain one. *)
Lemma strip_ansi_token (loc : option Z) (ins dels lw iw dw : Z) :
  strip_ansi_from false (tree.format_stats_aligned loc ins dels lw iw dw true)
  = tree.format_stats_aligned loc ins dels lw iw dw false.
Proof.
  unfold tree.format_stats_aligned. cbv zeta. fold (loc_str loc).
  pose proof (no_esc_rjust _ lw (no_esc_loc_str loc)) as Hl.
  pose proof (no_esc_rjust _ iw (no_esc_str_of_int ins)) as Hi.
  pose proof (no_esc_rjust _ dw (no_esc_str_of_int dels)) as Hd.
  set (L := rjust (loc_str loc) lw) in *.
  set (I := rjust (str_of_int ins) iw) in *.
  set (D := rjust (str_of_int dels) dw) in *.
  rewrite (strip_ansi_no_esc L _ Hl). f_equal.
  change (strip_ansi_from false
            (lit "  " ++ (ESC :: lit "[32m") ++ lit "+" ++ I ++ (ESC :: lit "[0m")
               ++ lit " " ++ (ESC :: lit "[31m") ++ lit "-" ++ D
               ++ ESC :: lit "[0m"))
    with (lit "  +" ++ strip_ansi_from false
            (I ++ (ESC :: lit "[0m") ++ lit " " ++ (ESC :: lit "[31m")
               ++ lit "-" ++ D ++ ESC :: lit "[0m")).
  rewrite (strip_ansi_no_esc I _ Hi).
  change (strip_ansi_from false
            ((ESC :: lit "[0m") ++ lit " " ++ (ESC :: lit "[31m") ++ lit "-"
               ++ D ++ ESC :: lit "[0m"))
    with (lit " -" ++ strip_ansi_from false (D ++ ESC :: lit "[0m")).
  rewrite (strip_ansi_no_esc D _ Hd).
  change (strip_ansi_from false (ESC :: lit "[0m")) with (@nil char).
  rewrite app_nil_r. reflexivity.
Qed.

(** A rendered line, coloured or not, without its escape sequences. *)
Lemma strip_ansi_line (text pad : str) (loc : option Z) (ins dels lw iw dw : Z)
    (use_color : bool) :
  strip_ansi (text ++ pad ++ lit "  "
              ++ tree.format_stats_aligned loc ins dels lw iw dw use_color)
  = strip_ansi (text ++ pad) ++ lit "  "
    ++ tree.format_stats_aligned loc ins dels lw iw dw false.
Proof.
  unfold strip_ansi.
  replace (text ++ pad ++ lit "  "
           ++ tree.format_stats_aligned loc ins dels lw iw dw use_color)
    with ((text ++ pad) ++ SPACE
          :: (SPACE :: tree.format_stats_aligned loc ins dels lw iw dw use_color))
    by (rewrite <- app_assoc; reflexivity).
  rewrite strip_ansi_space by discriminate.
  change (strip_ansi_from false
            (SPACE :: tree.format_stats_aligned loc ins dels lw iw dw use_color))
    with (SPACE :: strip_ansi_from false
                     (tree.format_stats_aligned loc ins dels lw iw dw use_color)).
  destruct use_color.
  - rewrite strip_ansi_token. reflexivity.
  - pose proof (strip_ansi_id _ (no_esc_plain_token loc ins dels lw iw dw)) as E.
    unfold strip_ansi in E. rewrite E. reflexivity.
Qed.

End Renderers.

(* ================================================================== *)
(** ** The rest of [diff.py]: line counts, merge base, commit infos    *)
(* ================================================================== *)

Section DiffMore.
Import diff.

Lemma count_cons (x : char) (s : str) (c : char) :
  count (x :: s) [c] = ((if N.eqb c x then 1 else 0) + count s [c])%Z.
Proof.
  unfold count. cbn [count_from startswith length Nat.sub].
  rewrite andb_true_r. destruct (N.eqb c x); reflexivity.
Qed.

Lemma count_app (a b : str) (c : char) :
  count (a ++ b) [c] = (count a [c] + count b [c])%Z.
Proof.
  induction a as [|x a IH]; [reflexivity|].
  cbn [app]. rewrite !count_cons, IH. lia.
Qed.

Lemma count_absent (s : str) (c : char) : ~ In c s -> count s [c] = 0%Z.
Proof.
  induction s as [|x s IH]; intros H; [reflexivity|].
  rewrite count_cons, IH by (intros H1; apply H; right; exact H1).
  destruct (N.eqb_spec c x) as [->|_]; [|reflexivity].
  exfalso; apply H; left; reflexivity.
Qed.

Lemma endswith_cons (x : char) (s : str) (c : char) :
  endswith (x :: s) [c]
  = match s with [] => N.eqb c x | _ :: _ => endswith s [c] end.
Proof.
  unfold endswith. cbn [rev app].
  destruct s as [|y s]; [cbn; apply andb_true_r|].
  destruct (rev (y :: s)) as [|d r] eqn:E.
  - apply (f_equal (@length _)) in E. rewrite length_rev in E. discriminate.
  - reflexivity.
Qed.

Lemma endswith_snoc (s : str) (c : char) : endswith (s ++ [c]) [c] = true.
Proof.
  unfold endswith. rewrite rev_app_distr. cbn. rewrite N.eqb_refl. reflexivity.
Qed.

Lemma endswith_app_absent (a t : str) (c : char) :
  t <> [] -> ~ In c t -> endswith (a ++ t) [c] = false.
Proof.
  intros Hne Hc. unfold endswith. rewrite rev_app_distr.
  destruct (rev t) as [|d r] eqn:E.
  - apply (f_equal (@length _)) in E. rewrite length_rev in E.
    destruct t; [congruence | discriminate].
  - cbn. rewrite andb_true_r. apply N.eqb_neq. intros ->.
    apply Hc. apply in_rev. rewrite E. left; reflexivity.
Qed.

(** Without carriage return, the lines of the file are counted as line
    140 counts them. *)
Lemma file_lines_head (s : str) (pending : bool) :
  ~ In 13%N s ->
  file_lines_from pending false s
  = (count s [NL]
     + (if match s with [] => pending | _ :: _ => negb (endswith s [NL]) end
        then 1 else 0))%Z.
Proof.
  revert pending; induction s as [|x s IH]; intros pending H.
  - cbn. destruct pending; reflexivity.
  - assert (Hs : ~ In 13%N s) by (intros H1; apply H; right; exact H1).
    assert (Hx : (x =? 13)%N = false)
      by (apply N.eqb_neq; intros ->; apply H; left; reflexivity).
    cbn [file_lines_from]. rewrite count_cons, endswith_cons.
    unfold NL in *.
    rewrite (N.eqb_sym 10 x). destruct (x =? 10)%N eqn:E10.
    + rewrite (IH false Hs). destruct s; cbn [negb]; lia.
    + rewrite Hx, (IH true Hs). destruct s; cbn [negb]; lia.
Qed.

(** X10: for a text without carriage return, [get_file_loc] counts the
    same lines in every mode: the lines of the working tree file and the
    lines of the blob at HEAD are counted alike. *)
Theorem get_file_loc_same_count :
  forall (repo : Repo) (p text mode : str),
    working_file repo p = Some text ->
    head_blob repo p = Some text ->
    ~ In 13%N text ->
    get_file_loc repo p mode = Some (head_line_count text)
    /\ file_line_count text = head_line_count text.
Proof.
  intros repo p text mode Hw Hh Hcr.
  assert (E : file_line_count text = head_line_count text).
  { unfold file_line_count, head_line_count.
    rewrite (file_lines_head text false Hcr). destruct text; reflexivity. }
  split; [|exact E].
  unfold get_file_loc. rewrite Hw, Hh, E.
  destruct (str_eqb mode (lit "uncommitted")); reflexivity.
Qed.

Lemma get_file_loc_same_count_witness :
  get_file_loc
    (mkRepo (fun _ => None) (fun _ => Return [])
            (fun _ => Some (lit "a" ++ [NL] ++ lit "b"))
            (fun _ => Some (lit "a" ++ [NL] ++ lit "b"))
            (fun _ => Fail (GitCommandError [] [])))
    (lit "f.txt") (lit "uncommitted")
  = Some (head_line_count (lit "a" ++ [NL] ++ lit "b"))
  /\ file_line_count (lit "a" ++ [NL] ++ lit "b")
     = head_line_count (lit "a" ++ [NL] ++ lit "b").
Proof.
  apply (get_file_loc_same_count
           (mkRepo (fun _ => None) (fun _ => Return [])
                   (fun _ => Some (lit "a" ++ [NL] ++ lit "b"))
                   (fun _ => Some (lit "a" ++ [NL] ++ lit "b"))
                   (fun _ => Fail (GitCommandError [] [])))
           (lit "f.txt") (lit "a" ++ [NL] ++ lit "b") (lit "uncommitted")).
  - reflexivity.
  - reflexivity.
  - cbn. intros H. repeat (destruct H as [H|H]; [discriminate H|]). exact H.
Defined.

Lemma join_last (sep : str) (ls : list str) :
  ls <> [] -> exists pre, join sep ls = pre ++ last ls [].
Proof.
  induction ls as [|x ls IH]; intros H; [congruence|].
  destruct ls as [|y ls].
  - exists []. reflexivity.
  - destruct (IH ltac:(discriminate)) as [pre E].
    exists (x ++ sep ++ pre).
    change (join sep (x :: y :: ls)) with (x ++ sep ++ join sep (y :: ls)).
    rewrite E. change (last (x :: y :: ls) []) with (last (y :: ls) []).
    rewrite <- !app_assoc. reflexivity.
Qed.

Lemma count_join (ls : list str) :
  ls <> [] -> Forall (fun l => ~ In NL l) ls ->
  count (join [NL] ls) [NL] = (len ls - 1)%Z.
Proof.
  induction ls as [|x ls IH]; intros Hne H; [congruence|].
  inversion H as [|? ? Hx Hls]; subst.
  destruct ls as [|y ls].
  - cbn [join]. rewrite (count_absent _ _ Hx). reflexivity.
  - change (join [NL] (x :: y :: ls)) with (x ++ [NL] ++ join [NL] (y :: ls)).
    rewrite !count_app, (count_absent _ _ Hx).
    rewrite (IH ltac:(discriminate) Hls).
    change (count [NL] [NL]) with 1%Z. unfold len. cbn [length]. lia.
Qed.

(** X11: at HEAD a file of [n] lines has the loc [n], with or without a
    newline after its last line; the empty file has the loc 0. *)
Theorem head_line_count_lines :
  head_line_count [] = 0%Z
  /\
  forall ls : list str,
    ls <> [] ->
    Forall (fun l => ~ In NL l) ls ->
    head_line_count (join [NL] ls ++ [NL]) = len ls
    /\ (last ls [] <> [] -> head_line_count (join [NL] ls) = len ls).
Proof.
  split; [reflexivity|].
  intros ls Hne H. pose proof (count_join ls Hne H) as C. split.
  - unfold head_line_count. rewrite count_app, C, endswith_snoc.
    change (count [NL] [NL]) with 1%Z.
    destruct (join [NL] ls ++ [NL]); cbn [negb andb]; lia.
  - intros Hl. unfold head_line_count. rewrite C.
    destruct (join_last [NL] ls Hne) as [pre E].
    assert (Hlast : ~ In NL (last ls [])).
    { rewrite Forall_forall in H. apply H.
      destruct (exists_last Hne) as (l' & a & ->).
      rewrite last_last. apply in_or_app. right. left. reflexivity. }
    rewrite E, (endswith_app_absent pre _ NL Hl Hlast).
    destruct (pre ++ last ls []) eqn:E2.
    + destruct pre; [cbn in E2; congruence | discriminate].
    + cbn [negb andb]. lia.
Qed.

Lemma head_line_count_lines_witness :
  head_line_count (join [NL] [lit "x = 1"; []; lit "y = 2"] ++ [NL])
  = len [lit "x = 1"; []; lit "y = 2"]
  /\ (last [lit "x = 1"; []; lit "y = 2"] [] <> [] ->
      head_line_count (join [NL] [lit "x = 1"; []; lit "y = 2"])
      = len [lit "x = 1"; []; lit "y = 2"]).
Proof.
  apply (proj2 head_line_count_lines [lit "x = 1"; []; lit "y = 2"]).
  - discriminate.
  - repeat constructor; cbn; intros H;
      repeat (destruct H as [H|H]; [discriminate H|]); exact H.
Defined.

Lemma first_merge_base_some (repo : Repo) (candidates : list str) (b : str) :
  first_merge_base repo candidates = Some b <->
  exists pre branch post out,
    candidates = pre ++ branch :: post /\
    Forall (fun c => git_merge_base repo c = None) pre /\
    git_merge_base repo branch = Some out /\
    b = strip out.
Proof.
  induction candidates as [|c cs IH]; cbn [first_merge_base].
  - split; [discriminate|]. intros (pre & br & post & out & E & _).
    destruct pre; discriminate.
  - destruct (git_merge_base repo c) as [out|] eqn:Ec.
    + split.
      * intros H; inversion H; subst b.
        exists [], c, cs, out. repeat split; [constructor | exact Ec].
      * intros (pre & br & post & out' & E & Hpre & Hbr & ->).
        destruct pre as [|c' pre]; cbn in E; inversion E; subst.
        -- rewrite Ec in Hbr. inversion Hbr; reflexivity.
        -- inversion Hpre; subst. congruence.
    + rewrite IH. split.
      * intros (pre & br & post & out & -> & Hpre & Hbr & ->).
        exists (c :: pre), br, post, out.
        repeat split; [constructor; assumption | exact Hbr].
      * intros (pre & br & post & out & E & Hpre & Hbr & ->).
        destruct pre as [|c' pre]; cbn in E; inversion E; subst.
        -- congruence.
        -- inversion Hpre; subst. exists pre, br, post, out.
           repeat split; assumption.
Qed.

Lemma first_merge_base_none (repo : Repo) (candidates : list str) :
  first_merge_base repo candidates = None <->
  Forall (fun c => git_merge_base repo c = None) candidates.
Proof.
  induction candidates as [|c cs IH]; cbn [first_merge_base].
  - split; [constructor | reflexivity].
  - destruct (git_merge_base repo c) eqn:Ec.
    + split; [discriminate|]. intros H; inversion H; congruence.
    + rewrite IH. split.
      * intros H; constructor; assumption.
      * intros H; inversion H; assumption.
Qed.

(** X12: [get_merge_base] returns the stripped answer of the first of
    [target], [origin/target], [master], [origin/master] for which git
    finds a merge base; it raises, and then [MergeBaseNotFoundError], only
    when git fails on all four. *)
Theorem get_merge_base_first_candidate :
  forall (repo : Repo) (target : str),
    (forall b,
        get_merge_base repo target = Return b <->
        exists pre branch post out,
          [target; lit "origin/" ++ target; lit "master"; lit "origin/master"]
          = pre ++ branch :: post /\
          Forall (fun c => git_merge_base repo c = None) pre /\
          git_merge_base repo branch = Some out /\
          b = strip out)
    /\
    (forall e,
        get_merge_base repo target = Fail e <->
        (e = MergeBaseNotFoundError
               (lit "Could not find merge base with any of: "
                  ++ target ++ lit ", " ++ (lit "origin/" ++ target)
                  ++ lit ", master, origin/master")
         /\ Forall (fun c => git_merge_base repo c = None)
              [target; lit "origin/" ++ target; lit "master";
               lit "origin/master"])).
Proof.
  intros repo target. unfold get_merge_base. cbv zeta.
  change (merge_base_candidates target)
    with [target; lit "origin/" ++ target; lit "master"; lit "origin/master"].
  set (cands := [target; lit "origin/" ++ target; lit "master";
                 lit "origin/master"]).
  assert (J : join (lit ", ") cands
              = target ++ lit ", " ++ (lit "origin/" ++ target)
                ++ lit ", master, origin/master").
  { unfold cands. cbn [join]. rewrite <- !app_assoc. reflexivity. }
  rewrite J. split.
  - intros b. rewrite <- first_merge_base_some.
    destruct (first_merge_base repo cands); split; congruence.
  - intros e. rewrite <- first_merge_base_none.
    destruct (first_merge_base repo cands); split;
      try discriminate; try (intros [_ H]; discriminate H).
    + intros H; inversion H; split; reflexivity.
    + intros [-> _]. reflexivity.
Qed.

Lemma get_merge_base_first_candidate_witness :
  get_merge_base
    (mkRepo (fun b => if str_eqb b (lit "master") then Some (lit "abc123 ") else None)
            (fun _ => Return []) (fun _ => None) (fun _ => None)
            (fun _ => Fail (GitCommandError [] [])))
    (lit "main")
  = Return (lit "abc123").
Proof.
  apply (proj1 (get_merge_base_first_candidate
                  (mkRepo (fun b => if str_eqb b (lit "master")
                                    then Some (lit "abc123 ") else None)
                          (fun _ => Return []) (fun _ => None) (fun _ => None)
                          (fun _ => Fail (GitCommandError [] [])))
                  (lit "main"))).
  exists [lit "main"; lit "origin/main"], (lit "master"), [lit "origin/master"],
         (lit "abc123 ").
  repeat split. repeat constructor.
Defined.

(** X13: the base reference that [main] gives to [to_json]. In the
    uncommitted mode it is ["HEAD"] (it is not absent), in the since-last
    mode ["HEAD~1"], and the document has this [base]; in every other mode
    it is the merge base with ["main"], absent exactly when git finds no
    merge base for any of the four candidates. *)
Theorem get_base_ref_by_mode :
  forall (repo : Repo) (changes : list FileChange),
    get_base_ref repo (lit "uncommitted") = Some (lit "HEAD")
    /\ get_base_ref repo (lit "since-last") = Some (lit "HEAD~1")
    /\ dict_get (lit "base")
         (output.to_json changes (lit "uncommitted")
            (get_base_ref repo (lit "uncommitted")))
       = Some (output.VStr (lit "HEAD"))
    /\ dict_get (lit "base")
         (output.to_json changes (lit "since-last")
            (get_base_ref repo (lit "since-last")))
       = Some (output.VStr (lit "HEAD~1"))
    /\ forall mode,
         mode <> lit "uncommitted" -> mode <> lit "since-last" ->
         get_base_ref repo mode
         = first_merge_base repo (merge_base_candidates (lit "main"))
         /\ (get_base_ref repo mode = None <->
             Forall (fun c => git_merge_base repo c = None)
                    [lit "main"; lit "origin/main"; lit "master";
                     lit "origin/master"]).
Proof.
  intros repo changes. repeat split; try reflexivity.
  - unfold get_base_ref, get_merge_base.
    apply str_eqb_neq in H, H0. rewrite H, H0. cbv zeta.
    destruct (first_merge_base repo _); reflexivity.
  - unfold get_base_ref, get_merge_base.
    apply str_eqb_neq in H, H0. rewrite H, H0. cbv zeta.
    intros E. apply (first_merge_base_none repo (merge_base_candidates (lit "main"))).
    destruct (first_merge_base repo _); [discriminate | reflexivity].
  - unfold get_base_ref, get_merge_base.
    apply str_eqb_neq in H, H0. rewrite H, H0. cbv zeta.
    intros E.
    apply (first_merge_base_none repo (merge_base_candidates (lit "main"))) in E.
    rewrite E. reflexivity.
Qed.

Lemma get_base_ref_by_mode_witness :
  get_base_ref
    (mkRepo (fun b => if str_eqb b (lit "master") then Some (lit "abc123 ") else None)
            (fun _ => Return []) (fun _ => None) (fun _ => None)
            (fun _ => Fail (GitCommandError [] [])))
    (lit "default")
  = first_merge_base
      (mkRepo (fun b => if str_eqb b (lit "master") then Some (lit "abc123 ") else None)
              (fun _ => Return []) (fun _ => None) (fun _ => None)
              (fun _ => Fail (GitCommandError [] [])))
      (merge_base_candidates (lit "main")).
Proof.
  apply (get_base_ref_by_mode
           (mkRepo (fun b => if str_eqb b (lit "master")
                             then Some (lit "abc123 ") else None)
                   (fun _ => Return []) (fun _ => None) (fun _ => None)
                   (fun _ => Fail (GitCommandError [] [])))
           [] ).
  - discriminate.
  - discriminate.
Defined.

Lemma len_firstn_le {A} (n : nat) (l : list A) :
  n <= length l -> length (firstn n l) = n.
Proof. intros H. rewrite length_firstn. lia. Qed.

(** X14: [CommitInfo.format] never shows more than [max_msg_len]
    characters of the message when [max_msg_len] is 3 at least: a longer
    message is cut to its first [max_msg_len - 3] characters and three
    dots, a message that fits is shown whole. *)
Theorem format_commit_message_bound :
  forall (ci : CommitInfo) (max_msg_len : Z),
    (3 <= max_msg_len)%Z ->
    exists shown,
      format_commit ci max_msg_len
      = date ci ++ lit " " ++ short_hash ci ++ lit " " ++ shown
      /\ len shown = Z.min (len (message ci)) max_msg_len
      /\ (len (message ci) <= max_msg_len -> shown = message ci)%Z
      /\ ((max_msg_len < len (message ci))%Z ->
          shown = firstn (Z.to_nat (max_msg_len - 3)) (message ci) ++ lit "...").
Proof.
  intros ci m Hm. unfold format_commit. cbv zeta.
  destruct (Z.ltb_spec m (len (message ci))) as [Hlt | Hge].
  - eexists. split; [reflexivity|].
    unfold slice_to. destruct (Z.leb_spec 0 (m - 3)) as [_|]; [|lia].
    repeat split.
    + rewrite len_app. unfold len at 1.
      rewrite len_firstn_le by (unfold len in Hlt; lia).
      change (len (lit "...")) with 3%Z. lia.
    + lia.
  - eexists. split; [reflexivity|]. repeat split; [lia | lia].
Qed.

Lemma format_commit_message_bound_witness :
  exists shown,
    format_commit (mkCommitInfo (lit "abc123") (lit "Add the parser")
                     (lit "2024-01-02 03:04:05")) 10
    = lit "2024-01-02 03:04:05" ++ lit " " ++ lit "abc123" ++ lit " " ++ shown
    /\ len shown = Z.min (len (lit "Add the parser")) 10
    /\ (len (lit "Add the parser") <= 10 -> shown = lit "Add the parser")%Z
    /\ ((10 < len (lit "Add the parser"))%Z ->
        shown = firstn (Z.to_nat (10 - 3)) (lit "Add the parser") ++ lit "...").
Proof.
  apply (format_commit_message_bound
           (mkCommitInfo (lit "abc123") (lit "Add the parser")
              (lit "2024-01-02 03:04:05")) 10).
  lia.
Defined.

Lemma split_char_fields (s : str) (c : char) :
  Forall (fun f => ~ In c f) (split s [c]).
Proof.
  unfold split. induction s as [|x s IH].
  - constructor; [intros [] | constructor].
  - cbn [split_from startswith length Nat.sub]. rewrite andb_true_r.
    destruct (N.eqb_spec c x) as [->|Hne].
    + constructor; [intros [] | exact IH].
    + destruct (split_from [c] 0 s) as [|f fs]; cbn [cons_head].
      * constructor; [|constructor]. intros [H | []]; congruence.
      * inversion IH; subst. constructor; [|assumption].
        intros [H | H]; [congruence | tauto].
Qed.

Lemma lstrip_In (s : str) (x : char) : In x (lstrip s) -> In x s.
Proof.
  induction s as [|c s IH]; cbn [lstrip]; [tauto|].
  destruct (isspace c); [intros H; right; apply IH; exact H | tauto].
Qed.

Lemma strip_In (s : str) (x : char) : In x (strip s) -> In x s.
Proof.
  unfold strip, rstrip. intros H.
  apply in_rev in H. apply lstrip_In in H. apply in_rev in H.
  apply lstrip_In. exact H.
Qed.

Lemma lstrip_idem (s : str) : lstrip (lstrip s) = lstrip s.
Proof.
  induction s as [|c s IH]; [reflexivity|]. cbn [lstrip].
  destruct (isspace c) eqn:E; [exact IH|]. cbn [lstrip]. rewrite E. reflexivity.
Qed.

Lemma lstrip_snoc (a : str) (c : char) :
  isspace c = false -> lstrip (a ++ [c]) = lstrip a ++ [c].
Proof.
  intros H. induction a as [|x a IH]; cbn [app lstrip].
  - rewrite H. reflexivity.
  - destruct (isspace x); [exact IH | reflexivity].
Qed.

Lemma rstrip_cons (c : char) (t : str) :
  isspace c = false -> rstrip (c :: t) = c :: rstrip t.
Proof.
  intros H. unfold rstrip. cbn [rev]. rewrite (lstrip_snoc _ _ H).
  rewrite rev_app_distr. reflexivity.
Qed.

Lemma rstrip_idem (s : str) : rstrip (rstrip s) = rstrip s.
Proof. unfold rstrip. rewrite rev_involutive, lstrip_idem. reflexivity. Qed.

Lemma strip_idem (s : str) : strip (strip s) = strip s.
Proof.
  unfold strip. destruct (lstrip s) as [|c t] eqn:E; [reflexivity|].
  assert (Hc : isspace c = false).
  { pose proof (lstrip_idem s) as I. rewrite E in I. cbn [lstrip] in I.
    destruct (isspace c); [|reflexivity].
    exfalso. pose proof (f_equal (@length _) I) as L.
    assert (length (lstrip t) <= length t).
    { clear. induction t as [|x t IH]; cbn [lstrip]; [lia|].
      destruct (isspace x); cbn [length]; lia. }
    cbn [length] in L. lia. }
  rewrite (rstrip_cons c t Hc). cbn [lstrip]. rewrite Hc.
  rewrite (rstrip_cons c _ Hc), rstrip_idem. reflexivity.
Qed.

(** X15: the [CommitInfo] of a commit has the first six characters of
    its hash (the whole hash when it is shorter), and as message the first
    line of the commit message, without white space around it: a text
    without newline that [strip] leaves as it is. *)
Theorem commit_info_short_and_trimmed :
  forall c : Commit,
    startswith (hexsha c) (short_hash (commit_info c)) = true
    /\ len (short_hash (commit_info c)) = Z.min 6 (len (hexsha c))
    /\ ~ In NL (message (commit_info c))
    /\ strip (message (commit_info c)) = message (commit_info c)
    /\ date (commit_info c) = committed c.
Proof.
  intros c. unfold commit_info. cbn [short_hash message date].
  repeat split.
  - change (slice_to (hexsha c) 6) with (firstn 6 (hexsha c)).
    rewrite <- (firstn_skipn 6 (hexsha c)) at 1. apply startswith_refl_app.
  - change (slice_to (hexsha c) 6) with (firstn 6 (hexsha c)).
    unfold len. rewrite length_firstn. lia.
  - intros H. apply strip_In in H.
    pose proof (split_char_fields (commit_message c) NL) as F.
    destruct (split (commit_message c) [NL]) as [|f fs]; [destruct H|].
    inversion F; subst. cbn [hd] in H. tauto.
  - apply strip_idem.
Qed.

End DiffMore.

(* ================================================================== *)
(** ** The rest of [cli.py]: the sort, the summary, the run            *)
(* ================================================================== *)

Section CliMore.
Import cli.

Variable lower : str -> str.
Variable dumps : dict output.value -> str.
Variable exn_text : exn -> str.
Variable usage_error : str -> list str.

Lemma sum_from (l : list Z) (a : Z) :
  fold_left Z.add l a = (a + fold_right Z.add 0 l)%Z.
Proof.
  revert a; induction l as [|x l IH]; intros a; simpl; [lia|].
  rewrite IH. lia.
Qed.

Lemma sum_perm (l l' : list Z) : Permutation l l' -> sum l = sum l'.
Proof.
  intros P. unfold sum. rewrite !sum_from. f_equal.
  induction P; simpl; lia.
Qed.

Lemma StronglySorted_weaken {A} (R R' : A -> A -> Prop) (l : list A) :
  (forall a b, R a b -> R' a b) -> StronglySorted R l -> StronglySorted R' l.
Proof.
  intros H. induction 1 as [|a l Hs IH Ha]; constructor; [exact IH|].
  eapply Forall_impl; [|exact Ha]. intros b; apply H.
Qed.

Lemma sort_changes_perm (sort : str) (changes : list diff.FileChange) :
  Permutation (sort_changes lower sort changes) changes.
Proof.
  unfold sort_changes.
  destruct (str_eqb sort (lit "changes")); [apply sorted_perm|].
  destruct (str_eqb sort (lit "path")); apply sorted_perm.
Qed.

(** X16: the sort of [main] loses and adds no record, and puts the
    records in the order asked: by falling total for [changes], by rising
    path for [path], and otherwise by rising lower-cased last part of the
    path. *)
Theorem sort_changes_ordered :
  forall (sort : str) (changes : list diff.FileChange),
    Permutation (sort_changes lower sort changes) changes
    /\ (sort = lit "changes" ->
        StronglySorted (fun a b => (diff.total b <= diff.total a)%Z)
                       (sort_changes lower sort changes))
    /\ (sort = lit "path" ->
        StronglySorted (fun a b => str_ltb (diff.path b) (diff.path a) = false)
                       (sort_changes lower sort changes))
    /\ (sort <> lit "changes" -> sort <> lit "path" ->
        StronglySorted
          (fun a b => str_ltb (name_key lower b) (name_key lower a) = false)
          (sort_changes lower sort changes)).
Proof.
  intros sort changes. split; [apply sort_changes_perm|].
  unfold sort_changes. repeat split.
  - intros ->. rewrite str_eqb_refl.
    eapply StronglySorted_weaken; [|apply sorted_sorted].
    + intros a b H. apply Z.ltb_ge in H. lia.
    + intros a b H. apply Z.ltb_lt in H. apply Z.ltb_ge. lia.
    + intros a b c H1 H2. apply Z.ltb_ge in H1, H2. apply Z.ltb_ge. lia.
  - intros ->. cbn.
    apply sorted_sorted; [intros a b; apply str_ltb_asym|].
    intros a b c; apply str_leb_trans.
  - intros H1 H2. apply str_eqb_neq in H1, H2. rewrite H1, H2.
    apply sorted_sorted; [intros a b; apply str_ltb_asym|].
    intros a b c; apply str_leb_trans.
Qed.

(** X17: the summary does not depend on the sort: the lines of the
    summary and the [summary] of the JSON document are, for the sorted
    records, those of the records as [get_changes] gave them. *)
Theorem summary_independent_of_sort :
  forall (sort mode : str) (base_ref : option str)
         (changes : list diff.FileChange),
    summary_lines (sort_changes lower sort changes) = summary_lines changes
    /\ dict_get (lit "summary")
         (output.to_json (sort_changes lower sort changes) mode base_ref)
       = dict_get (lit "summary") (output.to_json changes mode base_ref).
Proof.
  intros sort mode base_ref changes.
  pose proof (sort_changes_perm sort changes) as P.
  assert (Ei : sum (map diff.insertions (sort_changes lower sort changes))
               = sum (map diff.insertions changes))
    by (apply sum_perm, Permutation_map, P).
  assert (Ed : sum (map diff.deletions (sort_changes lower sort changes))
               = sum (map diff.deletions changes))
    by (apply sum_perm, Permutation_map, P).
  assert (El : len (sort_changes lower sort changes) = len changes)
    by (unfold len; rewrite (Permutation_length P); reflexivity).
  split.
  - unfold summary_lines. cbv zeta. rewrite Ei, Ed, El. reflexivity.
  - unfold output.to_json. cbv zeta. rewrite Ei, Ed, El.
    destruct base_ref as [[|c b]|]; reflexivity.
Qed.




(** X19: what switches the colours off. With [--json] the run does not
    depend on [--flat], on [--no-color] nor on [NO_COLOR]; and without it
    a [NO_COLOR] that is set, to the empty text as to any other, gives the
    run of [--no-color]. *)
Theorem main_color_switches :
  forall (repo : option diff.Repo) (commits : bool)
         (since_last uncommitted : bool) (sort : str),
    (forall flat flat' no_color no_color' NO_COLOR NO_COLOR',
        main lower dumps exn_text usage_error (mkEnv repo commits NO_COLOR)
          (mkFlags since_last uncommitted flat true sort no_color)
        = main lower dumps exn_text usage_error (mkEnv repo commits NO_COLOR')
            (mkFlags since_last uncommitted flat' true sort no_color'))
    /\
    (forall flat as_json no_color value,
        main lower dumps exn_text usage_error (mkEnv repo commits (Some value))
          (mkFlags since_last uncommitted flat as_json sort no_color)
        = main lower dumps exn_text usage_error (mkEnv repo commits None)
            (mkFlags since_last uncommitted flat as_json sort true)).
Proof.
  intros repo commits sl un so. split.
  - intros fl fl' nc nc' v v'. unfold main.
    cbn [find_repo has_commits cli.NO_COLOR cli.since_last cli.uncommitted
         cli.flat cli.as_json cli.sort cli.no_color].
    reflexivity.
  - intros fl js nc v. unfold main, use_color.
    cbn [find_repo has_commits cli.NO_COLOR cli.since_last cli.uncommitted
         cli.flat cli.as_json cli.sort cli.no_color].
    rewrite andb_false_r. cbn [negb andb]. reflexivity.
Qed.

End CliMore.

(* ================================================================== *)
(** ** More about [_collect_lines]: induction on the tree               *)
(* ================================================================== *)

Section CollectLinesMore.
Import tree.

(** Induction on a tree: a property holds of every node when it holds of
    a node whose children have it. *)
Lemma TreeNode_children_ind (P : TreeNode -> Prop) :
  (forall node, Forall (fun kv => P (snd kv)) (children node) -> P node) ->
  forall node, P node.
Proof.
  intros step. fix IH 1. intros [nm isf ins dels lc ch].
  apply step. cbn [children].
  induction ch as [|[k c] ch IHch]; constructor.
  - cbn [snd]. apply IH.
  - exact IHch.
Qed.

Lemma sibling_lines_prefix (prefix : str) (kids : list TreeNode) :
  Forall (fun c => forall p, Forall (fun line => startswith (text line) p = true)
                                    (_collect_lines c p)) kids ->
  Forall (fun line => startswith (text line) prefix = true)
         (sibling_lines prefix kids).
Proof.
  induction 1 as [|child rest Hc Hrest IH]; [constructor|].
  cbn [sibling_lines]. apply Forall_app. split; [|exact IH].
  destruct (is_file child).
  - constructor; [apply startswith_refl_app | constructor].
  - constructor; [apply startswith_refl_app|].
    eapply Forall_impl; [|apply Hc]. cbn beta. intros line H.
    set (ext := if match rest with [] => true | _ :: _ => false end
                then lit "    " else VBAR) in *.
    clearbody ext. clear -H.
    revert H. generalize (text line) as t.
    induction prefix as [|x prefix IHp]; intros t H; [reflexivity|].
    destruct t as [|y t]; [discriminate|].
    cbn [app startswith] in *. apply andb_true_iff in H as [H1 H2].
    rewrite H1. cbn [andb]. apply IHp. exact H2.
Qed.

Lemma _collect_lines_siblings (node : TreeNode) (prefix : str) :
  _collect_lines node prefix
  = sibling_lines prefix (sorted key_lt (dict_values (children node))).
Proof.
  rewrite _collect_lines_eq. cbv zeta. unfold enumerate, len.
  apply (child_lines_siblings prefix _ 0).
Qed.

Lemma collect_lines_prefix (node : TreeNode) :
  forall prefix,
    Forall (fun line => startswith (text line) prefix = true)
           (_collect_lines node prefix).
Proof.
  induction node as [node IH] using TreeNode_children_ind. intros prefix.
  rewrite _collect_lines_siblings. apply sibling_lines_prefix.
  apply (Permutation_Forall (Permutation_sym (sorted_perm key_lt _))).
  unfold dict_values. apply Forall_map. exact IH.
Qed.

(** X20: the lines of a subtree all begin with the prefix it is given,
    so that the lines under a directory carry its indentation; and
    [render_tree] gives no line exactly when the root has no child. *)
Theorem collect_lines_prefix_and_empty :
  forall (node : TreeNode) (prefix : str) (use_color : bool),
    Forall (fun line => startswith (text line) prefix = true)
           (_collect_lines node prefix)
    /\ (render_tree node prefix use_color = [] <-> children node = []).
Proof.
  intros node prefix use_color. split; [apply collect_lines_prefix|].
  rewrite render_tree_eq, _collect_lines_siblings.
  pose proof (sorted_perm key_lt (dict_values (children node))) as P.
  destruct (sorted key_lt (dict_values (children node))) as [|child rest] eqn:E.
  - apply Permutation_nil in P. unfold dict_values in P.
    split; [intros _|reflexivity].
    destruct (children node); [reflexivity | discriminate].
  - split.
    + cbn [sibling_lines]. destruct (is_file child); discriminate.
    + intros H. rewrite H in P. cbn in P.
      apply Permutation_sym, Permutation_nil in P. discriminate.
Qed.

End CollectLinesMore.

(* ================================================================== *)
(** ** Colours and escape sequences                                    *)
(* ================================================================== *)

Section StripColor.
Import tree.

Lemma names_no_esc_eq (n : TreeNode) :
  names_no_esc n <->
  Forall (fun kv => no_esc (name (snd kv)) /\ names_no_esc (snd kv))
         (children n).
Proof.
  destruct n as [nm isf ins dels lc ch]. cbn [names_no_esc children].
  induction ch as [|kv ch IH].
  - split; [constructor | trivial].
  - split.
    + intros [H1 H2]. constructor; [exact H1 | apply IH; exact H2].
    + intros H. inversion H; subst. split; [assumption | apply IH; assumption].
Qed.

(** The parts of a text without escape character have none. *)
Lemma split_from_no_esc (sep s : str) :
  no_esc s -> forall skip, Forall no_esc (split_from sep skip s).
Proof.
  intros H. unfold no_esc in H.
  induction H as [|c s Hc Hs IH]; intros skip.
  - cbn [split_from]. repeat constructor.
  - cbn [split_from]. destruct skip as [|k]; [|apply IH].
    destruct (startswith (c :: s) sep).
    + constructor; [constructor | apply IH].
    + specialize (IH 0%nat).
      destruct (split_from sep 0 s) as [|f fs]; cbn [cons_head].
      * repeat constructor. exact Hc.
      * inversion IH; subst. constructor; [|assumption].
        constructor; assumption.
Qed.

Lemma add_change_no_esc (c : diff.FileChange) (parts : list str)
    (node : TreeNode) :
  Forall no_esc parts -> names_no_esc node ->
  names_no_esc (add_change c parts node).
Proof.
  intros Hp. revert node.
  induction Hp as [|part rest Hpart Hrest IH]; intros node W; [exact W|].
  cbn [add_change].
  set (fresh := mkTreeNode part _ _ _ _ []).
  set (child := match dict_get part (children node) with
                | Some existing => existing
                | None => fresh
                end).
  apply names_no_esc_eq in W.
  assert (Hchild : no_esc (name child) /\ names_no_esc child).
  { unfold child. destruct (dict_get part (children node)) as [existing|] eqn:E.
    - apply dict_get_In in E. rewrite Forall_forall in W. apply (W _ E).
    - split; [exact Hpart|]. apply names_no_esc_eq. constructor. }
  apply names_no_esc_eq. unfold set_children. cbn [children].
  apply dict_set_Forall; [exact W|]. cbn [fst snd]. split.
  - destruct (same_stats_add_change c rest child) as [<- _]. apply Hchild.
  - apply IH. apply Hchild.
Qed.

Lemma build_tree_no_esc (changes : list diff.FileChange) :
  Forall (fun c => no_esc (diff.path c)) changes ->
  names_no_esc (build_tree changes).
Proof.
  intros H. unfold build_tree.
  set (root := mkTreeNode (lit ".") false 0%Z 0%Z None []).
  assert (W : names_no_esc root) by (apply names_no_esc_eq; constructor).
  revert W. generalize root.
  induction H as [|c l Hc Hl IH]; intros r W; simpl; [exact W|].
  apply IH. unfold build_step. apply add_change_no_esc; [|exact W].
  apply split_from_no_esc. exact Hc.
Qed.

Lemma sibling_lines_no_esc (prefix : str) (kids : list TreeNode) :
  no_esc prefix ->
  Forall (fun c => no_esc (name c)
                   /\ forall p, no_esc p ->
                        Forall (fun line => no_esc (text line))
                               (_collect_lines c p)) kids ->
  Forall (fun line => no_esc (text line)) (sibling_lines prefix kids).
Proof.
  intros Hp. induction 1 as [|child rest [Hn Hc] Hrest IH]; [constructor|].
  cbn [sibling_lines]. apply Forall_app. split; [|exact IH].
  assert (Hconn : no_esc (if match rest with [] => true | _ :: _ => false end
                          then CORNER else BRANCH))
    by (destruct rest; repeat constructor).
  assert (Hext : no_esc (if match rest with [] => true | _ :: _ => false end
                         then lit "    " else VBAR))
    by (destruct rest; repeat constructor).
  destruct (is_file child).
  - constructor; [|constructor]. cbn [text].
    apply no_esc_app; [exact Hp|]. apply no_esc_app; [exact Hconn | exact Hn].
  - constructor.
    + cbn [text]. apply no_esc_app; [exact Hp|].
      apply no_esc_app; [exact Hconn|].
      apply no_esc_app; [exact Hn | repeat constructor].
    + apply Hc. apply no_esc_app; [exact Hp | exact Hext].
Qed.

Lemma collect_lines_no_esc (node : TreeNode) :
  names_no_esc node ->
  forall prefix, no_esc prefix ->
    Forall (fun line => no_esc (text line)) (_collect_lines node prefix).
Proof.
  induction node as [node IH] using TreeNode_children_ind. intros W prefix Hp.
  rewrite _collect_lines_siblings. apply sibling_lines_no_esc; [exact Hp|].
  apply (Permutation_Forall (Permutation_sym (sorted_perm key_lt _))).
  unfold dict_values. apply Forall_map.
  apply names_no_esc_eq in W. rewrite Forall_forall in *.
  intros kv Hin. destruct (W kv Hin) as [Hn Hw].
  split; [exact Hn | apply (IH kv Hin); exact Hw].
Qed.

Lemma no_esc_spaces (n : Z) : no_esc (spaces n).
Proof. unfold spaces. induction (Z.to_nat n); simpl; constructor; auto. Qed.

(** The coloured lines of a tree whose lines have no escape character
    are, without the escape sequences, the uncoloured lines. *)
Lemma render_tree_plain (node : TreeNode) (prefix : str) :
  Forall (fun line => no_esc (text line)) (_collect_lines node []) ->
  map strip_ansi (render_tree node prefix true) = render_tree node prefix false.
Proof.
  intros H. rewrite !render_tree_eq, map_map. apply map_ext_in.
  intros line Hin. rewrite Forall_forall in H. specialize (H line Hin).
  destruct (stats line) as [[[loc ins] dels]|].
  - rewrite strip_ansi_line. rewrite strip_ansi_id.
    + rewrite <- app_assoc. reflexivity.
    + apply no_esc_app; [exact H | apply no_esc_spaces].
  - apply strip_ansi_id. exact H.
Qed.

(** X9: colours add escape sequences and nothing else. The lines of
    [to_flat] and of [render_tree] with colours are, once the escape
    sequences are taken out, those without colours with theirs taken out,
    whatever the paths and the tree; and when no path of the records has
    an escape character, the coloured lines of [to_flat] and those of
    [render_tree] for the tree of the records are, without the escape
    sequences, the uncoloured lines themselves. *)
Theorem renderings_strip_color :
  (forall changes : list diff.FileChange,
      map strip_ansi (output.to_flat changes true)
      = map strip_ansi (output.to_flat changes false))
  /\
  (forall (node : tree.TreeNode) (prefix : str),
      map strip_ansi (tree.render_tree node prefix true)
      = map strip_ansi (tree.render_tree node prefix false))
  /\
  (forall changes : list diff.FileChange,
      Forall (fun c => no_esc (diff.path c)) changes ->
      map strip_ansi (output.to_flat changes true) = output.to_flat changes false)
  /\
  (forall (changes : list diff.FileChange) (prefix : str),
      Forall (fun c => no_esc (diff.path c)) changes ->
      map strip_ansi (tree.render_tree (tree.build_tree changes) prefix true)
      = tree.render_tree (tree.build_tree changes) prefix false).
Proof.
  assert (F : forall changes : list diff.FileChange,
             map strip_ansi (output.to_flat changes true)
             = map strip_ansi (output.to_flat changes false)).
  { intros changes. rewrite !to_flat_eq, !map_map.
    apply map_ext. intros c. rewrite !strip_ansi_line. reflexivity. }
  split; [exact F|]. split; [|split].
  - intros node prefix. rewrite !render_tree_eq, !map_map.
    apply map_ext. intros line.
    destruct (tree.stats line) as [[[loc ins] dels]|]; [|reflexivity].
    rewrite !strip_ansi_line. reflexivity.
  - intros changes Hp. rewrite F, to_flat_eq.
    rewrite <- (map_id (map _ changes)) at 2.
    apply map_ext_in. intros line Hline.
    apply in_map_iff in Hline as (c & <- & Hc).
    rewrite Forall_forall in Hp.
    apply strip_ansi_id.
    apply no_esc_app; [apply Hp; exact Hc|].
    apply no_esc_app; [apply no_esc_spaces|].
    apply no_esc_app; [repeat constructor | apply no_esc_plain_token].
  - intros changes prefix Hp. apply render_tree_plain.
    apply collect_lines_no_esc; [|constructor].
    apply build_tree_no_esc. exact Hp.
Qed.

Lemma renderings_strip_color_witness :
  map strip_ansi
    (output.to_flat [diff.mkFileChange (lit "src/a.py") 10 2 (Some 120%Z);
                     diff.mkFileChange (lit "b.py") 3 40 None] true)
  = output.to_flat [diff.mkFileChange (lit "src/a.py") 10 2 (Some 120%Z);
                    diff.mkFileChange (lit "b.py") 3 40 None] false
  /\
  map strip_ansi
    (tree.render_tree
       (tree.build_tree [diff.mkFileChange (lit "src/a.py") 10 2 (Some 120%Z);
                         diff.mkFileChange (lit "b.py") 3 40 None]) [] true)
  = tree.render_tree
      (tree.build_tree [diff.mkFileChange (lit "src/a.py") 10 2 (Some 120%Z);
                        diff.mkFileChange (lit "b.py") 3 40 None]) [] false.
Proof.
  split.
  - apply (proj1 (proj2 (proj2 renderings_strip_color))). repeat constructor.
  - apply (proj2 (proj2 (proj2 renderings_strip_color))). repeat constructor.
Defined.

End StripColor.

(* ================================================================== *)
(** ** Every record is shown once                                      *)
(* ================================================================== *)

Section ShownOnce.
Import tree.

Lemma file_rows_eq (n : TreeNode) :
  file_rows n
  = flat_map (fun c => if is_file c then [node_row c] else file_rows c)
             (dict_values (children n)).
Proof.
  destruct n as [nm isf ins dels lc ch]. cbn [file_rows children].
  unfold dict_values. induction ch as [|kv ch IH]; [reflexivity|].
  cbn [map flat_map]. rewrite <- IH. reflexivity.
Qed.

Lemma stat_rows_app (a b : list _TreeLine) :
  stat_rows (a ++ b) = stat_rows a ++ stat_rows b.
Proof. unfold stat_rows. apply flat_map_app. Qed.

Lemma stat_rows_siblings (prefix : str) (kids : list TreeNode) :
  Forall (fun c => forall p, Permutation (stat_rows (_collect_lines c p))
                                         (file_rows c)) kids ->
  Permutation (stat_rows (sibling_lines prefix kids))
              (flat_map (fun c => if is_file c then [node_row c] else file_rows c)
                        kids).
Proof.
  induction 1 as [|child rest Hc Hrest IH]; [constructor|].
  cbn [sibling_lines flat_map]. rewrite stat_rows_app.
  apply Permutation_app; [|exact IH].
  destruct (is_file child).
  - reflexivity.
  - apply Hc.
Qed.

(** The rows of the lines of a tree are the rows of the files it shows. *)
Lemma stat_rows_file_rows (node : TreeNode) :
  forall prefix,
    Permutation (stat_rows (_collect_lines node prefix)) (file_rows node).
Proof.
  induction node as [node IH] using TreeNode_children_ind. intros prefix.
  rewrite _collect_lines_siblings, file_rows_eq.
  rewrite stat_rows_siblings.
  - apply Permutation_flat_map, sorted_perm.
  - apply (Permutation_Forall (Permutation_sym (sorted_perm key_lt _))).
    unfold dict_values. apply Forall_map. exact IH.
Qed.

Lemma file_rows_set_children (node : TreeNode) (d : dict TreeNode) :
  file_rows (set_children node d)
  = flat_map (fun c => if is_file c then [node_row c] else file_rows c)
             (dict_values d).
Proof. rewrite file_rows_eq. reflexivity. Qed.

Lemma dict_set_rows (k : str) (v v' : TreeNode) (d : dict TreeNode)
    (g : TreeNode -> list (option Z * Z * Z)) (x : option Z * Z * Z) :
  dict_get k d = Some v ->
  Permutation (g v') (x :: g v) ->
  Permutation (flat_map g (dict_values (dict_set k v' d)))
              (x :: flat_map g (dict_values d)).
Proof.
  intros H P. induction d as [|[k0 v0] d IH]; [discriminate|].
  cbn [dict_get] in H. cbn [dict_set].
  destruct (str_eqb k k0).
  - inversion H; subst v0. unfold dict_values. cbn [map snd flat_map].
    rewrite P. reflexivity.
  - unfold dict_values in *. cbn [map snd flat_map].
    rewrite (IH H). apply Permutation_sym, Permutation_middle.
Qed.

Lemma addable_fresh_dir (parts : list str) (nm : str) (isf : bool)
    (ins dels : Z) (lc : option Z) :
  parts <> [] -> addable parts (mkTreeNode nm isf ins dels lc []).
Proof. destruct parts; [congruence | intros _; exact I]. Qed.

(** Adding a record along parts that can be added shows one file more,
    with the row of the record. *)
Lemma file_rows_add_change (c : diff.FileChange) (parts : list str)
    (node : TreeNode) :
  addable parts node ->
  Permutation (file_rows (add_change c parts node))
              (change_row c :: file_rows node).
Proof.
  revert node; induction parts as [|part rest IH]; intros node A;
    [destruct A|].
  cbn [addable] in A. cbn [add_change].
  rewrite file_rows_set_children, (file_rows_eq node).
  set (g := fun c0 : TreeNode =>
              if is_file c0 then [node_row c0] else file_rows c0).
  destruct (dict_get part (children node)) as [child|] eqn:E.
  - destruct rest as [|r rest']; [destruct A|]. destruct A as [Hf A].
    apply (dict_set_rows part child _ _ g (change_row c) E).
    unfold g.
    destruct (same_stats_add_change c (r :: rest') child) as (_ & <- & _).
    rewrite Hf. apply IH. exact A.
  - rewrite (dict_set_absent _ _ _ E). unfold dict_values.
    rewrite map_app, flat_map_app. cbn [map snd flat_map].
    rewrite app_nil_r.
    apply Permutation_sym.
    etransitivity; [apply Permutation_cons_append|].
    apply Permutation_app; [reflexivity|].
    destruct rest as [|r rest'].
    + cbn [add_change]. unfold g. cbn [is_file]. reflexivity.
    + set (fresh := mkTreeNode part false 0%Z 0%Z None []).
      unfold g.
      destruct (same_stats_add_change c (r :: rest') fresh) as (_ & <- & _).
      cbn [is_file fresh].
      apply Permutation_sym.
      etransitivity; [apply IH; apply addable_fresh_dir; discriminate|].
      rewrite (file_rows_eq fresh). reflexivity.
Qed.

(** A record whose path stands apart from the parts keeps them addable. *)
Lemma addable_add_change (c0 : diff.FileChange) (q parts : list str)
    (node : TreeNode) :
  addable parts node ->
  is_prefix parts q = false -> is_prefix q parts = false ->
  addable parts (add_change c0 q node).
Proof.
  revert q node; induction parts as [|part rest IH]; intros q node A P1 P2;
    [destruct A|].
  destruct q as [|qp qrest]; [discriminate P2|].
  cbn [addable] in A. cbn [add_change addable].
  unfold set_children; cbn [children].
  cbn [is_prefix] in P1, P2.
  destruct (str_eqb part qp) eqn:Eq.
  - apply str_eqb_eq in Eq; subst qp. rewrite str_eqb_refl in P2.
    cbn [andb] in P1, P2. rewrite dict_get_set_eq.
    destruct rest as [|r rest']; [discriminate P1|].
    destruct qrest as [|qr qrest']; [discriminate P2|].
    destruct (dict_get part (children node)) as [child|] eqn:E.
    + destruct A as [Hf A]. split.
      * destruct (same_stats_add_change c0 (qr :: qrest') child) as (_ & <- & _).
        exact Hf.
      * apply IH; assumption.
    + split.
      * match goal with
        | |- is_file (add_change _ _ ?f) = false =>
            destruct (same_stats_add_change c0 (qr :: qrest') f) as (_ & <- & _)
        end. reflexivity.
      * apply IH; [apply addable_fresh_dir; discriminate | assumption..].
  - assert (Eq' : str_eqb part qp = false) by exact Eq.
    rewrite (dict_get_set_ne _ _ _ _ Eq'). exact A.
Qed.

Lemma fold_addable (l : list diff.FileChange) (parts : list str) (node : TreeNode) :
  addable parts node ->
  Forall (fun c0 =>
            is_prefix parts (split (diff.path c0) SLASH) = false
            /\ is_prefix (split (diff.path c0) SLASH) parts = false) l ->
  addable parts (fold_left build_step l node).
Proof.
  revert node; induction l as [|c0 l IH]; intros node A F; [exact A|].
  inversion F as [|? ? [P1 P2] Fl]; subst. cbn [fold_left]. apply IH; [|exact Fl].
  unfold build_step. apply addable_add_change; assumption.
Qed.

Lemma ForallOrdPairs_snoc {A} (R : A -> A -> Prop) (l : list A) (c : A) :
  ForallOrdPairs R (l ++ [c]) ->
  ForallOrdPairs R l /\ Forall (fun x => R x c) l.
Proof.
  induction l as [|x l IH]; cbn [app]; intros H.
  - split; constructor.
  - inversion H as [|? ? Hx Hl]; subst.
    destruct (IH Hl) as [H1 H2].
    apply Forall_app in Hx as [Hx1 Hx2]. inversion Hx2; subst.
    split; constructor; assumption.
Qed.

Lemma build_tree_file_rows (changes : list diff.FileChange) :
  ForallOrdPairs apart changes ->
  Permutation (file_rows (build_tree changes)) (map change_row changes).
Proof.
  induction changes as [|c l IH] using rev_ind; intros H; [reflexivity|].
  apply ForallOrdPairs_snoc in H as [Hl Hc].
  unfold build_tree. rewrite fold_left_app. cbn [fold_left].
  fold (build_tree l). unfold build_step at 1.
  rewrite file_rows_add_change.
  - rewrite map_app. cbn [map].
    etransitivity; [|apply Permutation_cons_append].
    constructor. apply IH. exact Hl.
  - unfold build_tree. apply fold_addable.
    + apply addable_fresh_dir, split_parts_nonempty.
    + eapply Forall_impl; [|exact Hc]. intros c0 [P1 P2]. split; assumption.
Qed.

(** X21: when the paths of the records stand apart (no two records have
    the same path, and no path is a directory of another), the tree view
    shows every record once: the rows of the lines of the tree are the
    rows of the records, each with its loc, insertions and deletions, and
    [render_tree] gives as many lines with stats as there are records. *)
Theorem tree_shows_every_record_once :
  forall (changes : list diff.FileChange) (prefix : str),
    ForallOrdPairs apart changes ->
    Permutation (stat_rows (_collect_lines (build_tree changes) prefix))
                (map change_row changes)
    /\ len (filter (fun line => match stats line with
                                | Some _ => true
                                | None => false
                                end)
                   (_collect_lines (build_tree changes) prefix))
       = len changes.
Proof.
  intros changes prefix H.
  assert (P : Permutation (stat_rows (_collect_lines (build_tree changes) prefix))
                          (map change_row changes)).
  { etransitivity; [apply stat_rows_file_rows | apply build_tree_file_rows, H]. }
  split; [exact P|].
  apply Permutation_length in P. rewrite length_map in P.
  unfold len. rewrite <- P. f_equal.
  generalize (_collect_lines (build_tree changes) prefix) as tl.
  induction tl as [|line tl IHtl]; [reflexivity|].
  unfold stat_rows in *. cbn [filter flat_map].
  destruct (stats line); cbn [length app]; rewrite IHtl; reflexivity.
Qed.

Lemma tree_shows_every_record_once_witness :
  Permutation
    (stat_rows (_collect_lines
                  (build_tree [diff.mkFileChange (lit "src/b.py") 1 2 (Some 3%Z);
                               diff.mkFileChange (lit "a.py") 4 5 None;
                               diff.mkFileChange (lit "src/a.py") 6 7 (Some 8%Z)])
                  []))
    (map change_row [diff.mkFileChange (lit "src/b.py") 1 2 (Some 3%Z);
                     diff.mkFileChange (lit "a.py") 4 5 None;
                     diff.mkFileChange (lit "src/a.py") 6 7 (Some 8%Z)]).
Proof.
  apply (tree_shows_every_record_once
           [diff.mkFileChange (lit "src/b.py") 1 2 (Some 3%Z);
            diff.mkFileChange (lit "a.py") 4 5 None;
            diff.mkFileChange (lit "src/a.py") 6 7 (Some 8%Z)] []).
  repeat constructor.
Defined.

End ShownOnce.

Lemma sort_changes_ordered_witness :
  StronglySorted (fun a b => (diff.total b <= diff.total a)%Z)
    (cli.sort_changes (fun s => s) (lit "changes")
       [diff.mkFileChange (lit "src/b.py") 3 0 None;
        diff.mkFileChange (lit "src/a.py") 10 5 None]).
Proof.
  apply (sort_changes_ordered (fun s => s) (lit "changes")
           [diff.mkFileChange (lit "src/b.py") 3 0 None;
            diff.mkFileChange (lit "src/a.py") 10 5 None]).
  reflexivity.
Defined.

(* ================================================================== *)
(** ** [get_changes]: what it returns and how it fails                 *)
(* ================================================================== *)

Section GetChanges.
Import diff.

Lemma get_changes_eq (repo : Repo) (mode : str) :
  get_changes repo mode
  = and_then
      (if negb (str_eqb mode (lit "uncommitted"))
          && negb (str_eqb mode (lit "since-last"))
       then and_then (get_merge_base repo (lit "main"))
              (fun base => git_diff repo (get_changes_diff_args mode base))
       else git_diff repo (get_changes_diff_args mode []))
      (fun output =>
         and_then (of_result (parse_numstat output))
           (fun changes =>
              Return (map (fun change =>
                             set_loc change (get_file_loc repo (path change) mode))
                          changes))).
Proof.
  unfold get_changes, get_changes_diff_args.
  destruct (str_eqb mode (lit "uncommitted")); [reflexivity|].
  destruct (str_eqb mode (lit "since-last")); reflexivity.
Qed.

(** X22: the records [get_changes] returns are those [parse_numstat]
    reads from the answer of git to the arguments of the mode (with the
    merge base with ["main"] in the default mode), in the same order and
    with the same path, insertions and deletions; only the loc is filled
    in, with what [get_file_loc] finds for the path in this mode. *)
Theorem get_changes_enriches :
  forall (repo : Repo) (mode : str) (changes : list FileChange),
    get_changes repo mode = Return changes ->
    exists base output parsed,
      (if negb (str_eqb mode (lit "uncommitted"))
          && negb (str_eqb mode (lit "since-last"))
       then get_merge_base repo (lit "main") = Return base
       else base = [])
      /\ git_diff repo (get_changes_diff_args mode base) = Return output
      /\ parse_numstat output = Ok parsed
      /\ Forall2 (fun p c =>
                    path c = path p /\ insertions c = insertions p
                    /\ deletions c = deletions p
                    /\ loc c = get_file_loc repo (path p) mode)
                 parsed changes.
Proof.
  intros repo mode changes H. rewrite get_changes_eq in H.
  assert (G : exists base output,
             (if negb (str_eqb mode (lit "uncommitted"))
                 && negb (str_eqb mode (lit "since-last"))
              then get_merge_base repo (lit "main") = Return base
              else base = [])
             /\ git_diff repo (get_changes_diff_args mode base) = Return output
             /\ and_then (of_result (parse_numstat output))
                  (fun changes =>
                     Return (map (fun change =>
                                    set_loc change
                                      (get_file_loc repo (path change) mode))
                                 changes))
                = Return changes).
  { destruct (negb _ && negb _).
    - destruct (get_merge_base repo (lit "main")) as [base|e]; [|discriminate].
      cbn [and_then] in H.
      destruct (git_diff repo (get_changes_diff_args mode base)) as [output|e] eqn:E;
        [|discriminate].
      exists base, output. repeat split; [exact E | exact H].
    - destruct (git_diff repo (get_changes_diff_args mode [])) as [output|e] eqn:E;
        [|discriminate].
      exists [], output. repeat split; [exact E | exact H]. }
  destruct G as (base & output & B & E & K).
  destruct (parse_numstat output) as [parsed|e] eqn:P; [|discriminate].
  cbn [of_result and_then] in K. inversion K; subst changes.
  exists base, output, parsed. repeat split; try assumption.
  apply Forall2_map_same. intros p _. repeat split.
Qed.

Lemma get_changes_enriches_witness :
  exists base output parsed,
    (if negb (str_eqb (lit "uncommitted") (lit "uncommitted"))
        && negb (str_eqb (lit "uncommitted") (lit "since-last"))
     then get_merge_base
            (mkRepo (fun _ => None)
               (fun _ => Return (lit "1" ++ [TAB] ++ lit "2" ++ [TAB] ++ lit "a.py"))
               (fun _ => Some (lit "x" ++ [NL])) (fun _ => None)
               (fun _ => Fail (GitCommandError [] [])))
            (lit "main") = Return base
     else base = [])
    /\ git_diff
      (mkRepo (fun _ => None)
              (fun _ => Return (lit "1" ++ [TAB] ++ lit "2" ++ [TAB] ++ lit "a.py"))
              (fun _ => Some (lit "x" ++ [NL])) (fun _ => None)
              (fun _ => Fail (GitCommandError [] [])))
      (get_changes_diff_args (lit "uncommitted") base)
    = Return output
    /\ parse_numstat output = Ok parsed
    /\ Forall2 (fun p c =>
                  path c = path p /\ insertions c = insertions p
                  /\ deletions c = deletions p
                  /\ loc c
                     = get_file_loc
                         (mkRepo (fun _ => None)
                            (fun _ => Return (lit "1" ++ [TAB] ++ lit "2" ++ [TAB]
                                                ++ lit "a.py"))
                            (fun _ => Some (lit "x" ++ [NL])) (fun _ => None)
                            (fun _ => Fail (GitCommandError [] [])))
                         (path p) (lit "uncommitted"))
               parsed [mkFileChange (lit "a.py") 1 2 (Some 1%Z)].
Proof.
  apply (get_changes_enriches
           (mkRepo (fun _ => None)
              (fun _ => Return (lit "1" ++ [TAB] ++ lit "2" ++ [TAB] ++ lit "a.py"))
              (fun _ => Some (lit "x" ++ [NL])) (fun _ => None)
              (fun _ => Fail (GitCommandError [] [])))
           (lit "uncommitted")
           [mkFileChange (lit "a.py") 1 2 (Some 1%Z)]).
  reflexivity.
Defined.

(** X23: the comparison that [get_comparison_info] returns always has a
    base, in the uncommitted mode too (there it is the commit at HEAD and
    the head is the text ["uncommitted"]); in the other modes the head is
    the commit at HEAD. So the line of [ComparisonInfo.format] always
    has the base, the arrow and the head. *)
Theorem get_comparison_info_has_base :
  forall (repo : Repo) (mode : str) (ci : ComparisonInfo),
    get_comparison_info repo mode = Return ci ->
    exists (b : CommitInfo) (head_str : str),
      base ci = Some b
      /\ (if str_eqb mode (lit "uncommitted")
          then get_commit_info repo (lit "HEAD") = Return b
               /\ head ci = inr (lit "uncommitted")
               /\ head_str = lit "uncommitted"
          else exists h,
                 get_commit_info repo (lit "HEAD") = Return h
                 /\ head ci = inl h
                 /\ head_str = format_commit h 50)
      /\ format_comparison ci
         = lit "Comparing: " ++ format_commit b 50 ++ lit " -> " ++ head_str.
Proof.
  intros repo mode ci H. unfold get_comparison_info in H.
  destruct (str_eqb mode (lit "uncommitted")).
  - destruct (get_commit_info repo (lit "HEAD")) as [h|e]; [|discriminate].
    cbn [and_then] in H. inversion H; subst ci.
    exists h, (lit "uncommitted"). repeat split.
  - assert (G : exists b h,
               get_commit_info repo (lit "HEAD") = Return h
               /\ ci = mkComparisonInfo (Some b) (inl h)).
    { destruct (str_eqb mode (lit "since-last")).
      - destruct (get_commit_info repo (lit "HEAD~1")) as [b|e]; [|discriminate].
        cbn [and_then] in H.
        destruct (get_commit_info repo (lit "HEAD")) as [h|e]; [|discriminate].
        cbn [and_then] in H. inversion H. exists b, h. split; reflexivity.
      - destruct (get_merge_base repo (lit "main")) as [r|e]; [|discriminate].
        cbn [and_then] in H.
        destruct (get_commit_info repo r) as [b|e]; [|discriminate].
        cbn [and_then] in H.
        destruct (get_commit_info repo (lit "HEAD")) as [h|e]; [|discriminate].
        cbn [and_then] in H. inversion H. exists b, h. split; reflexivity. }
    destruct G as (b & h & Eh & ->).
    exists b, (format_commit h 50). split; [reflexivity|]. split; [|reflexivity].
    exists h. repeat split. exact Eh.
Qed.

Lemma get_comparison_info_has_base_witness :
  exists (b : CommitInfo) (head_str : str),
    base (mkComparisonInfo
            (Some (mkCommitInfo (lit "abcdef") (lit "first") (lit "2024-01-01 10:00:00")))
            (inr (lit "uncommitted")))
    = Some b
    /\ (if str_eqb (lit "uncommitted") (lit "uncommitted")
        then get_commit_info
               (mkRepo (fun _ => None) (fun _ => Return [])
                  (fun _ => None) (fun _ => None)
                  (fun _ => Return (mkCommit (lit "abcdef0123")
                                      (lit "2024-01-01 10:00:00")
                                      (lit " first" ++ [NL] ++ lit "body"))))
               (lit "HEAD") = Return b
             /\ head (mkComparisonInfo
                        (Some (mkCommitInfo (lit "abcdef") (lit "first")
                                 (lit "2024-01-01 10:00:00")))
                        (inr (lit "uncommitted")))
                = inr (lit "uncommitted")
             /\ head_str = lit "uncommitted"
        else exists h,
               get_commit_info
                 (mkRepo (fun _ => None) (fun _ => Return [])
                    (fun _ => None) (fun _ => None)
                    (fun _ => Return (mkCommit (lit "abcdef0123")
                                        (lit "2024-01-01 10:00:00")
                                        (lit " first" ++ [NL] ++ lit "body"))))
                 (lit "HEAD") = Return h
               /\ head (mkComparisonInfo
                          (Some (mkCommitInfo (lit "abcdef") (lit "first")
                                   (lit "2024-01-01 10:00:00")))
                          (inr (lit "uncommitted")))
                  = inl h
               /\ head_str = format_commit h 50)
    /\ format_comparison
         (mkComparisonInfo
            (Some (mkCommitInfo (lit "abcdef") (lit "first") (lit "2024-01-01 10:00:00")))
            (inr (lit "uncommitted")))
       = lit "Comparing: " ++ format_commit b 50 ++ lit " -> " ++ head_str.
Proof.
  apply (get_comparison_info_has_base
           (mkRepo (fun _ => None) (fun _ => Return [])
              (fun _ => None) (fun _ => None)
              (fun _ => Return (mkCommit (lit "abcdef0123")
                                  (lit "2024-01-01 10:00:00")
                                  (lit " first" ++ [NL] ++ lit "body"))))
           (lit "uncommitted")
           (mkComparisonInfo
              (Some (mkCommitInfo (lit "abcdef") (lit "first")
                       (lit "2024-01-01 10:00:00")))
              (inr (lit "uncommitted")))).
  reflexivity.
Defined.

End GetChanges.

(* ================================================================== *)
(** ** A run of [main], on the model                                   *)
(* ================================================================== *)

(** The end-to-end case of two files sorted by changes, in a repository
    where the comparison cannot be read: the flat list, then the
    summary. *)
Example main_flat_two_files :
  cli.main (fun s => s) (fun _ => []) (fun _ => []) (fun _ => [])
    (cli.mkEnv
       (Some (diff.mkRepo
                (fun _ => Some (lit "abc123"))
                (fun _ => diff.Return
                            (lit "3" ++ [TAB] ++ lit "0" ++ [TAB] ++ lit "src/b.py"
                               ++ [NL] ++ lit "10" ++ [TAB] ++ lit "5" ++ [TAB]
                               ++ lit "src/a.py"))
                (fun _ => None) (fun _ => None)
                (fun _ => diff.Fail (diff.GitCommandError [] []))))
       true None)
    (cli.mkFlags false false true false (lit "changes") true)
  = cli.mkRun
      [lit "src/a.py  -  +10 -5";
       lit "src/b.py  -  + 3 -0";
       [];
       lit "Total: +13 -5 (net: +8)";
       lit "Files: 2"]
      [] 0.
Proof. reflexivity. Qed.

Example main_not_a_repository :
  cli.main (fun s => s) (fun _ => []) (fun _ => []) (fun _ => [])
    (cli.mkEnv None true None)
    (cli.mkFlags false false false false (lit "name") false)
  = cli.mkRun []
      [lit "Error: Not a git repository";
       lit "Run this command from within a git repository."] 1.
Proof. reflexivity. Qed.

(** A value of [--sort] outside the choice: click ends the run before the
    repository is looked for. *)
Example main_refused_sort :
  cli.main (fun s => s) (fun _ => []) (fun _ => [])
    (fun value => [lit "Error: Invalid value for '--sort': " ++ value])
    (cli.mkEnv None true None)
    (cli.mkFlags false false false false (lit "bogus") false)
  = cli.mkRun [] [lit "Error: Invalid value for '--sort': bogus"] 2.
Proof. reflexivity. Qed.
